(** * Artist marketplace: request handlers of [Proyecto_Final_Mercadito.py]

    A shallow embedding of the Flask application: the values a JSON body
    decodes to, the Python built-ins the handlers call on them, the
    validators, the SQLAlchemy unit of work over the six tables, and the
    route handlers themselves, followed by the properties of the
    marketplace specification. *)

From Stdlib Require Import ZArith QArith List String Ascii Bool Lia SpecFloat DecimalString
  Permutation.
Import ListNotations.
Set Warnings "-register-all".
Local Open Scope string_scope.
Local Open Scope list_scope.
Local Open Scope Z_scope.

(** ** Exceptions and outcomes *)

(** The exception classes the handlers can meet.  [NotFound] is the
    [werkzeug] exception raised by [abort(404)]; like every other class here
    it derives from [Exception]. *)
Inductive exn : Type :=
| TypeError | ValueError | OverflowError | AttributeError | KeyError
| NotFound | IntegrityError | InterfaceError.

Inductive outcome (A : Type) : Type :=
| Done (a : A)
| Raised (e : exn).
Arguments Done {A} a.
Arguments Raised {A} e.

Definition obind {A B} (o : outcome A) (k : A -> outcome B) : outcome B :=
  match o with
  | Done a => k a
  | Raised e => Raised e
  end.

Declare Scope py_scope.
Delimit Scope py_scope with py.
Notation "x <~ c ;; k" := (obind c (fun x => k))
  (at level 100, c at next level, right associativity) : py_scope.
Local Open Scope py_scope.

(** ** Python values

    What [request.get_json()] hands to a handler.  A [str] is a sequence of
    characters, read as the code points U+0000 to U+00FF; a [float] is an
    IEEE 754 binary64 number; a [dict] keeps one entry per key. *)
Inductive pyval : Type :=
| PNone
| PBool (b : bool)
| PInt (n : Z)
| PFloat (f : spec_float)
| PStr (s : string)
| PList (l : list pyval)
| PDict (d : list (string * pyval)).

Definition chars (s : string) : list ascii := list_ascii_of_string s.
Definition code (c : ascii) : N := N_of_ascii c.

Fixpoint str_take (n : nat) (s : string) : string :=
  match n, s with
  | S n', String c s' => String c (str_take n' s')
  | _, _ => EmptyString
  end.

Definition str_len (s : string) : Z := Z.of_nat (String.length s).

(** [bool(x)] *)
Definition truthy (v : pyval) : bool :=
  match v with
  | PNone => false
  | PBool b => b
  | PInt n => negb (n =? 0)
  | PFloat (S754_zero _) => false
  | PFloat _ => true
  | PStr s => negb (String.eqb s "")
  | PList l => match l with [] => false | _ => true end
  | PDict d => match d with [] => false | _ => true end
  end.

(** [len(x)] *)
Definition py_len (v : pyval) : outcome Z :=
  match v with
  | PStr s => Done (str_len s)
  | PList l => Done (Z.of_nat (List.length l))
  | PDict d => Done (Z.of_nat (List.length d))
  | _ => Raised TypeError
  end.

(** [x[:n]] *)
Definition py_slice_to (n : nat) (v : pyval) : outcome pyval :=
  match v with
  | PStr s => Done (PStr (str_take n s))
  | PList l => Done (PList (firstn n l))
  | _ => Raised TypeError
  end.

Fixpoint assoc (k : string) (d : list (string * pyval)) : option pyval :=
  match d with
  | [] => None
  | (k', v) :: d' => if String.eqb k k' then Some v else assoc k d'
  end.

(** [data.get(k, default)]: only a dict has the method. *)
Definition py_get_default (data : pyval) (k : string) (default : pyval) : outcome pyval :=
  match data with
  | PDict d => Done (match assoc k d with Some v => v | None => default end)
  | _ => Raised AttributeError
  end.

(** [data.get(k)] *)
Definition py_get (data : pyval) (k : string) : outcome pyval :=
  py_get_default data k PNone.

(** [data[k]] with a string key. *)
Definition py_getitem (data : pyval) (k : string) : outcome pyval :=
  match data with
  | PDict d => match assoc k d with Some v => Done v | None => Raised KeyError end
  | _ => Raised TypeError
  end.

Fixpoint is_prefix (p s : list ascii) : bool :=
  match p, s with
  | [], _ => true
  | a :: p', b :: s' => Ascii.eqb a b && is_prefix p' s'
  | _ :: _, [] => false
  end.

Fixpoint is_infix (p s : list ascii) : bool :=
  is_prefix p s || match s with [] => false | _ :: s' => is_infix p s' end.

(** [k in data] with a string [k]: key membership in a dict, element
    membership in a list, substring test in a str. *)
Definition py_in (k : string) (data : pyval) : outcome bool :=
  match data with
  | PDict d => Done (match assoc k d with Some _ => true | None => false end)
  | PList l =>
      Done (existsb (fun v => match v with PStr s => String.eqb k s | _ => false end) l)
  | PStr s => Done (is_infix (chars k) (chars s))
  | _ => Raised TypeError
  end.

(** ** Numbers

    A Python [float] is a binary64 number: [spec_float] at precision 53 and
    maximal exponent 1024. *)
Definition prec : Z := 53.
Definition emax : Z := 1024.

(** [float(n)] for an [int]: round to nearest, ties to even;
    [OverflowError] when the result is not finite. *)
Definition float_of_int (n : Z) : outcome spec_float :=
  match binary_normalize prec emax n 0 false with
  | S754_infinity _ => Raised OverflowError
  | f => Done f
  end.

(** The float nearest to [(-1)^s * m * 10^e], as the decimal parser of
    [float(str)] computes it. *)
Definition float_of_decimal (s : bool) (m : Z) (e : Z) : spec_float :=
  match m with
  | Zpos p =>
      if 0 <=? e then binary_normalize prec emax (cond_Zopp s (Zpos p * 10 ^ e)) 0 false
      else SFdiv prec emax (S754_finite s p 0) (S754_finite false (Z.to_pos (10 ^ (- e))) 0)
  | _ => S754_zero s
  end.

(** Comparison of a float with an [int]; Python compares the two exactly.
    [None] when the float is a NaN. *)
Definition float_cmp_int (f : spec_float) (n : Z) : option comparison :=
  match f with
  | S754_nan => None
  | S754_infinity s => Some (if s then Lt else Gt)
  | S754_zero _ => Some (0 ?= n)
  | S754_finite s m e =>
      let v := cond_Zopp s (Zpos m) in
      Some (if 0 <=? e then v * 2 ^ e ?= n else v ?= n * 2 ^ (- e))
  end.

(** [n < f] and [f <= n] *)
Definition int_lt_float (n : Z) (f : spec_float) : bool :=
  match float_cmp_int f n with Some Gt => true | _ => false end.
Definition float_le_int (f : spec_float) (n : Z) : bool :=
  match float_cmp_int f n with Some Lt | Some Eq => true | _ => false end.

(** [int(f)] for a float: truncation toward zero. *)
Definition int_of_float (f : spec_float) : outcome Z :=
  match f with
  | S754_nan => Raised ValueError
  | S754_infinity _ => Raised OverflowError
  | S754_zero _ => Done 0
  | S754_finite s m e =>
      Done (cond_Zopp s (if 0 <=? e then Zpos m * 2 ^ e else Zpos m / 2 ^ (- e)))
  end.

(** The rational a finite float stands for. *)
Definition float_value (f : spec_float) : option Q :=
  match f with
  | S754_zero _ => Some (inject_Z 0)
  | S754_finite s m e =>
      let v := cond_Zopp s (Zpos m) in
      Some (if 0 <=? e then inject_Z (v * 2 ^ e) else Qmake v (Z.to_pos (2 ^ (- e))))
  | _ => None
  end.

(** A float literal with an integral value, such as [150.00]. *)
Definition float_literal (n : Z) : spec_float := binary_normalize prec emax n 0 false.

(** The float [3.5]. *)
Definition three_and_a_half : spec_float := float_of_decimal false 35 (-1).

(** *** Numeric strings *)

(** [str.isspace], by which [str.strip] goes: the white space of ASCII,
    the separators U+001C to U+001F, U+0085 and U+00A0. *)
Definition is_space (c : ascii) : bool :=
  let n := code c in
  ((9 <=? n) && (n <=? 13) || (28 <=? n) && (n <=? 32) || (n =? 133) || (n =? 160))%N.

(** The white space [int] and [float] skip around a numeral.  Both first
    replace the white space past U+007F by a space and then skip what C's
    [isspace] holds for, U+0009 to U+000D and the space: the separators
    U+001C to U+001F stay and make the conversion fail. *)
Definition is_numeral_space (c : ascii) : bool :=
  let n := code c in
  ((9 <=? n) && (n <=? 13) || (n =? 32) || (n =? 133) || (n =? 160))%N.

Definition is_digit (c : ascii) : bool :=
  let n := code c in ((48 <=? n) && (n <=? 57))%N.

Definition lower_char (c : ascii) : ascii :=
  let n := code c in
  if ((65 <=? n) && (n <=? 90))%N then ascii_of_N (n + 32) else c.

Fixpoint drop_while (sp : ascii -> bool) (l : list ascii) : list ascii :=
  match l with
  | c :: l' => if sp c then drop_while sp l' else l
  | [] => []
  end.

(** [l] without the characters [sp] holds for at its two ends. *)
Definition strip_by (sp : ascii -> bool) (l : list ascii) : list ascii :=
  rev (drop_while sp (rev (drop_while sp l))).

(** [s.strip()] on the characters of [s]. *)
Definition strip (l : list ascii) : list ascii := strip_by is_space l.

(** An underscore may only stand between two digits; the digits are then
    read without it. *)
Fixpoint underscores_ok (prev : option ascii) (l : list ascii) : bool :=
  match l with
  | [] => match prev with Some "_"%char => false | _ => true end
  | c :: l' =>
      let prev_digit := match prev with Some p => is_digit p | None => false end in
      let prev_under := match prev with Some "_"%char => true | _ => false end in
      (if Ascii.eqb c "_" then prev_digit
       else negb prev_under || is_digit c)
      && underscores_ok (Some c) l'
  end.

Definition drop_underscores (l : list ascii) : list ascii :=
  filter (fun c => negb (Ascii.eqb c "_")) l.

Fixpoint span_digits (l : list ascii) : list ascii * list ascii :=
  match l with
  | c :: l' =>
      if is_digit c then let (d, r) := span_digits l' in (c :: d, r) else ([], l)
  | [] => ([], [])
  end.

Definition digits_value (l : list ascii) : Z :=
  fold_left (fun acc c => 10 * acc + (Z.of_N (code c) - 48)) l 0.

Definition take_sign (l : list ascii) : bool * list ascii :=
  match l with
  | "-"%char :: l' => (true, l')
  | "+"%char :: l' => (false, l')
  | _ => (false, l)
  end.

(** [sys.int_max_str_digits] as Python sets it: [int] refuses a string of
    more digits. *)
Definition int_max_str_digits : Z := 4300.

(** [int(s)] for a [str], base ten. *)
Definition int_of_str (s : string) : outcome Z :=
  let l := strip_by is_numeral_space (chars s) in
  if negb (underscores_ok None l) then Raised ValueError else
  let (neg, l1) := take_sign (drop_underscores l) in
  let (ds, rest) := span_digits l1 in
  match ds, rest with
  | _ :: _, [] =>
      if int_max_str_digits <? Z.of_nat (List.length ds) then Raised ValueError
      else Done (cond_Zopp neg (digits_value ds))
  | _, _ => Raised ValueError
  end.

Definition lower_str (l : list ascii) : string :=
  string_of_list_ascii (map lower_char l).

(** [float(s)] for a [str]: a decimal numeral with optional fraction and
    exponent, or one of [inf], [infinity], [nan]. *)
Definition float_of_str (s : string) : outcome spec_float :=
  let l := strip_by is_numeral_space (chars s) in
  if negb (underscores_ok None l) then Raised ValueError else
  let (neg, l1) := take_sign (drop_underscores l) in
  let word := lower_str l1 in
  if String.eqb word "inf" || String.eqb word "infinity" then Done (S754_infinity neg)
  else if String.eqb word "nan" then Done S754_nan
  else
    let (ip, l2) := span_digits l1 in
    let (fp, l3) := match l2 with
                    | "."%char :: r => span_digits r
                    | _ => ([], l2)
                    end in
    match ip ++ fp with
    | [] => Raised ValueError
    | _ :: _ =>
        let expo :=
          match l3 with
          | [] => Some 0
          | c :: r =>
              if Ascii.eqb (lower_char c) "e" then
                let (eneg, r1) := take_sign r in
                let (ed, r2) := span_digits r1 in
                match ed, r2 with
                | _ :: _, [] => Some (cond_Zopp eneg (digits_value ed))
                | _, _ => None
                end
              else None
          end in
        match expo with
        | Some x =>
            Done (float_of_decimal neg (digits_value (ip ++ fp))
                    (x - Z.of_nat (List.length fp)))
        | None => Raised ValueError
        end
    end.

(** [float(x)] *)
Definition py_float (v : pyval) : outcome spec_float :=
  match v with
  | PFloat f => Done f
  | PInt n => float_of_int n
  | PBool b => float_of_int (if b then 1 else 0)
  | PStr s => float_of_str s
  | _ => Raised TypeError
  end.

(** [int(x)] *)
Definition py_int (v : pyval) : outcome Z :=
  match v with
  | PInt n => Done n
  | PBool b => Done (if b then 1 else 0)
  | PFloat f => int_of_float f
  | PStr s => int_of_str s
  | _ => Raised TypeError
  end.

(** ** Validation utilities *)

(** [0 < p <= 999999] *)
Definition price_in_range (p : spec_float) : bool :=
  int_lt_float 0 p && float_le_int p 999999.

(** [validate_price]: the bare [except] turns every exception into
    [False]. *)
Definition validate_price (price : pyval) : bool :=
  match py_float price with
  | Done p => price_in_range p
  | Raised _ => false
  end.

(** [validate_rating] *)
Definition validate_rating (rating : pyval) : bool :=
  match py_int rating with
  | Done r => (1 <=? r) && (r <=? 5)
  | Raised _ => false
  end.


(** ** Numerals

    What [int] and [float] read in a string, after the Python language
    reference: a numeral between white space, in which an underscore may
    stand between two digits. *)

(** Every underscore of [t] has a digit on either side. *)
Definition underscores_between_digits (t : list ascii) : Prop :=
  forall pre post, t = pre ++ "_"%char :: post ->
    (exists p d, pre = p ++ [d] /\ is_digit d = true)
    /\ (exists d q, post = d :: q /\ is_digit d = true).

(** [l] is white space, a text [t] and white space again, and [t] without
    its underscores is a numeral. *)
Definition numeral_in (numeral : list ascii -> Prop) (l : list ascii) : Prop :=
  exists pre t post,
    l = pre ++ t ++ post
    /\ forallb is_numeral_space pre = true
    /\ forallb is_numeral_space post = true
    /\ underscores_between_digits t
    /\ numeral (drop_underscores t).

(** The optional sign. *)
Definition sign_text (neg : bool) (t : list ascii) : Prop :=
  if neg then t = ["-"%char] else t = ["+"%char] \/ t = [].

(** One digit or more. *)
Definition digit_run (ds : list ascii) : Prop :=
  ds <> [] /\ forallb is_digit ds = true.

(** [sign digits], of at most [int_max_str_digits] digits; leading zeros
    count. *)
Definition int_numeral (n : Z) (t : list ascii) : Prop :=
  exists neg sg ds,
    t = sg ++ ds /\ sign_text neg sg /\ digit_run ds
    /\ Z.of_nat (List.length ds) <= int_max_str_digits
    /\ n = cond_Zopp neg (digits_value ds).

(** The optional exponent: [e] or [E], a sign, digits. *)
Definition exponent_text (x : Z) (t : list ascii) : Prop :=
  (t = [] /\ x = 0)
  \/ exists c neg sg ds,
       t = c :: sg ++ ds /\ (c = "e"%char \/ c = "E"%char)
       /\ sign_text neg sg /\ digit_run ds
       /\ x = cond_Zopp neg (digits_value ds).

(** A sign followed by [inf], [infinity] or [nan] in any case of the
    letters, or by digits with an optional point and exponent, of which
    the integer part or the fraction may be empty but not both. *)
Definition float_numeral (f : spec_float) (t : list ascii) : Prop :=
  exists neg sg body,
    t = sg ++ body /\ sign_text neg sg
    /\ ((lower_str body = "inf" \/ lower_str body = "infinity") /\ f = S754_infinity neg
        \/ lower_str body = "nan" /\ f = S754_nan
        \/ exists ip fp dot ex x,
             body = ip ++ dot ++ ex
             /\ forallb is_digit ip = true /\ forallb is_digit fp = true
             /\ ip ++ fp <> []
             /\ (dot = [] /\ fp = [] \/ dot = "."%char :: fp)
             /\ exponent_text x ex
             /\ f = float_of_decimal neg (digits_value (ip ++ fp))
                      (x - Z.of_nat (List.length fp))).

(** The strings [int] and [float] accept, with what they make of them. *)
Definition int_text (s : string) (n : Z) : Prop := numeral_in (int_numeral n) (chars s).
Definition float_text (s : string) (f : spec_float) : Prop :=
  numeral_in (float_numeral f) (chars s).

(** *** What the conversions check

    The checks of [int_of_str] and [float_of_str] as propositions. *)

(** What [underscores_ok] checks, with the character before the text. *)
Definition digit_before (prev : option ascii) (pre : list ascii) : Prop :=
  exists d, is_digit d = true /\ ((exists p, pre = p ++ [d]) \/ (pre = [] /\ prev = Some d)).

Definition digit_after (post : list ascii) : Prop :=
  exists d q, post = d :: q /\ is_digit d = true.

Definition underscores_fit (prev : option ascii) (t : list ascii) : Prop :=
  (forall pre post, t = pre ++ "_"%char :: post -> digit_before prev pre /\ digit_after post)
  /\ (prev = Some "_"%char -> digit_after t).

(** The text does not start with a sign, or with a digit. *)
Definition no_sign_first (l : list ascii) : Prop :=
  match l with
  | c :: _ => Ascii.eqb c "-" = false /\ Ascii.eqb c "+" = false
  | [] => True
  end.

Definition no_digit_first (l : list ascii) : Prop :=
  match l with
  | c :: _ => is_digit c = false
  | [] => True
  end.

(** The first and the last character of a text are no white space. *)
Definition starts_plain (l : list ascii) : Prop :=
  exists a u, l = a :: u /\ is_numeral_space a = false.
Definition ends_plain (l : list ascii) : Prop :=
  exists u z, l = u ++ [z] /\ is_numeral_space z = false.

(** The words [inf], [infinity] and [nan]. *)
Definition is_word (body : list ascii) : Prop :=
  lower_str body = "inf" \/ lower_str body = "infinity" \/ lower_str body = "nan".

(** How [float_of_str] reads the exponent. *)
Definition read_exponent (l3 : list ascii) : option Z :=
  match l3 with
  | [] => Some 0
  | c :: r =>
      if Ascii.eqb (lower_char c) "e" then
        let (eneg, r1) := take_sign r in
        let (ed, r2) := span_digits r1 in
        match ed, r2 with
        | _ :: _, [] => Some (cond_Zopp eneg (digits_value ed))
        | _, _ => None
        end
      else None
  end.

(** A float with a value in (0, 999999]. *)
Definition in_price_range (f : spec_float) : Prop :=
  exists q, float_value f = Some q /\ (0 < q)%Q /\ (q <= 999999)%Q.

(** The prices [validate_price] is to accept: a number in (0, 999999],
    [True], which counts as 1, or a string that holds such a number. *)
Definition valid_price (v : pyval) : Prop :=
  match v with
  | PInt n => 0 < n <= 999999
  | PBool b => b = true
  | PFloat f => in_price_range f
  | PStr s => exists f, float_text s f /\ in_price_range f
  | PNone | PList _ | PDict _ => False
  end.

(** The ratings [validate_rating] is to accept: a number that is 1 to 5
    once its fraction is cut off, [True], or a string that holds an
    integer from 1 to 5. *)
Definition valid_rating (v : pyval) : Prop :=
  match v with
  | PInt n => 1 <= n <= 5
  | PBool b => b = true
  | PFloat f => exists q, float_value f = Some q /\ (1 <= q)%Q /\ (q < 6)%Q
  | PStr s => exists n, int_text s n /\ 1 <= n <= 5
  | PNone | PList _ | PDict _ => False
  end.

(** The outcome of rounding is either the infinity or a finite number with
    a full mantissa, and it keeps the sign. *)
Definition big_float (s : bool) (f : spec_float) : Prop :=
  f = S754_infinity s
  \/ exists m e, f = S754_finite s m e /\ 1 <= e /\ 2 ^ 52 <= Zpos m.


(** [validate_email]: [re.match] of the pattern
    [^[a-zA-Z0-9._%+-]+@[a-zA-Z0-9.-]+\.[a-zA-Z]{2,}$], by derivatives. *)
Inductive regex : Type :=
| Fail
| Eps
| Chr (p : ascii -> bool)
| Seq (r1 r2 : regex)
| Alt (r1 r2 : regex)
| Star (r : regex).

Fixpoint nullable (r : regex) : bool :=
  match r with
  | Fail => false
  | Eps => true
  | Chr _ => false
  | Seq r1 r2 => nullable r1 && nullable r2
  | Alt r1 r2 => nullable r1 || nullable r2
  | Star _ => true
  end.

Fixpoint deriv (c : ascii) (r : regex) : regex :=
  match r with
  | Fail => Fail
  | Eps => Fail
  | Chr p => if p c then Eps else Fail
  | Seq r1 r2 =>
      if nullable r1 then Alt (Seq (deriv c r1) r2) (deriv c r2)
      else Seq (deriv c r1) r2
  | Alt r1 r2 => Alt (deriv c r1) (deriv c r2)
  | Star r' => Seq (deriv c r') (Star r')
  end.

Definition re_match (r : regex) (l : list ascii) : bool :=
  nullable (fold_left (fun r c => deriv c r) l r).

Definition Plus (r : regex) : regex := Seq r (Star r).

Definition is_alpha (c : ascii) : bool :=
  let n := code c in
  ((65 <=? n) && (n <=? 90) || (97 <=? n) && (n <=? 122))%N.

Definition one_of (s : string) (c : ascii) : bool :=
  existsb (Ascii.eqb c) (chars s).

Definition local_char (c : ascii) : bool := is_alpha c || is_digit c || one_of "._%+-" c.
Definition domain_char (c : ascii) : bool := is_alpha c || is_digit c || one_of ".-" c.

(** [$] matches at the end and before a final newline. *)
Definition end_anchor : regex := Alt Eps (Chr (Ascii.eqb "010"%char)).

Definition email_pattern : regex :=
  Seq (Plus (Chr local_char))
    (Seq (Chr (Ascii.eqb "@"))
       (Seq (Plus (Chr domain_char))
          (Seq (Chr (Ascii.eqb "."))
             (Seq (Chr is_alpha) (Seq (Chr is_alpha) (Seq (Star (Chr is_alpha)) end_anchor)))))).

Definition validate_email (email : pyval) : outcome bool :=
  match email with
  | PStr s => Done (re_match email_pattern (chars s))
  | _ => Raised TypeError
  end.

(** ** Models *)

Module User.
Record t : Type := mk {
  id : Z;
  username : string;
  email : string;
  password : string;
  bio : option string;
  avatar_url : option string;
  is_artist : bool
}.
Definition with_bio (u : t) (v : option string) : t :=
  mk (id u) (username u) (email u) (password u) v (avatar_url u) (is_artist u).
Definition with_avatar_url (u : t) (v : option string) : t :=
  mk (id u) (username u) (email u) (password u) (bio u) v (is_artist u).
Definition with_is_artist (u : t) (v : bool) : t :=
  mk (id u) (username u) (email u) (password u) (bio u) (avatar_url u) v.
End User.

Module Post.
Record t : Type := mk {
  id : Z;
  title : string;
  description : string;
  image_url : string;
  price : option spec_float;
  is_for_sale : bool;
  user_id : Z;
  created_at : Z
}.
Definition with_title (p : t) (v : string) : t :=
  mk (id p) v (description p) (image_url p) (price p) (is_for_sale p) (user_id p) (created_at p).
Definition with_description (p : t) (v : string) : t :=
  mk (id p) (title p) v (image_url p) (price p) (is_for_sale p) (user_id p) (created_at p).
Definition with_price (p : t) (v : option spec_float) : t :=
  mk (id p) (title p) (description p) (image_url p) v (is_for_sale p) (user_id p) (created_at p).
Definition with_is_for_sale (p : t) (v : bool) : t :=
  mk (id p) (title p) (description p) (image_url p) (price p) v (user_id p) (created_at p).
End Post.

Module Commission.
Record t : Type := mk {
  id : Z;
  title : string;
  description : string;
  price : spec_float;
  artist_id : Z;
  created_at : Z
}.
End Commission.

Module Review.
Record t : Type := mk {
  id : Z;
  rating : Z;
  comment : string;
  user_id : Z;
  post_id : Z;
  created_at : Z
}.
End Review.

Module Favorite.
Record t : Type := mk {
  id : Z;
  user_id : Z;
  post_id : Z;
  created_at : Z
}.
End Favorite.

Module Order.
Record t : Type := mk {
  id : Z;
  buyer_id : Z;
  post_id : Z;
  price : option spec_float;
  status : string;
  created_at : Z
}.
End Order.

(** ** The store and the unit of work *)

(** The six tables, each in row-id order. *)
Record DB : Type := mkDB {
  users : list User.t;
  posts : list Post.t;
  commissions : list Commission.t;
  reviews : list Review.t;
  favorites : list Favorite.t;
  orders : list Order.t
}.

Definition empty_db : DB := mkDB [] [] [] [] [] [].

Definition with_users (db : DB) (l : list User.t) : DB :=
  mkDB l (posts db) (commissions db) (reviews db) (favorites db) (orders db).
Definition with_posts (db : DB) (l : list Post.t) : DB :=
  mkDB (users db) l (commissions db) (reviews db) (favorites db) (orders db).
Definition with_commissions (db : DB) (l : list Commission.t) : DB :=
  mkDB (users db) (posts db) l (reviews db) (favorites db) (orders db).
Definition with_reviews (db : DB) (l : list Review.t) : DB :=
  mkDB (users db) (posts db) (commissions db) l (favorites db) (orders db).
Definition with_favorites (db : DB) (l : list Favorite.t) : DB :=
  mkDB (users db) (posts db) (commissions db) (reviews db) l (orders db).
Definition with_orders (db : DB) (l : list Order.t) : DB :=
  mkDB (users db) (posts db) (commissions db) (reviews db) (favorites db) l.

(** An integer primary key without AUTOINCREMENT: one more than the largest
    row id in the table. *)
Definition next_id (ids : list Z) : Z := 1 + fold_right Z.max 0 ids.

Fixpoint distinct (l : list string) : bool :=
  match l with
  | [] => true
  | s :: l' => negb (existsb (String.eqb s) l') && distinct l'
  end.

(** The constraints a flush can violate: the two UNIQUE columns of [user]
    and the NOT NULL price of [order]. *)
Definition constraints_ok (db : DB) : bool :=
  distinct (map User.username (users db))
  && distinct (map User.email (users db))
  && forallb (fun o => match Order.price o with Some _ => true | None => false end)
       (orders db).

(** What a request works on: the committed database, the session's view of
    it with the changes not yet committed, whether those changes hold a
    value sqlite3 cannot bind, and the [user_id] entry of the Flask
    session. *)
Record Env : Type := mkEnv {
  committed : DB;
  pending : DB;
  unflushable : option exn;
  session : option Z
}.

Definition M (A : Type) : Type := Env -> outcome A * Env.

Definition ret {A} (a : A) : M A := fun env => (Done a, env).

Definition bind {A B} (m : M A) (k : A -> M B) : M B :=
  fun env =>
    match m env with
    | (Done a, env') => k a env'
    | (Raised e, env') => (Raised e, env')
    end.

Definition raise {A} (e : exn) : M A := fun env => (Raised e, env).
Definition lift {A} (o : outcome A) : M A := fun env => (o, env).
Definition reads {A} (f : DB -> A) : M A := fun env => (Done (f (pending env)), env).
Definition writes (f : DB -> DB) : M unit :=
  fun env => (Done tt, mkEnv (committed env) (f (pending env)) (unflushable env) (session env)).

Notation "x <- c ;; k" := (bind c (fun x => k))
  (at level 100, c at next level, right associativity) : py_scope.
Notation "c ;; k" := (bind c (fun _ => k))
  (at level 100, right associativity) : py_scope.

(** [db.session.commit()]: the flush fails on a value that cannot be bound
    or on a violated constraint. *)
Definition db_commit : M unit :=
  fun env =>
    match unflushable env with
    | Some e => (Raised e, env)
    | None =>
        if constraints_ok (pending env)
        then (Done tt, mkEnv (pending env) (pending env) None (session env))
        else (Raised IntegrityError, env)
    end.

(** [db.session.rollback()] *)
Definition db_rollback : M unit :=
  fun env => (Done tt, mkEnv (committed env) (committed env) None (session env)).

(** A value assigned to a text column.  Those that reach one here are a
    [str], or a [list] or [dict], which sqlite3 cannot bind: the flush then
    fails. *)
Definition bind_text (v : pyval) : M string :=
  fun env =>
    match v with
    | PStr s => (Done s, env)
    | _ => (Done "", mkEnv (committed env) (pending env) (Some InterfaceError) (session env))
    end.

(** An [int] that fits the 64-bit INTEGER of SQLite.  sqlite3 raises
    [OverflowError] when it is to bind any other. *)
Definition sqlite_int (n : Z) : bool := (- 2 ^ 63 <=? n) && (n <? 2 ^ 63).

(** An [int] of the request assigned to an integer column: one that does
    not fit makes the flush fail, unless a value bound before it already
    does. *)
Definition bind_int (n : Z) : M unit :=
  fun env =>
    (Done tt,
     if sqlite_int n then env
     else mkEnv (committed env) (pending env)
            (match unflushable env with
             | Some e => Some e
             | None => Some OverflowError
             end)
            (session env)).

Definition set_session (uid : Z) : M unit :=
  fun env => (Done tt, mkEnv (committed env) (pending env) (unflushable env) (Some uid)).

Definition session_clear : M unit :=
  fun env => (Done tt, mkEnv (committed env) (pending env) (unflushable env) None).

(** ** Queries *)

Definition get_user (uid : Z) (db : DB) : option User.t :=
  find (fun u => User.id u =? uid) (users db).
Definition get_post (pid : Z) (db : DB) : option Post.t :=
  find (fun p => Post.id p =? pid) (posts db).
Definition get_commission (cid : Z) (db : DB) : option Commission.t :=
  find (fun c => Commission.id c =? cid) (commissions db).
Definition get_favorite (uid pid : Z) (db : DB) : option Favorite.t :=
  find (fun f => (Favorite.user_id f =? uid) && (Favorite.post_id f =? pid)) (favorites db).

(** What a query raises that returns no row, [params] being the integers
    the request gave it: [abort(404)] raises [NotFound], after an empty
    result; when one of the integers does not fit, sqlite3 has raised
    [OverflowError] before, on binding it. *)
Definition missing_row (params : list Z) : exn :=
  if forallb sqlite_int params then NotFound else OverflowError.

(** [get_or_404] and [first_or_404].  The ids of a row fit, being stored,
    so a query that finds a row was given integers that fit. *)
Definition or_404 {A} (params : list Z) (q : DB -> option A) : M A :=
  fun env =>
    match q (pending env) with
    | Some a => (Done a, env)
    | None => (Raised (missing_row params), env)
    end.

(** [get_current_user] *)
Definition get_current_user : M (option User.t) :=
  fun env =>
    match session env with
    | Some uid => (Done (get_user uid (pending env)), env)
    | None => (Done None, env)
    end.

(** Reading an attribute of [user], which is [None] when the session names
    no row. *)
Definition attr {A} (user : option User.t) (f : User.t -> A) : M A :=
  match user with
  | Some u => ret (f u)
  | None => raise AttributeError
  end.

(** ** Responses *)

(** The page of a [paginate] call. *)
Record Pagination : Type := mkPagination {
  items : list Post.t;
  page : Z;
  per_page : Z;
  total : Z
}.

Inductive context : Type :=
| SearchContext (posts : option Pagination) (users : option (list User.t)) (query : string)
| ErrorContext (error : string).

Inductive body : Type :=
| Json (fields : list (string * pyval))
| JsonException (e : exn)
| Template (name : string) (ctx : context)
| Redirect (endpoint : string).

Record response : Type := mkResponse { payload : body; status : Z }.

Definition jsonify (fields : list (string * pyval)) (code : Z) : response :=
  mkResponse (Json fields) code.
Definition jsonify_error (msg : string) (code : Z) : response :=
  jsonify [("error", PStr msg)] code.
Definition render_template (name : string) (ctx : context) (code : Z) : response :=
  mkResponse (Template name ctx) code.

(** ** Handler plumbing *)

(** [try: ... except Exception as e: ...] *)
Definition try_except (body : M response) (handler : exn -> M response) : M response :=
  fun env =>
    match body env with
    | (Done r, env') => (Done r, env')
    | (Raised e, env') => handler e env'
    end.

(** The [except] clause of the API handlers. *)
Definition api_error (e : exn) : M response :=
  db_rollback ;;
  ret (mkResponse (JsonException e) 500).

(** The [login_required] decorator. *)
Definition login_required (f : M response) : M response :=
  fun env =>
    match session env with
    | None => (Done (jsonify_error "Login required" 401), env)
    | Some _ => f env
    end.

Definition or_else (a b : M bool) : M bool :=
  x <- a ;; if x then ret true else b.

(** [not data.get(k)] *)
Definition missing_field (data : pyval) (k : string) : M bool :=
  v <- lift (py_get data k) ;; ret (negb (truthy v)).

Definition when (b : bool) (m : M unit) : M unit :=
  if b then m else ret tt.

(** ** Rows added, changed and deleted in the session *)

Definition db_add_user (username email password : string) (bio : option string)
    (is_artist : bool) : M Z :=
  uid <- reads (fun db => next_id (map User.id (users db))) ;;
  writes (fun db =>
    with_users db (users db ++ [User.mk uid username email password bio None is_artist])) ;;
  ret uid.

Definition db_add_post (title description image_url : string) (price : option spec_float)
    (is_for_sale : bool) (user_id now : Z) : M Z :=
  pid <- reads (fun db => next_id (map Post.id (posts db))) ;;
  writes (fun db =>
    with_posts db
      (posts db ++ [Post.mk pid title description image_url price is_for_sale user_id now])) ;;
  ret pid.

Definition db_add_commission (title description : string) (price : spec_float)
    (artist_id now : Z) : M Z :=
  cid <- reads (fun db => next_id (map Commission.id (commissions db))) ;;
  writes (fun db =>
    with_commissions db
      (commissions db ++ [Commission.mk cid title description price artist_id now])) ;;
  ret cid.

(** [post_id] is the integer of the URL, which no query has seen. *)
Definition db_add_review (rating : Z) (comment : string) (user_id post_id now : Z) : M Z :=
  bind_int post_id ;;
  rid <- reads (fun db => next_id (map Review.id (reviews db))) ;;
  writes (fun db =>
    with_reviews db (reviews db ++ [Review.mk rid rating comment user_id post_id now])) ;;
  ret rid.

Definition db_add_favorite (user_id post_id now : Z) : M Z :=
  fid <- reads (fun db => next_id (map Favorite.id (favorites db))) ;;
  writes (fun db =>
    with_favorites db (favorites db ++ [Favorite.mk fid user_id post_id now])) ;;
  ret fid.

(** [status] takes its column default. *)
Definition db_add_order (buyer_id post_id : Z) (price : option spec_float) (now : Z) : M Z :=
  oid <- reads (fun db => next_id (map Order.id (orders db))) ;;
  writes (fun db =>
    with_orders db (orders db ++ [Order.mk oid buyer_id post_id price "pending" now])) ;;
  ret oid.

Definition update_user_row (uid : Z) (f : User.t -> User.t) : M unit :=
  writes (fun db =>
    with_users db (map (fun u => if User.id u =? uid then f u else u) (users db))).

Definition update_post_row (pid : Z) (f : Post.t -> Post.t) : M unit :=
  writes (fun db =>
    with_posts db (map (fun p => if Post.id p =? pid then f p else p) (posts db))).

Definition db_delete_post (pid : Z) : M unit :=
  writes (fun db => with_posts db (filter (fun p => negb (Post.id p =? pid)) (posts db))).

Definition db_delete_commission (cid : Z) : M unit :=
  writes (fun db =>
    with_commissions db (filter (fun c => negb (Commission.id c =? cid)) (commissions db))).

Definition db_delete_favorite (fid : Z) : M unit :=
  writes (fun db =>
    with_favorites db (filter (fun f => negb (Favorite.id f =? fid)) (favorites db))).

(** ** Pattern matching in queries *)

(** The comparison behind LIKE: [%] stands for any run of characters, [_]
    for any one character, and letters match without regard to case. *)
Fixpoint like_match (p : list ascii) : list ascii -> bool :=
  match p with
  | [] => fun s => match s with [] => true | _ :: _ => false end
  | c :: p' =>
      if Ascii.eqb c "%" then
        fix star (s : list ascii) : bool :=
          like_match p' s || match s with [] => false | _ :: s' => star s' end
      else if Ascii.eqb c "_" then
        fun s => match s with [] => false | _ :: s' => like_match p' s' end
      else
        fun s =>
          match s with
          | [] => false
          | d :: s' => Ascii.eqb (lower_char c) (lower_char d) && like_match p' s'
          end
  end.

(** A text as SQLite's string functions read it: up to its first NUL. *)
Fixpoint until_nul (l : list ascii) : list ascii :=
  match l with
  | c :: l' => if Ascii.eqb c "000" then [] else c :: until_nul l'
  | [] => []
  end.

(** The LIKE operator of SQLite, which reads the pattern and the text as C
    strings. *)
Definition sql_like (p s : list ascii) : bool :=
  like_match (until_nul p) (until_nul s).

(** [column.ilike(pattern)], rendered as [lower(column) LIKE lower(pattern)]. *)
Definition ilike (column : string) (pattern : list ascii) : bool :=
  sql_like (map lower_char pattern) (map lower_char (chars column)).

(** The pattern [f'%{query}%']. *)
Definition contains_pattern (query : list ascii) : list ascii :=
  ("%"%char :: query) ++ ["%"%char].

(** [query.paginate(page=page, per_page=12)]: a page below 1 is a 404, and
    so is a later page without rows, for which the query was given the
    offset [(page - 1) * per_page]. *)
Definition paginate (rows : list Post.t) (page per_page : Z) : M Pagination :=
  if page <? 1 then raise NotFound else
  let its := firstn (Z.to_nat per_page) (skipn (Z.to_nat ((page - 1) * per_page)) rows) in
  match its with
  | [] => if page =? 1
          then ret (mkPagination its page per_page (Z.of_nat (List.length rows)))
          else raise (missing_row [(page - 1) * per_page])
  | _ :: _ => ret (mkPagination its page per_page (Z.of_nat (List.length rows)))
  end.

(** [request.args.get(k, default, type=int)] *)
Definition args_get_int (args : list (string * string)) (k : string) (default : Z) : Z :=
  match find (fun kv => String.eqb (fst kv) k) args with
  | Some (_, v) => match int_of_str v with Done n => n | Raised _ => default end
  | None => default
  end.

(** [request.args.get(k, '')] *)
Definition args_get (args : list (string * string)) (k : string) : string :=
  match find (fun kv => String.eqb (fst kv) k) args with
  | Some (_, v) => v
  | None => ""
  end.

(** [request.args.get('q', '').strip()[:100]] *)
Definition search_query (args : list (string * string)) : list ascii :=
  firstn 100 (strip (chars (args_get args "q"))).

Definition post_matches (query : list ascii) (p : Post.t) : bool :=
  ilike (Post.title p) (contains_pattern query)
  || ilike (Post.description p) (contains_pattern query).

(** ** Routes without password hashing *)

(** [GET /search] *)
Definition search (args : list (string * string)) : M response :=
  try_except (
    let query := search_query args in
    let page := args_get_int args "page" 1 in
    match query with
    | [] | [_] => ret (render_template "search.html" (SearchContext None None "") 200)
    | _ :: _ :: _ =>
        rows <- reads (fun db => filter (post_matches query) (posts db)) ;;
        posts <- paginate rows page 12 ;;
        users <- reads (fun db =>
          firstn 10 (filter (fun u => ilike (User.username u) (contains_pattern query))
                       (users db))) ;;
        ret (render_template "search.html"
               (SearchContext (Some posts) (Some users) (string_of_list_ascii query)) 200)
    end)
    (fun _ => ret (render_template "error.html" (ErrorContext "Search error") 500)).

(** [POST /api/profile/edit] *)
Definition edit_profile (data : pyval) : M response :=
  login_required (try_except (
    user <- get_current_user ;;
    has_bio <- lift (py_in "bio" data) ;;
    when has_bio (
      v <- lift (x <~ py_getitem data "bio" ;; py_slice_to 500 x) ;;
      uid <- attr user User.id ;;
      s <- bind_text v ;;
      update_user_row uid (fun u => User.with_bio u (Some s))) ;;
    has_avatar <- lift (py_in "avatar_url" data) ;;
    when has_avatar (
      v <- lift (x <~ py_getitem data "avatar_url" ;; py_slice_to 500 x) ;;
      uid <- attr user User.id ;;
      s <- bind_text v ;;
      update_user_row uid (fun u => User.with_avatar_url u (Some s))) ;;
    has_artist <- lift (py_in "is_artist" data) ;;
    when has_artist (
      v <- lift (py_getitem data "is_artist") ;;
      uid <- attr user User.id ;;
      update_user_row uid (fun u => User.with_is_artist u (truthy v))) ;;
    db_commit ;;
    ret (jsonify [("success", PBool true); ("message", PStr "Profile updated")] 200))
    api_error).

(** [GET /logout] *)
Definition logout : M response :=
  session_clear ;;
  ret (mkResponse (Redirect "homepage") 302).

(** [float(data.get('price')) if data.get('price') else None] and its
    [data['price']] variant. *)
Definition price_or_none (get : outcome pyval) : M (option spec_float) :=
  c <- lift get ;;
  if truthy c then
    v <- lift get ;;
    f <- lift (py_float v) ;;
    ret (Some f)
  else ret None.

(** [POST /api/posts] *)
Definition create_post (now : Z) (data : pyval) : M response :=
  login_required (try_except (
    user <- get_current_user ;;
    missing <- or_else (missing_field data "title") (missing_field data "image_url") ;;
    if missing then ret (jsonify_error "Title and image required" 400) else
    n <- lift (t <~ py_getitem data "title" ;; py_len t) ;;
    if 200 <? n then ret (jsonify_error "Title too long" 400) else
    p <- lift (py_get data "price") ;;
    bad <- (if truthy p
            then v <- lift (py_getitem data "price") ;; ret (negb (validate_price v))
            else ret false) ;;
    if bad then ret (jsonify_error "Invalid price" 400) else
    title <- lift (py_getitem data "title") ;;
    description <- lift (d <~ py_get_default data "description" (PStr "") ;;
                         py_slice_to 1000 d) ;;
    image_url <- lift (u <~ py_getitem data "image_url" ;; py_slice_to 500 u) ;;
    price <- price_or_none (py_get data "price") ;;
    is_for_sale <- lift (v <~ py_get_default data "is_for_sale" (PBool false) ;;
                         Done (truthy v)) ;;
    uid <- attr user User.id ;;
    title_s <- bind_text title ;;
    description_s <- bind_text description ;;
    image_url_s <- bind_text image_url ;;
    pid <- db_add_post title_s description_s image_url_s price is_for_sale uid now ;;
    db_commit ;;
    ret (jsonify [("success", PBool true); ("post_id", PInt pid)] 201))
    api_error).

(** [DELETE /api/posts/<int:post_id>] *)
Definition delete_post (post_id : Z) : M response :=
  login_required (try_except (
    user <- get_current_user ;;
    post <- or_404 [post_id] (get_post post_id) ;;
    uid <- attr user User.id ;;
    if negb (Post.user_id post =? uid) then ret (jsonify_error "Unauthorized" 403) else
    db_delete_post (Post.id post) ;;
    db_commit ;;
    ret (jsonify [("success", PBool true); ("message", PStr "Post deleted")] 200))
    api_error).

(** [PUT /api/posts/<int:post_id>] *)
Definition update_post (post_id : Z) (data : pyval) : M response :=
  login_required (try_except (
    user <- get_current_user ;;
    post <- or_404 [post_id] (get_post post_id) ;;
    uid <- attr user User.id ;;
    if negb (Post.user_id post =? uid) then ret (jsonify_error "Unauthorized" 403) else
    has_title <- lift (py_in "title" data) ;;
    when has_title (
      v <- lift (x <~ py_getitem data "title" ;; py_slice_to 200 x) ;;
      s <- bind_text v ;;
      update_post_row (Post.id post) (fun p => Post.with_title p s)) ;;
    has_description <- lift (py_in "description" data) ;;
    when has_description (
      v <- lift (x <~ py_getitem data "description" ;; py_slice_to 1000 x) ;;
      s <- bind_text v ;;
      update_post_row (Post.id post) (fun p => Post.with_description p s)) ;;
    has_price <- lift (py_in "price" data) ;;
    bad <- (if has_price
            then v <- lift (py_getitem data "price") ;; ret (negb (validate_price v))
            else ret false) ;;
    if bad then ret (jsonify_error "Invalid price" 400) else
    has_price <- lift (py_in "price" data) ;;
    when has_price (
      price <- price_or_none (py_getitem data "price") ;;
      update_post_row (Post.id post) (fun p => Post.with_price p price)) ;;
    has_sale <- lift (py_in "is_for_sale" data) ;;
    when has_sale (
      v <- lift (py_getitem data "is_for_sale") ;;
      update_post_row (Post.id post) (fun p => Post.with_is_for_sale p (truthy v))) ;;
    db_commit ;;
    ret (jsonify [("success", PBool true)] 200))
    api_error).

(** [POST /api/favorites/<int:post_id>] *)
Definition add_favorite (now : Z) (post_id : Z) : M response :=
  login_required (try_except (
    user <- get_current_user ;;
    post <- or_404 [post_id] (get_post post_id) ;;
    uid <- attr user User.id ;;
    fav <- reads (get_favorite uid post_id) ;;
    match fav with
    | Some _ => ret (jsonify_error "Already favorited" 400)
    | None =>
        uid <- attr user User.id ;;
        _ <- db_add_favorite uid post_id now ;;
        db_commit ;;
        ret (jsonify [("success", PBool true)] 201)
    end)
    api_error).

(** [DELETE /api/favorites/<int:post_id>] *)
Definition remove_favorite (post_id : Z) : M response :=
  login_required (try_except (
    user <- get_current_user ;;
    uid <- attr user User.id ;;
    fav <- or_404 [post_id] (get_favorite uid post_id) ;;
    db_delete_favorite (Favorite.id fav) ;;
    db_commit ;;
    ret (jsonify [("success", PBool true)] 200))
    api_error).

(** [POST /api/reviews/<int:post_id>] *)
Definition create_review (now : Z) (post_id : Z) (data : pyval) : M response :=
  login_required (try_except (
    user <- get_current_user ;;
    r <- lift (py_get data "rating") ;;
    if negb (validate_rating r) then ret (jsonify_error "Rating must be 1-5" 400) else
    rating <- lift (x <~ py_getitem data "rating" ;; py_int x) ;;
    comment <- lift (c <~ py_get_default data "comment" (PStr "") ;; py_slice_to 500 c) ;;
    uid <- attr user User.id ;;
    comment_s <- bind_text comment ;;
    _ <- db_add_review rating comment_s uid post_id now ;;
    db_commit ;;
    ret (jsonify [("success", PBool true)] 201))
    api_error).

(** [POST /api/orders/<int:post_id>] *)
Definition create_order (now : Z) (post_id : Z) : M response :=
  login_required (try_except (
    user <- get_current_user ;;
    post <- or_404 [post_id] (get_post post_id) ;;
    if negb (Post.is_for_sale post) then ret (jsonify_error "Post not for sale" 400) else
    uid <- attr user User.id ;;
    if Post.user_id post =? uid then ret (jsonify_error "Cannot buy own post" 400) else
    oid <- db_add_order uid post_id (Post.price post) now ;;
    db_commit ;;
    ret (jsonify [("success", PBool true); ("order_id", PInt oid)] 201))
    api_error).

(** [POST /api/commissions] *)
Definition create_commission (now : Z) (data : pyval) : M response :=
  login_required (try_except (
    user <- get_current_user ;;
    artist <- attr user User.is_artist ;;
    if negb artist then ret (jsonify_error "Only artists can create commissions" 403) else
    bad <- or_else (missing_field data "title")
             (p <- lift (py_get data "price") ;; ret (negb (validate_price p))) ;;
    if bad then ret (jsonify_error "Title and valid price required" 400) else
    title <- lift (t <~ py_getitem data "title" ;; py_slice_to 200 t) ;;
    description <- lift (d <~ py_get_default data "description" (PStr "") ;;
                         py_slice_to 1000 d) ;;
    price <- lift (p <~ py_getitem data "price" ;; py_float p) ;;
    uid <- attr user User.id ;;
    title_s <- bind_text title ;;
    description_s <- bind_text description ;;
    cid <- db_add_commission title_s description_s price uid now ;;
    db_commit ;;
    ret (jsonify [("success", PBool true); ("commission_id", PInt cid)] 201))
    api_error).

(** [DELETE /api/commissions/<int:commission_id>] *)
Definition delete_commission (commission_id : Z) : M response :=
  login_required (try_except (
    user <- get_current_user ;;
    commission <- or_404 [commission_id] (get_commission commission_id) ;;
    uid <- attr user User.id ;;
    if negb (Commission.artist_id commission =? uid)
    then ret (jsonify_error "Unauthorized" 403) else
    db_delete_commission (Commission.id commission) ;;
    db_commit ;;
    ret (jsonify [("success", PBool true)] 200))
    api_error).

(** ** Routes that hash or look up credentials

    [werkzeug]'s password hashing and the text SQLite gives a REAL value
    are taken as given.  [generate_password_hash] draws a salt, passed here
    as an argument of the request. *)
Section Credentials.

Variable generate_password_hash : string -> string -> string.
Variable check_password_hash : string -> string -> bool.
Variable sqlite_real_text : spec_float -> string.

(** A parameter compared with a text column: sqlite3 binds the Python
    value and SQLite gives it the column's TEXT affinity.  [None] is
    NULL, which equals nothing. *)
Definition sql_text_param (v : pyval) : outcome (option string) :=
  match v with
  | PStr s => Done (Some s)
  | PInt n =>
      if (- 2 ^ 63 <=? n) && (n <? 2 ^ 63)
      then Done (Some (NilZero.string_of_int (Z.to_int n)))
      else Raised OverflowError
  | PBool b => Done (Some (if b then "1" else "0"))
  | PFloat f => Done (Some (sqlite_real_text f))
  | PNone => Done None
  | PList _ | PDict _ => Raised InterfaceError
  end.

(** [User.query.filter_by(username=v).first()] *)
Definition user_by_username (v : pyval) : M (option User.t) :=
  p <- lift (sql_text_param v) ;;
  reads (fun db =>
    match p with
    | Some s => find (fun u => String.eqb (User.username u) s) (users db)
    | None => None
    end).

(** [User.query.filter_by(email=v).first()] *)
Definition user_by_email (v : pyval) : M (option User.t) :=
  p <- lift (sql_text_param v) ;;
  reads (fun db =>
    match p with
    | Some s => find (fun u => String.eqb (User.email u) s) (users db)
    | None => None
    end).

(** The hashing functions encode their [password] argument, which only a
    [str] allows. *)
Definition py_generate_password_hash (salt : string) (password : pyval) : outcome string :=
  match password with
  | PStr p => Done (generate_password_hash salt p)
  | _ => Raised AttributeError
  end.

Definition py_check_password_hash (pwhash : string) (password : pyval) : outcome bool :=
  match password with
  | PStr p => Done (check_password_hash pwhash p)
  | _ => Raised AttributeError
  end.

(** [POST /register] *)
Definition register (salt : string) (data : pyval) : M response :=
  try_except (
    missing <- or_else (missing_field data "username")
                 (or_else (missing_field data "email") (missing_field data "password")) ;;
    if missing then ret (jsonify_error "Missing required fields" 400) else
    n <- lift (u <~ py_getitem data "username" ;; py_len u) ;;
    if (n <? 3) || (80 <? n)
    then ret (jsonify_error "Username must be 3-80 characters" 400) else
    valid <- lift (e <~ py_getitem data "email" ;; validate_email e) ;;
    if negb valid then ret (jsonify_error "Invalid email format" 400) else
    pn <- lift (p <~ py_getitem data "password" ;; py_len p) ;;
    if pn <? 6
    then ret (jsonify_error "Password must be at least 6 characters" 400) else
    username <- lift (py_getitem data "username") ;;
    by_name <- user_by_username username ;;
    match by_name with
    | Some _ => ret (jsonify_error "Username already exists" 400)
    | None =>
        email <- lift (py_getitem data "email") ;;
        by_email <- user_by_email email ;;
        match by_email with
        | Some _ => ret (jsonify_error "Email already registered" 400)
        | None =>
            username <- lift (py_getitem data "username") ;;
            email <- lift (py_getitem data "email") ;;
            pwhash <- lift (p <~ py_getitem data "password" ;;
                            py_generate_password_hash salt p) ;;
            username_s <- bind_text username ;;
            email_s <- bind_text email ;;
            uid <- db_add_user username_s email_s pwhash None false ;;
            db_commit ;;
            set_session uid ;;
            ret (jsonify [("success", PBool true);
                          ("message", PStr "Registration successful")] 201)
        end
    end)
    api_error.

(** [POST /login]; its [except] clause does not roll back. *)
Definition login (data : pyval) : M response :=
  try_except (
    missing <- or_else (missing_field data "username") (missing_field data "password") ;;
    if missing then ret (jsonify_error "Missing username or password" 400) else
    username <- lift (py_getitem data "username") ;;
    user <- user_by_username username ;;
    match user with
    | Some u =>
        ok <- lift (p <~ py_getitem data "password" ;;
                    py_check_password_hash (User.password u) p) ;;
        if ok then
          set_session (User.id u) ;;
          ret (jsonify [("success", PBool true); ("message", PStr "Login successful")] 200)
        else ret (jsonify_error "Invalid credentials" 401)
    | None => ret (jsonify_error "Invalid credentials" 401)
    end)
    (fun e => ret (mkResponse (JsonException e) 500)).

Definition sample_posts (user_id now : Z) : M unit :=
  _ <- db_add_post "Abstract Watercolor Series"
         "Beautiful abstract watercolor painting with flowing colors and organic shapes."
         "https://images.unsplash.com/photo-1561214115-6d2f1b0609fa?w=400&h=300&fit=crop"
         (Some (float_literal 150)) true user_id now ;;
  _ <- db_add_post "Digital Portrait Commission"
         "Custom digital portrait of your favorite characters or people."
         "https://images.unsplash.com/photo-1561070791-2526d30994b5?w=400&h=300&fit=crop"
         (Some (float_literal 75)) true user_id now ;;
  _ <- db_add_post "Landscape Oil Painting"
         "Serene mountain landscape captured in oils. Available for commissioning."
         "https://images.unsplash.com/photo-1561214115-6d2f1b0609fa?w=400&h=300&fit=crop"
         (Some (float_literal 250)) true user_id now ;;
  _ <- db_add_post "Graphic Design Portfolio"
         "Collection of modern graphic design work - logos, branding, and layouts."
         "https://images.unsplash.com/photo-1561070791-2526d30994b5?w=400&h=300&fit=crop"
         None false user_id now ;;
  _ <- db_add_post "Character Illustration"
         "Original character design with detailed costume and expression."
         "https://images.unsplash.com/photo-1561214115-6d2f1b0609fa?w=400&h=300&fit=crop"
         (Some (float_literal 120)) true user_id now ;;
  ret tt.

(** [GET /seed] *)
Definition seed_data (salt : string) (now : Z) : M response :=
  try_except (
    demo_user <- user_by_username (PStr "demo_artist") ;;
    demo_id <- match demo_user with
               | Some u => ret (User.id u)
               | None =>
                   uid <- db_add_user "demo_artist" "demo@example.com"
                            (generate_password_hash salt "password123")
                            (Some "Demo artist showcasing the marketplace") true ;;
                   db_commit ;;
                   ret uid
               end ;;
    count <- reads (fun db => List.length (posts db)) ;;
    when (Nat.eqb count 0) (sample_posts demo_id now ;; db_commit) ;;
    ret (jsonify [("success", PBool true); ("message", PStr "Demo data created")] 200))
    api_error.

(** ** The application *)

(** The routes that touch the session or the store.  The remaining routes
    ([/], [/profile/<username>], [/register-page], [/login-page]) only
    read and render. *)
Inductive request : Type :=
| ReqSearch (args : list (string * string))
| ReqEditProfile (data : pyval)
| ReqRegister (salt : string) (data : pyval)
| ReqLogin (data : pyval)
| ReqLogout
| ReqCreatePost (now : Z) (data : pyval)
| ReqDeletePost (post_id : Z)
| ReqUpdatePost (post_id : Z) (data : pyval)
| ReqAddFavorite (now : Z) (post_id : Z)
| ReqRemoveFavorite (post_id : Z)
| ReqCreateReview (now : Z) (post_id : Z) (data : pyval)
| ReqCreateOrder (now : Z) (post_id : Z)
| ReqCreateCommission (now : Z) (data : pyval)
| ReqDeleteCommission (commission_id : Z)
| ReqSeedData (salt : string) (now : Z).

Definition view (r : request) : M response :=
  match r with
  | ReqSearch args => search args
  | ReqEditProfile data => edit_profile data
  | ReqRegister salt data => register salt data
  | ReqLogin data => login data
  | ReqLogout => logout
  | ReqCreatePost now data => create_post now data
  | ReqDeletePost post_id => delete_post post_id
  | ReqUpdatePost post_id data => update_post post_id data
  | ReqAddFavorite now post_id => add_favorite now post_id
  | ReqRemoveFavorite post_id => remove_favorite post_id
  | ReqCreateReview now post_id data => create_review now post_id data
  | ReqCreateOrder now post_id => create_order now post_id
  | ReqCreateCommission now data => create_commission now data
  | ReqDeleteCommission commission_id => delete_commission commission_id
  | ReqSeedData salt now => seed_data salt now
  end.

End Credentials.

(** One request against the store: the view runs in a fresh session on the
    committed database; when the request ends the session is removed, so
    what was not committed is lost.  An exception no view catches goes to
    the 500 error handler. *)
Definition run (h : M response) (db : DB) (cookie : option Z) : response * DB * option Z :=
  match h (mkEnv db db None cookie) with
  | (Done r, env) => (r, committed env, session env)
  | (Raised _, env) =>
      (render_template "error.html" (ErrorContext "Server error") 500,
       committed env, session env)
  end.

Definition response_of (x : response * DB * option Z) : response := fst (fst x).
Definition store_of (x : response * DB * option Z) : DB := snd (fst x).
Definition cookie_of (x : response * DB * option Z) : option Z := snd x.

(** The stores the application can reach from the empty database, whatever
    session cookie each request carries. *)
Inductive reachable (gen : string -> string -> string) (chk : string -> string -> bool)
    (txt : spec_float -> string) : DB -> Prop :=
| reachable_empty : reachable gen chk txt empty_db
| reachable_step (db : DB) (cookie : option Z) (r : request) :
    reachable gen chk txt db ->
    reachable gen chk txt (store_of (run (view gen chk txt r) db cookie)).

(** ** Requests with typed fields

    The marketplace specification gives the text fields of a request the
    type of the column they fill; [price] and [is_for_sale] stay whatever
    the client sent. *)

Definition field (k : string) (v : option pyval) : list (string * pyval) :=
  match v with
  | Some x => [(k, x)]
  | None => []
  end.

(** The body of a PUT on a post. *)
Record Patch : Type := mkPatch {
  patch_title : option string;
  patch_description : option string;
  patch_price : option pyval;
  patch_is_for_sale : option pyval
}.

Definition patch_data (p : Patch) : pyval :=
  PDict (field "title" (option_map PStr (patch_title p))
         ++ field "description" (option_map PStr (patch_description p))
         ++ field "price" (patch_price p)
         ++ field "is_for_sale" (patch_is_for_sale p)).

(** The patch as [update_post] applies it to a row. *)
Definition apply_patch (p : Patch) (price : option spec_float) (row : Post.t) : Post.t :=
  let row := match patch_title p with
             | Some s => Post.with_title row (str_take 200 s)
             | None => row
             end in
  let row := match patch_description p with
             | Some s => Post.with_description row (str_take 1000 s)
             | None => row
             end in
  let row := match patch_price p with
             | Some _ => Post.with_price row price
             | None => row
             end in
  match patch_is_for_sale p with
  | Some v => Post.with_is_for_sale row (truthy v)
  | None => row
  end.

(** ** Sample data *)

(** A run of requests, each with the cookie it carries. *)
Definition replay gen chk txt (reqs : list (option Z * request)) (db : DB) : DB :=
  fold_left (fun db cr => store_of (run (view gen chk txt (snd cr)) db (fst cr))) reqs db.

(** A hash function with its check, for concrete runs: the unsalted
    [plain] method. *)
Definition plain_hash (salt password : string) : string := ("plain$" ++ password)%string.
Definition plain_check (pwhash password : string) : bool :=
  String.eqb pwhash ("plain$" ++ password)%string.
Definition no_real_text (f : spec_float) : string := "".

Definition alice : User.t := User.mk 1 "alice" "alice@x.com" "plain$secret1" None None true.
Definition bob : User.t := User.mk 2 "bob" "bob@x.com" "plain$hunter22" None None false.
Definition sky : Post.t :=
  Post.mk 1 "Sky" "Clouds at dusk" "http://x/1.png" (Some (float_literal 50)) true 1 0.
Definition sketch : Post.t :=
  Post.mk 2 "Sketch" "" "http://x/2.png" None true 1 0.
Definition portrait : Commission.t :=
  Commission.mk 1 "Portrait" "" (float_literal 75) 1 0.
Definition sample_db : DB := mkDB [alice; bob] [sky; sketch] [portrait] [] [] [].

(** The requests that build [sample_db]. *)
Definition sample_requests : list (option Z * request) :=
  [ (None, ReqRegister "s1"
             (PDict [("username", PStr "alice"); ("email", PStr "alice@x.com");
                     ("password", PStr "secret1")]));
    (None, ReqRegister "s2"
             (PDict [("username", PStr "bob"); ("email", PStr "bob@x.com");
                     ("password", PStr "hunter22")]));
    (Some 1, ReqEditProfile (PDict [("is_artist", PBool true)]));
    (Some 1, ReqCreatePost 0
               (PDict [("title", PStr "Sky"); ("description", PStr "Clouds at dusk");
                       ("image_url", PStr "http://x/1.png"); ("price", PInt 50);
                       ("is_for_sale", PBool true)]));
    (Some 1, ReqCreatePost 0
               (PDict [("title", PStr "Sketch"); ("image_url", PStr "http://x/2.png");
                       ("is_for_sale", PBool true)]));
    (Some 1, ReqCreateCommission 0
               (PDict [("title", PStr "Portrait"); ("price", PStr "75")])) ].

(** ** Invariants of the unit of work

    A property of the environment that survives a rollback and a change of
    the session, and a commit where the handler commits, is kept by every
    step that does not write; for a write it has to be shown of the rows
    written. *)
Class Invariant (I : Env -> Prop) : Prop := {
  inv_rollback : forall env,
    I env -> I (mkEnv (committed env) (committed env) None (session env));
  inv_flags : forall env f s,
    I env -> I (mkEnv (committed env) (pending env) f s)
}.

Class CommitInvariant (I : Env -> Prop) : Prop := {
  inv_commit : forall env,
    I env -> unflushable env = None -> constraints_ok (pending env) = true ->
    I (mkEnv (pending env) (pending env) None (session env))
}.

Definition keeps (I : Env -> Prop) {A} (m : M A) : Prop :=
  forall env, I env -> I (snd (m env)).

Definition write_keeps (I : Env -> Prop) (f : DB -> DB) : Prop :=
  forall env, I env ->
    I (mkEnv (committed env) (f (pending env)) (unflushable env) (session env)).

(** The same property of the committed and of the pending database. *)
Definition both (P : DB -> Prop) (env : Env) : Prop :=
  P (committed env) /\ P (pending env).

(** ** Favorites *)

Definition favorite_key (f : Favorite.t) : Z * Z :=
  (Favorite.user_id f, Favorite.post_id f).

(** At most one favorite row per (user, post). *)
Definition favorites_unique (db : DB) : Prop :=
  NoDup (map favorite_key (favorites db)).

(** ** Orders *)

(** The order [create_order] inserts for a buyer and a post. *)
Definition order_for (db : DB) (buyer : Z) (post : Post.t) (now : Z) : Order.t :=
  Order.mk (next_id (map Order.id (orders db))) buyer (Post.id post) (Post.price post)
    "pending" now.

(** ** Registration *)

(** The row [register] inserts. *)
Definition registered_user (db : DB) (username email pwhash : string) : User.t :=
  User.mk (next_id (map User.id (users db))) username email pwhash None None false.

Definition credentials (username email password : string) : pyval :=
  PDict [("username", PStr username); ("email", PStr email); ("password", PStr password)].

(** ** New posts *)

(** The body of a POST on [/api/posts] with a title and an image. *)
Record NewPost : Type := mkNewPost {
  new_title : string;
  new_description : option string;
  new_image_url : string;
  new_price : option pyval;
  new_is_for_sale : option pyval
}.

Definition new_post_data (n : NewPost) : pyval :=
  PDict ([("title", PStr (new_title n))]
         ++ field "description" (option_map PStr (new_description n))
         ++ [("image_url", PStr (new_image_url n))]
         ++ field "price" (new_price n)
         ++ field "is_for_sale" (new_is_for_sale n)).

(** The row [create_post] inserts for it when it takes no price. *)
Definition unpriced_post (db : DB) (n : NewPost) (owner now : Z) : Post.t :=
  Post.mk (next_id (map Post.id (posts db)))
    (new_title n)
    (str_take 1000 (match new_description n with Some s => s | None => "" end))
    (str_take 500 (new_image_url n))
    None
    (match new_is_for_sale n with Some v => truthy v | None => false end)
    owner now.

(** A price field that [create_post] reads as no price. *)
Definition no_price (price : option pyval) : Prop :=
  match price with
  | Some v => truthy v = false
  | None => True
  end.

(** ** Prices of stored posts *)

(** Every post of [db] is a post of [db0] whose price is what it was or a
    float in the valid range. *)
Definition price_safe (db0 db : DB) : Prop :=
  forall q post',
    get_post q db = Some post' ->
    exists post,
      get_post q db0 = Some post
      /\ (Post.price post' = Post.price post
          \/ exists f, Post.price post' = Some f /\ price_in_range f = true).

(** A handler that leaves the committed database as it found it unless it
    answers [r]. *)
Definition all_or_nothing (db0 : DB) (r : response) (m : M response) : Prop :=
  forall env,
    committed env = db0 ->
    committed (snd (m env)) = db0 \/ fst (m env) = Done r.

(** ** Search *)

(** [s] contains [q] as a substring, letters compared without regard to
    case. *)
Definition contains_ci (q s : list ascii) : Prop :=
  exists pre mid post,
    s = pre ++ mid ++ post /\ map lower_char mid = map lower_char q.

(** No character of the query is a LIKE wildcard. *)
Definition wildcard_free (q : list ascii) : bool :=
  forallb (fun c => negb (Ascii.eqb c "%") && negb (Ascii.eqb c "_")) q.

(** The posts a query is meant to find. *)
Definition post_contains (q : list ascii) (p : Post.t) : Prop :=
  contains_ci q (chars (Post.title p)) \/ contains_ci q (chars (Post.description p)).

(** No character of the query is a NUL. *)
Definition nul_free (q : list ascii) : bool :=
  forallb (fun c => negb (Ascii.eqb c "000")) q.

(** The posts a query can find: LIKE reads a title and a description up
    to their first NUL. *)
Definition post_shows (q : list ascii) (p : Post.t) : Prop :=
  contains_ci q (until_nul (chars (Post.title p)))
  \/ contains_ci q (until_nul (chars (Post.description p))).

(** ** Symbolic execution of a handler

    [wp m Q env]: running [m] from [env] ends in an outcome and an
    environment that satisfy [Q]. *)
Definition wp {A} (m : M A) (Q : outcome A -> Env -> Prop) (env : Env) : Prop :=
  Q (fst (m env)) (snd (m env)).

(** What [run] makes of the outcome of a view. *)
Definition finish (o : outcome response) (env : Env) : response * DB * option Z :=
  match o with
  | Done r => (r, committed env, session env)
  | Raised _ =>
      (render_template "error.html" (ErrorContext "Server error") 500,
       committed env, session env)
  end.

(** The routes behind [login_required]. *)
Definition protected (r : request) : bool :=
  match r with
  | ReqEditProfile _ | ReqCreatePost _ _ | ReqDeletePost _ | ReqUpdatePost _ _
  | ReqAddFavorite _ _ | ReqRemoveFavorite _ | ReqCreateReview _ _ _
  | ReqCreateOrder _ _ | ReqCreateCommission _ _ | ReqDeleteCommission _ => true
  | _ => false
  end.

(** A handler that leaves the [user_id] entry of the session as it is. *)
Definition session_kept {A} (m : M A) : Prop :=
  forall env, session (snd (m env)) = session env.

(** ** Typed bodies of the remaining API routes *)

(** The body of a POST on [/api/profile/edit]. *)
Record ProfileEdit : Type := mkProfileEdit {
  edit_bio : option string;
  edit_avatar_url : option string;
  edit_is_artist : option pyval
}.

Definition profile_data (e : ProfileEdit) : pyval :=
  PDict (field "bio" (option_map PStr (edit_bio e))
         ++ field "avatar_url" (option_map PStr (edit_avatar_url e))
         ++ field "is_artist" (edit_is_artist e)).

(** The edit as [edit_profile] applies it to a row. *)
Definition apply_edit (e : ProfileEdit) (row : User.t) : User.t :=
  let row := match edit_bio e with
             | Some s => User.with_bio row (Some (str_take 500 s))
             | None => row
             end in
  let row := match edit_avatar_url e with
             | Some s => User.with_avatar_url row (Some (str_take 500 s))
             | None => row
             end in
  match edit_is_artist e with
  | Some v => User.with_is_artist row (truthy v)
  | None => row
  end.

(** The price [create_post] stores for a price field. *)
Definition stored_price (price : option pyval) : option spec_float :=
  match price with
  | Some v =>
      if truthy v
      then match py_float v with Done f => Some f | Raised _ => None end
      else None
  | None => None
  end.

(** The row [create_post] inserts. *)
Definition new_post_row (db : DB) (n : NewPost) (owner now : Z) : Post.t :=
  Post.with_price (unpriced_post db n owner now) (stored_price (new_price n)).

(** A price field [create_post] lets through: absent, falsy, or valid. *)
Definition price_accepted (price : option pyval) : Prop :=
  match price with
  | Some v => truthy v = true -> validate_price v = true
  | None => True
  end.

(** The body of a POST on [/api/reviews/<post_id>]. *)
Record NewReview : Type := mkNewReview {
  review_rating : pyval;
  review_comment : option string
}.

Definition review_data (n : NewReview) : pyval :=
  PDict ([("rating", review_rating n)]
         ++ field "comment" (option_map PStr (review_comment n))).

(** The body of a POST on [/api/commissions]. *)
Record NewCommission : Type := mkNewCommission {
  commission_title : string;
  commission_description : option string;
  commission_price : pyval
}.

Definition commission_data (n : NewCommission) : pyval :=
  PDict ([("title", PStr (commission_title n))]
         ++ field "description" (option_map PStr (commission_description n))
         ++ [("price", commission_price n)]).

(** ** Demo data *)

(** The five demo posts as [seed_data] adds them to a store without posts,
    for user [user_id]. *)
Definition seed_rows (user_id now : Z) : list Post.t :=
  posts (pending (snd (sample_posts user_id now (mkEnv empty_db empty_db None None)))).

(** Two post rows that differ at most in their id. *)
Definition same_content (a b : Post.t) : Prop :=
  Post.title a = Post.title b
  /\ Post.description a = Post.description b
  /\ Post.image_url a = Post.image_url b
  /\ Post.price a = Post.price b
  /\ Post.is_for_sale a = Post.is_for_sale b
  /\ Post.user_id a = Post.user_id b
  /\ Post.created_at a = Post.created_at b.

(** ** What requests keep *)

(** Two user rows with the same id, username, email and password. *)
Definition same_account (a b : User.t) : Prop :=
  User.id a = User.id b
  /\ User.username a = User.username b
  /\ User.email a = User.email b
  /\ User.password a = User.password b.

(** [db] holds every order and review of [db0], in their places, and an
    account for every account of [db0]. *)
Definition records_kept (db0 db : DB) : Prop :=
  (exists l, orders db = orders db0 ++ l)
  /\ (exists l, reviews db = reviews db0 ++ l)
  /\ (forall u, In u (users db0) -> exists u', In u' (users db) /\ same_account u u').

(** ** Stored values *)

(** A price in the range [validate_price] accepts, or none. *)
Definition price_ok (p : option spec_float) : Prop :=
  match p with
  | Some f => price_in_range f = true
  | None => True
  end.

Definition prices_valid (db : DB) : Prop :=
  (forall p, In p (posts db) -> price_ok (Post.price p))
  /\ (forall c, In c (commissions db) -> price_in_range (Commission.price c) = true)
  /\ (forall o, In o (orders db) -> price_ok (Order.price o)).

Definition ratings_valid (db : DB) : Prop :=
  forall r, In r (reviews db) ->
    1 <= Review.rating r <= 5 /\ str_len (Review.comment r) <= 500.

Definition accounts_valid (db : DB) : Prop :=
  forall u, In u (users db) ->
    3 <= str_len (User.username u) <= 80
    /\ validate_email (PStr (User.email u)) = Done true.

(** The sample store after bob reviews "Sky". *)
Definition review_requests : list (option Z * request) :=
  sample_requests
  ++ [(Some 2, ReqCreateReview 5 1 (PDict [("rating", PStr "4"); ("comment", PStr "Lovely")]))].

Definition reviewed_db : DB :=
  replay plain_hash plain_check no_real_text review_requests empty_db.

(** ** The language of the email pattern *)

(** The strings a regular expression matches. *)
Inductive matches : regex -> list ascii -> Prop :=
| matches_eps : matches Eps []
| matches_chr (p : ascii -> bool) (c : ascii) : p c = true -> matches (Chr p) [c]
| matches_seq (r1 r2 : regex) (s1 s2 : list ascii) :
    matches r1 s1 -> matches r2 s2 -> matches (Seq r1 r2) (s1 ++ s2)
| matches_alt_l (r1 r2 : regex) (s : list ascii) : matches r1 s -> matches (Alt r1 r2) s
| matches_alt_r (r1 r2 : regex) (s : list ascii) : matches r2 s -> matches (Alt r1 r2) s
| matches_star_nil (r : regex) : matches (Star r) []
| matches_star_cons (r : regex) (s1 s2 : list ascii) :
    matches r s1 -> matches (Star r) s2 -> matches (Star r) (s1 ++ s2).

(** What the pattern of [validate_email] describes: a local part, [@], a
    domain, a dot and at least two letters, with a newline allowed at the
    very end. *)
Definition email_shape (s : list ascii) : Prop :=
  exists local domain tld tail,
    s = local ++ "@"%char :: domain ++ "."%char :: tld ++ tail
    /\ local <> [] /\ forallb local_char local = true
    /\ domain <> [] /\ forallb domain_char domain = true
    /\ (2 <= List.length tld)%nat /\ forallb is_alpha tld = true
    /\ (tail = [] \/ tail = ["010"%char]).

(** [User.query.filter_by(username='demo_artist').first()] *)
Definition demo_user (db : DB) : option User.t :=
  find (fun u => String.eqb (User.username u) "demo_artist") (users db).

(** Whether the demo account can be inserted: the constraints of the
    store with a row of that username and email added. *)
Definition demo_fits (db : DB) : bool :=
  constraints_ok
    (with_users db (users db ++ [User.mk 0 "demo_artist" "demo@example.com" "" None None true])).

(** The answer of [seed_data] when nothing fails. *)
Definition seed_ok : response :=
  jsonify [("success", PBool true); ("message", PStr "Demo data created")] 200.

(** ** Pages

    The routes that render a page from the store: [/], [/profile/<username>]
    and the two form pages.  They answer with a template and the values
    handed to it. *)
Inductive page_context : Type :=
| HomepageContext (posts : Pagination) (sort : string)
| ProfileContext (user : User.t) (posts : Pagination) (commissions : list Commission.t)
| PageError (error : string)
| NoContext.

Record html_page : Type := mkPage {
  template : string;
  values : page_context;
  page_status : Z
}.

(** [try: ... except Exception as e: ...] in a page route. *)
Definition try_page (body : M html_page) (handler : exn -> M html_page) : M html_page :=
  fun env =>
    match body env with
    | (Done r, env') => (Done r, env')
    | (Raised e, env') => handler e env'
    end.

(** [request.args.get(k, default)] *)
Definition args_get_or (args : list (string * string)) (k default : string) : string :=
  match find (fun kv => String.eqb (fst kv) k) args with
  | Some (_, v) => v
  | None => default
  end.

(** [Post.price.isnot(None)] *)
Definition has_price (p : Post.t) : bool :=
  match Post.price p with
  | Some _ => true
  | None => false
  end.

(** The order of two REAL values, NULL first. *)
Definition real_leb (a b : option spec_float) : bool :=
  match a, b with
  | None, _ => true
  | Some _, None => false
  | Some x, Some y =>
      match SFcompare x y with
      | Some Lt | Some Eq => true
      | _ => false
      end
  end.

(** [Post.price.asc()], [Post.price.desc()] and [Post.created_at.desc()] *)
Definition price_asc (a b : Post.t) : bool := real_leb (Post.price a) (Post.price b).
Definition price_desc (a b : Post.t) : bool := real_leb (Post.price b) (Post.price a).
Definition created_at_desc (a b : Post.t) : bool := Post.created_at b <=? Post.created_at a.

Section Ordering.

(** [query.order_by(...)]: the rows as the database returns them for an
    ordering; which of two rows that compare equal comes first is the
    database's choice. *)
Variable order_by : (Post.t -> Post.t -> bool) -> list Post.t -> list Post.t.

(** [GET /] *)
Definition homepage (args : list (string * string)) : M html_page :=
  try_page (
    let page := args_get_int args "page" 1 in
    let sort := args_get_or args "sort" "recent" in
    rows <- reads (fun db =>
      if String.eqb sort "price_low"
      then order_by price_asc (filter has_price (posts db))
      else if String.eqb sort "price_high"
      then order_by price_desc (filter has_price (posts db))
      else order_by created_at_desc (posts db)) ;;
    posts <- paginate rows page 12 ;;
    ret (mkPage "homepage.html" (HomepageContext posts sort) 200))
    (fun _ => ret (mkPage "error.html" (PageError "Error loading posts") 500)).

End Ordering.

(** [GET /profile/<username>] *)
Definition profile (username : string) (args : list (string * string)) : M html_page :=
  try_page (
    user <- or_404 [] (fun db =>
      find (fun u => String.eqb (User.username u) username) (users db)) ;;
    let page := args_get_int args "page" 1 in
    rows <- reads (fun db => filter (fun p => Post.user_id p =? User.id user) (posts db)) ;;
    posts <- paginate rows page 10 ;;
    commissions <-
      (if User.is_artist user
       then reads (fun db =>
              filter (fun c => Commission.artist_id c =? User.id user) (commissions db))
       else ret []) ;;
    ret (mkPage "profile.html" (ProfileContext user posts commissions) 200))
    (fun _ => ret (mkPage "error.html" (PageError "User not found") 404)).

(** [GET /register-page] and [GET /login-page] *)
Definition register_page : M html_page := ret (mkPage "register.html" NoContext 200).
Definition login_page : M html_page := ret (mkPage "login.html" NoContext 200).

(** One page request against the store; an exception the route lets
    through goes to the 500 error handler. *)
Definition run_page (h : M html_page) (db : DB) (cookie : option Z) : html_page * DB * option Z :=
  match h (mkEnv db db None cookie) with
  | (Done r, env) => (r, committed env, session env)
  | (Raised _, env) =>
      (mkPage "error.html" (PageError "Server error") 500, committed env, session env)
  end.

(** The rows a page of [per_page] holds. *)
Definition page_rows (rows : list Post.t) (page per_page : Z) : list Post.t :=
  firstn (Z.to_nat per_page) (skipn (Z.to_nat ((page - 1) * per_page)) rows).

(** An ordering for concrete runs: insertion sort. *)
Fixpoint insert_row (le : Post.t -> Post.t -> bool) (x : Post.t) (l : list Post.t)
    : list Post.t :=
  match l with
  | [] => [x]
  | y :: l' => if le x y then x :: l else y :: insert_row le x l'
  end.

Definition sort_rows (le : Post.t -> Post.t -> bool) (l : list Post.t) : list Post.t :=
  fold_right (insert_row le) [] l.

(** ** Rows and the accounts they name *)

Definition account_exists (db : DB) (uid : Z) : Prop :=
  exists u, In u (users db) /\ User.id u = uid.

(** Every row that names a user names an account of the store. *)
Definition owners_exist (db : DB) : Prop :=
  (forall p, In p (posts db) -> account_exists db (Post.user_id p))
  /\ (forall c, In c (commissions db) -> account_exists db (Commission.artist_id c))
  /\ (forall r, In r (reviews db) -> account_exists db (Review.user_id r))
  /\ (forall f, In f (favorites db) -> account_exists db (Favorite.user_id f))
  /\ (forall o, In o (orders db) -> account_exists db (Order.buyer_id o)).

(** ** Stored text *)

Definition short (n : Z) (s : option string) : Prop :=
  match s with
  | Some x => str_len x <= n
  | None => True
  end.

(** The lengths the handlers cut or check text to. *)
Definition text_bounded (db : DB) : Prop :=
  (forall p, In p (posts db) ->
     str_len (Post.title p) <= 200
     /\ str_len (Post.description p) <= 1000
     /\ str_len (Post.image_url p) <= 500)
  /\ (forall c, In c (commissions db) ->
       str_len (Commission.title c) <= 200 /\ str_len (Commission.description c) <= 1000)
  /\ (forall u, In u (users db) -> short 500 (User.bio u) /\ short 500 (User.avatar_url u)).

(** ** Sessions in circulation

    The session cookie is signed, so a client can only send a cookie the
    application gave out: the empty one, or what an earlier answer set.
    [issued db cookies]: the store [db] and the cookies given out so far,
    after any run of requests that each carry one of them. *)
Inductive issued (gen : string -> string -> string) (chk : string -> string -> bool)
    (txt : spec_float -> string) : DB -> list (option Z) -> Prop :=
| issued_start : issued gen chk txt empty_db [None]
| issued_step (db : DB) (cookies : list (option Z)) (cookie : option Z) (r : request) :
    issued gen chk txt db cookies ->
    In cookie cookies ->
    issued gen chk txt
      (store_of (run (view gen chk txt r) db cookie))
      (cookie_of (run (view gen chk txt r) db cookie) :: cookies).

(** * Properties *)

(** ** Facts about the numeric layer *)

Lemma digits2_pos_size (p : positive) : digits2_pos p = Pos.size p.
Proof. induction p; simpl; congruence. Qed.

Lemma digits2_pos_log2 (p : positive) :
  Zpos (digits2_pos p) = Z.log2 (Zpos p) + 1.
Proof. rewrite digits2_pos_size. destruct p; simpl; lia. Qed.

Lemma Zpos_iter_xO (p k : positive) :
  Zpos (Pos.iter xO p k) = Zpos p * 2 ^ Zpos k.
Proof.
  rewrite (Pos.iter_swap_gen _ _ Zpos xO (Z.mul 2)) by reflexivity.
  change (Pos.iter (Z.mul 2) (Zpos p) k) with (Z.shiftl (Zpos p) (Zpos k)).
  apply Z.shiftl_mul_pow2. lia.
Qed.

Lemma fexp_normal (d : Z) : -1021 <= d -> fexp prec emax d = d - 53.
Proof. intros H. unfold fexp, emin, prec, emax. lia. Qed.

(** A mantissa that already has its canonical exponent is left alone by the
    rounding step. *)
Lemma binary_round_aux_canonical (s : bool) (m : positive) (e : Z) :
  fexp prec emax (Zpos (digits2_pos m) + e) = e -> e <= 971 ->
  binary_round_aux prec emax s (Zpos m) e loc_Exact = S754_finite s m e.
Proof.
  intros Hc He. unfold binary_round_aux, shr_fexp. simpl Zdigits2.
  rewrite Hc, Z.sub_diag.
  cbn [shr shr_record_of_loc shr_m shr_r shr_s loc_of_shr_record round_nearest_even Zdigits2].
  rewrite Hc, Z.sub_diag.
  cbn [shr shr_record_of_loc shr_m].
  replace (e <=? emax - prec) with true; [reflexivity|].
  symmetry. apply Z.leb_le. unfold emax, prec. lia.
Qed.

(** Integers of at most 53 bits convert exactly. *)
Lemma binary_round_exact (s : bool) (p : positive) :
  Zpos p < 2 ^ 53 ->
  exists m e, binary_round prec emax s p 0 = S754_finite s m e
              /\ e <= 0 /\ Zpos m = Zpos p * 2 ^ (- e).
Proof.
  intros Hp.
  assert (Hd : 1 <= Zpos (digits2_pos p) <= 53).
  { rewrite digits2_pos_log2. pose proof (Z.log2_nonneg (Zpos p)).
    assert (Z.log2 (Zpos p) < 53) by (apply Z.log2_lt_pow2; lia). lia. }
  unfold binary_round, shl_align.
  rewrite Z.add_0_r, fexp_normal by lia.
  destruct (Zpos (digits2_pos p) - 53 - 0) as [|k|k] eqn:Hk; try lia.
  - exists p, 0. split; [|split; [lia|simpl; lia]].
    apply binary_round_aux_canonical; [|lia].
    rewrite Z.add_0_r, fexp_normal by lia. lia.
  - exists (Pos.iter xO p k), (Zpos (digits2_pos p) - 53).
    split; [|split; [lia|]].
    + apply binary_round_aux_canonical; [|lia].
      rewrite fexp_normal.
      * rewrite digits2_pos_log2, Zpos_iter_xO, Z.log2_mul_pow2 by lia.
        rewrite digits2_pos_log2 in Hk |- *. lia.
      * pose proof (Pos2Z.is_pos (digits2_pos (Pos.iter xO p k))). lia.
    + rewrite Zpos_iter_xO. f_equal. f_equal. lia.
Qed.

Lemma float_cmp_int_exact (s : bool) (m p : positive) (e n : Z) :
  e <= 0 -> Zpos m = Zpos p * 2 ^ (- e) ->
  float_cmp_int (S754_finite s m e) n = Some (cond_Zopp s (Zpos p) ?= n).
Proof.
  intros He Hm. unfold float_cmp_int. f_equal.
  assert (H2 : 0 < 2 ^ (- e)) by (apply Z.pow_pos_nonneg; lia).
  destruct (Z.leb_spec 0 e).
  - assert (e = 0) by lia. subst e. simpl in Hm.
    rewrite Z.pow_0_r, Z.mul_1_r. f_equal. destruct s; simpl; lia.
  - replace (cond_Zopp s (Zpos m)) with (cond_Zopp s (Zpos p) * 2 ^ (- e))
      by (destruct s; unfold cond_Zopp; rewrite Hm; ring).
    symmetry. apply Zmult_compare_compat_r. lia.
Qed.

Lemma shr_m_shr_1 (mrs : shr_record) :
  0 <= shr_m mrs -> shr_m (shr_1 mrs) = shr_m mrs / 2.
Proof.
  destruct mrs as [m r s]. cbn [shr_m]. intros Hm.
  destruct m as [|[q|q|]|q]; cbn [shr_1 shr_m]; try lia;
    try reflexivity.
  - apply Z.div_unique with (r := 1); lia.
  - apply Z.div_unique with (r := 0); lia.
Qed.

Lemma shr_m_iter_pos (k : positive) (mrs : shr_record) :
  0 <= shr_m mrs ->
  shr_m (iter_pos shr_1 k mrs) = shr_m mrs / 2 ^ Zpos k.
Proof.
  revert mrs.
  induction k as [k IH|k IH|]; intros mrs Hm; cbn [iter_pos].
  - assert (H1 : 0 <= shr_m (shr_1 mrs)) by (rewrite shr_m_shr_1 by lia; apply Z.div_pos; lia).
    assert (H2 : 0 <= shr_m (iter_pos shr_1 k (shr_1 mrs)))
      by (rewrite IH by lia; apply Z.div_pos; [lia | apply Z.pow_pos_nonneg; lia]).
    rewrite IH, IH, shr_m_shr_1 by lia.
    assert (Hp : 0 < 2 ^ Zpos k) by (apply Z.pow_pos_nonneg; lia).
    rewrite !Z.div_div by lia. f_equal.
    replace (Zpos k~1) with (1 + Zpos k + Zpos k) by lia.
    rewrite !Z.pow_add_r by lia. change (2 ^ 1) with 2. lia.
  - assert (H2 : 0 <= shr_m (iter_pos shr_1 k mrs))
      by (rewrite IH by lia; apply Z.div_pos; [lia | apply Z.pow_pos_nonneg; lia]).
    rewrite IH, IH by lia.
    assert (Hp : 0 < 2 ^ Zpos k) by (apply Z.pow_pos_nonneg; lia).
    rewrite !Z.div_div by lia. f_equal.
    replace (Zpos k~0) with (Zpos k + Zpos k) by lia.
    rewrite !Z.pow_add_r by lia. lia.
  - rewrite shr_m_shr_1 by lia. reflexivity.
Qed.

Lemma round_nearest_even_bounds (m : Z) (l : location) :
  m <= round_nearest_even m l <= m + 1.
Proof. destruct l as [|[]]; cbn; try destruct (Z.even m); lia. Qed.

Lemma binary_round_large (s : bool) (p : positive) :
  2 ^ 53 <= Zpos p -> big_float s (binary_round prec emax s p 0).
Proof.
  intros Hp.
  assert (Hl : 53 <= Z.log2 (Zpos p)) by (apply Z.log2_le_pow2; lia).
  pose proof (Z.log2_spec (Zpos p) ltac:(lia)) as Hspec.
  set (k := Z.log2 (Zpos p) - 52) in *.
  unfold binary_round, shl_align.
  rewrite Z.add_0_r, fexp_normal by (rewrite digits2_pos_log2; lia).
  rewrite digits2_pos_log2.
  destruct (Z.log2 (Zpos p) + 1 - 53 - 0) as [|kp|kp] eqn:Hk; try lia.
  unfold binary_round_aux, shr_fexp at 1.
  cbn [shr_record_of_loc Zdigits2].
  rewrite Z.add_0_r, fexp_normal by (rewrite digits2_pos_log2; lia).
  rewrite digits2_pos_log2, Z.sub_0_r.
  replace (Z.log2 (Zpos p) + 1 - 53) with (Zpos kp) by lia.
  cbn [shr].
  set (mrs := iter_pos shr_1 kp _).
  assert (Hm1 : shr_m mrs = Zpos p / 2 ^ Zpos kp)
    by (unfold mrs; rewrite shr_m_iter_pos; cbn [shr_m]; [reflexivity|lia]).
  assert (Hp2 : 0 < 2 ^ Zpos kp) by (apply Z.pow_pos_nonneg; lia).
  assert (Hm1b : 2 ^ 52 <= shr_m mrs < 2 ^ 53).
  { rewrite Hm1. split.
    - apply Z.div_le_lower_bound; [lia|].
      rewrite Z.mul_comm, <- Z.pow_add_r by lia.
      replace (52 + Zpos kp) with (Z.log2 (Zpos p)) by lia. lia.
    - apply Z.div_lt_upper_bound; [lia|].
      rewrite <- Z.pow_add_r by lia.
      replace (Zpos kp + 53) with (Z.succ (Z.log2 (Zpos p))) by lia. lia. }
  pose proof (round_nearest_even_bounds (shr_m mrs) (loc_of_shr_record mrs)) as Hr.
  set (m2 := round_nearest_even _ _) in *.
  destruct m2 as [|q|q] eqn:Hm2; try lia.
  unfold shr_fexp. cbn [Zdigits2 shr_record_of_loc].
  rewrite fexp_normal by (rewrite digits2_pos_log2; pose proof (Z.log2_nonneg (Zpos q)); lia).
  rewrite digits2_pos_log2.
  assert (Hq : Z.log2 (Zpos q) = 52 \/ Zpos q = 2 ^ 53).
  { destruct (Z.eq_dec (Zpos q) (2 ^ 53)) as [->|Hne]; [now right|left].
    apply Z.log2_unique; lia. }
  destruct Hq as [Hq|Hq].
  - rewrite Hq.
    replace (52 + 1 + (0 + Zpos kp) - 53 - (0 + Zpos kp)) with 0 by lia.
    cbn [shr shr_m].
    destruct (0 + Zpos kp <=? emax - prec); [right|now left].
    exists q, (0 + Zpos kp). repeat split; lia.
  - rewrite Hq. rewrite Z.log2_pow2 by lia.
    replace (53 + 1 + (0 + Zpos kp) - 53 - (0 + Zpos kp)) with 1 by lia.
    cbn [shr iter_pos].
    assert (Hs : shr_m (shr_1 {| shr_m := 2 ^ 53; shr_r := false; shr_s := false |}) = 2 ^ 52)
      by reflexivity.
    rewrite Hs. change (2 ^ 52) with (Zpos (2 ^ 52)%positive).
    destruct (0 + Zpos kp + 1 <=? emax - prec); [right|now left].
    exists (2 ^ 52)%positive, (0 + Zpos kp + 1). repeat split; lia.
Qed.

Lemma float_cmp_int_big (s : bool) (f : spec_float) (n : Z) :
  big_float s f -> Z.abs n < 2 ^ 52 ->
  float_cmp_int f n = Some (if s then Lt else Gt).
Proof.
  intros [->|(m & e & -> & He & Hm)] Hn; [reflexivity|].
  unfold float_cmp_int. replace (0 <=? e) with true by (symmetry; apply Z.leb_le; lia).
  f_equal.
  assert (H2 : 2 <= 2 ^ e).
  { change 2 with (2 ^ 1) at 1. apply Z.pow_le_mono_r; lia. }
  destruct s; cbn [cond_Zopp]; [apply Z.compare_lt_iff | apply Z.compare_gt_iff]; nia.
Qed.

Lemma binary_round_aux_sign (s : bool) (m e : Z) (l : location) :
  match binary_round_aux prec emax s m e l with
  | S754_zero s' | S754_infinity s' | S754_finite s' _ _ => s' = s
  | S754_nan => True
  end.
Proof.
  unfold binary_round_aux.
  destruct (shr_fexp prec emax m e l) as [mrs' e'].
  destruct (shr_fexp prec emax _ e' loc_Exact) as [mrs'' e''].
  destruct (shr_m mrs''); [reflexivity| |exact I].
  destruct (e'' <=? emax - prec); reflexivity.
Qed.

(** [float(n)] of a positive [int] compares with a small [int] as [n]
    itself does, unless it overflows. *)
Lemma float_of_int_pos_cmp (s : bool) (p : positive) (n : Z) :
  Z.abs n < 2 ^ 52 ->
  match binary_round prec emax s p 0 with
  | S754_infinity _ => 2 ^ 53 <= Zpos p
  | f => float_cmp_int f n = Some (cond_Zopp s (Zpos p) ?= n)
  end.
Proof.
  intros Hn. destruct (Z.lt_ge_cases (Zpos p) (2 ^ 53)) as [Hp|Hp].
  - destruct (binary_round_exact s p Hp) as (m & e & -> & He & Hm).
    now apply float_cmp_int_exact.
  - pose proof (binary_round_large s p Hp) as Hbig.
    pose proof (float_cmp_int_big s _ n Hbig Hn) as Hc.
    destruct Hbig as [Hb|(m & e & Hb & _ & _)]; rewrite Hb in *; [exact Hp|].
    rewrite Hc. f_equal. symmetry.
    destruct s; cbn [cond_Zopp]; [apply Z.compare_lt_iff | apply Z.compare_gt_iff]; lia.
Qed.

Lemma validate_price_int (n : Z) :
  validate_price (PInt n) = true <-> 0 < n <= 999999.
Proof.
  unfold validate_price, price_in_range, py_float, float_of_int, binary_normalize.
  destruct n as [|p|p].
  - cbn. split; [discriminate|lia].
  - pose proof (float_of_int_pos_cmp false p 0 ltac:(cbn; lia)) as H0.
    pose proof (float_of_int_pos_cmp false p 999999 ltac:(cbn; lia)) as H1.
    unfold int_lt_float, float_le_int.
    destruct (binary_round prec emax false p 0) eqn:Hb;
      try (rewrite H0, H1; cbn [cond_Zopp];
           destruct (Z.compare_spec (Zpos p) 999999); cbn; split;
           intros; try discriminate; try reflexivity; lia).
    split; [discriminate|lia].
  - pose proof (float_of_int_pos_cmp true p 0 ltac:(cbn; lia)) as H0.
    unfold int_lt_float, float_le_int.
    destruct (binary_round prec emax true p 0) eqn:Hb;
      try (rewrite H0; cbn; split; intros; try discriminate; lia).
    split; [discriminate|lia].
Qed.

Lemma validate_rating_int (n : Z) :
  validate_rating (PInt n) = true <-> 1 <= n <= 5.
Proof. unfold validate_rating. cbn. lia. Qed.

(** A value that validates as a price is truthy. *)
Lemma float_of_str_nonempty (s : string) (f : spec_float) :
  float_of_str s = Done f -> s <> "".
Proof. intros H ->. discriminate H. Qed.

Lemma validate_price_truthy (v : pyval) :
  validate_price v = true -> truthy v = true.
Proof.
  destruct v as [|b|n|f|s|l|d]; try discriminate.
  - destruct b; [reflexivity|discriminate].
  - intros H. apply validate_price_int in H. cbn.
    destruct (Z.eqb_spec n 0); [lia|reflexivity].
  - destruct f as [z| | |]; try reflexivity.
    unfold validate_price, price_in_range, py_float, int_lt_float, float_cmp_int.
    cbn. discriminate.
  - unfold validate_price, py_float. destruct (float_of_str s) eqn:Hs; [|discriminate].
    intros _. apply float_of_str_nonempty in Hs. cbn.
    destruct (String.eqb_spec s ""); [contradiction|reflexivity].
Qed.

Lemma validate_price_float (v : pyval) :
  validate_price v = true <->
  exists p, py_float v = Done p /\ price_in_range p = true.
Proof.
  unfold validate_price. destruct (py_float v) as [p|e]; split.
  - intros H. now exists p.
  - intros (p' & [= <-] & H). exact H.
  - discriminate.
  - intros (p' & [=] & _).
Qed.

(** ** Numerals *)

Lemma drop_while_split (sp : ascii -> bool) (l : list ascii) :
  exists pre, l = pre ++ drop_while sp l /\ forallb sp pre = true.
Proof.
  induction l as [|c l (pre & Hl & Hp)]; [now exists []|].
  cbn [drop_while]. destruct (sp c) eqn:Hc.
  - exists (c :: pre). cbn. rewrite Hc, Hp. split; [congruence|reflexivity].
  - now exists [].
Qed.

Lemma forallb_rev (sp : ascii -> bool) (l : list ascii) :
  forallb sp l = true -> forallb sp (rev l) = true.
Proof.
  rewrite !forallb_forall. intros H x Hx. apply H. now apply in_rev.
Qed.

Lemma strip_by_split (sp : ascii -> bool) (l : list ascii) :
  exists pre post,
    l = pre ++ strip_by sp l ++ post
    /\ forallb sp pre = true /\ forallb sp post = true.
Proof.
  unfold strip_by.
  destruct (drop_while_split sp l) as (pre & Hl & Hpre).
  destruct (drop_while_split sp (rev (drop_while sp l))) as (post & Hr & Hpost).
  exists pre, (rev post). repeat split; [|exact Hpre|now apply forallb_rev].
  rewrite <- rev_app_distr, <- Hr, rev_involutive. exact Hl.
Qed.

Lemma drop_while_all (sp : ascii -> bool) (pre l : list ascii) :
  forallb sp pre = true -> drop_while sp (pre ++ l) = drop_while sp l.
Proof.
  induction pre as [|c pre IH]; [reflexivity|]. cbn. intros H.
  apply andb_prop in H. destruct H as [Hc H]. rewrite Hc. now apply IH.
Qed.

(** Stripping leaves a text alone that neither starts nor ends with white
    space. *)
Lemma strip_by_inner (sp : ascii -> bool) (pre post t0 t1 : list ascii) (a z : ascii) :
  forallb sp pre = true -> forallb sp post = true ->
  a :: t0 = t1 ++ [z] -> sp a = false -> sp z = false ->
  strip_by sp (pre ++ (a :: t0) ++ post) = a :: t0.
Proof.
  intros Hpre Hpost Ht Ha Hz. unfold strip_by.
  rewrite drop_while_all by exact Hpre. cbn [app drop_while]. rewrite Ha.
  change (a :: t0 ++ post) with ((a :: t0) ++ post).
  rewrite rev_app_distr, drop_while_all by now apply forallb_rev.
  rewrite Ht, rev_app_distr. cbn [rev app drop_while]. rewrite Hz.
  change (z :: rev t1) with ([z] ++ rev t1).
  now rewrite rev_app_distr, rev_involutive.
Qed.

(** *** Underscores *)

Lemma not_under_digit (c : ascii) : is_digit c = true -> Ascii.eqb c "_" = false.
Proof. destruct c as [[] [] [] [] [] [] [] []]; cbn; congruence. Qed.

Lemma underscores_ok_nil (prev : option ascii) :
  underscores_ok prev [] = negb (match prev with Some p => Ascii.eqb p "_" | None => false end).
Proof. destruct prev as [[[] [] [] [] [] [] [] []]|]; reflexivity. Qed.

Lemma underscores_ok_cons (prev : option ascii) (c : ascii) (l : list ascii) :
  underscores_ok prev (c :: l)
  = (if Ascii.eqb c "_"
     then match prev with Some p => is_digit p | None => false end
     else negb (match prev with Some p => Ascii.eqb p "_" | None => false end) || is_digit c)
    && underscores_ok (Some c) l.
Proof. destruct prev as [[[] [] [] [] [] [] [] []]|]; reflexivity. Qed.

Lemma underscores_ok_fit (prev : option ascii) (t : list ascii) :
  underscores_ok prev t = true <-> underscores_fit prev t.
Proof.
  revert prev. induction t as [|c t IH]; intros prev.
  - rewrite underscores_ok_nil. unfold underscores_fit. split.
    + intros H. split.
      * intros [|x pre] post E; discriminate E.
      * intros ->. discriminate H.
    + intros [_ H]. destruct prev as [p|]; [|reflexivity].
      destruct (Ascii.eqb_spec p "_") as [->|]; [|reflexivity].
      destruct (H eq_refl) as (d & q & E & _). discriminate E.
  - rewrite underscores_ok_cons, andb_true_iff, IH. unfold underscores_fit. split.
    + intros [Hc [Hsplit Hprev]]. split.
      * intros [|x pre] post E.
        -- injection E as -> <-. rewrite Ascii.eqb_refl in Hc. split.
           ++ destruct prev as [p|]; [|discriminate]. exists p. split; [exact Hc|now right].
           ++ now apply Hprev.
        -- injection E as <- ->. destruct (Hsplit pre post eq_refl) as [(d & Hd & Hb) Ha].
           split; [|exact Ha]. exists d. split; [exact Hd|]. left.
           destruct Hb as [(p & ->)|[-> [= ->]]]; [now exists (c :: p)|now exists []].
      * intros ->. destruct (Ascii.eqb_spec c "_") as [->|_]; [discriminate Hc|].
        cbn in Hc. now exists c, t.
    + intros [Hsplit Hprev]. split.
      * destruct (Ascii.eqb_spec c "_") as [->|Hne].
        -- destruct (Hsplit [] t eq_refl) as [(d & Hd & [(p & E)|[_ ->]]) _]; [|exact Hd].
           destruct p; discriminate E.
        -- destruct prev as [p|]; [|reflexivity].
           destruct (Ascii.eqb_spec p "_") as [->|]; [|reflexivity].
           destruct (Hprev eq_refl) as (d & q & [= <- <-] & Hd). exact Hd.
      * split.
        -- intros pre post ->.
           destruct (Hsplit (c :: pre) post eq_refl) as [(d & Hd & Hb) Ha].
           split; [|exact Ha]. exists d. split; [exact Hd|].
           destruct Hb as [(p & E)|[E _]]; [|discriminate E].
           destruct p as [|x p]; cbn in E; injection E as -> E.
           ++ destruct pre; [now right|discriminate E].
           ++ left. now exists p.
        -- intros [= ->]. destruct (Hsplit [] t eq_refl) as [_ Ha]. exact Ha.
Qed.

Lemma underscores_ok_between (t : list ascii) :
  underscores_ok None t = true <-> underscores_between_digits t.
Proof.
  rewrite underscores_ok_fit. unfold underscores_fit, underscores_between_digits. split.
  - intros [H _] pre post E. destruct (H pre post E) as [(d & Hd & Hb) Ha].
    split; [|exact Ha]. destruct Hb as [(p & ->)|[_ [=]]]. now exists p, d.
  - intros H. split; [|discriminate]. intros pre post E.
    destruct (H pre post E) as [(p & d & -> & Hd) Ha]. split; [|exact Ha].
    exists d. split; [exact Hd|]. left. now exists p.
Qed.

(** A text whose underscores stand between digits starts and ends as it
    does without them. *)
Lemma underscored_first (t u : list ascii) (a : ascii) :
  underscores_between_digits t -> drop_underscores t = a :: u -> exists t0, t = a :: t0.
Proof.
  intros Hu Hd. destruct t as [|c t0]; [discriminate Hd|].
  unfold drop_underscores in Hd. cbn in Hd.
  destruct (Ascii.eqb_spec c "_") as [->|_].
  - destruct (Hu [] t0 eq_refl) as [(p & d & E & _) _]. destruct p; discriminate E.
  - cbn in Hd. injection Hd as -> _. now exists t0.
Qed.

Lemma underscored_last (t u : list ascii) (z : ascii) :
  underscores_between_digits t -> drop_underscores t = u ++ [z] -> exists t1, t = t1 ++ [z].
Proof.
  intros Hu Hd. destruct (exists_last (l := t)) as (t1 & c & ->).
  { intros ->. destruct u; discriminate Hd. }
  unfold drop_underscores in Hd. rewrite filter_app in Hd. cbn in Hd.
  destruct (Ascii.eqb_spec c "_") as [Hc|_].
  - rewrite Hc in Hu. destruct (Hu t1 [] eq_refl) as [_ (d & q & E & _)]. discriminate E.
  - cbn in Hd. apply app_inj_tail in Hd. destruct Hd as [_ ->]. now exists t1.
Qed.

Lemma strip_by_numeral (pre t post u0 u1 : list ascii) (a z : ascii) :
  forallb is_numeral_space pre = true -> forallb is_numeral_space post = true ->
  underscores_between_digits t ->
  drop_underscores t = a :: u0 -> drop_underscores t = u1 ++ [z] ->
  is_numeral_space a = false -> is_numeral_space z = false ->
  strip_by is_numeral_space (pre ++ t ++ post) = t.
Proof.
  intros Hpre Hpost Hu Hfirst Hlast Ha Hz.
  destruct (underscored_first t u0 a Hu Hfirst) as (t0 & ->).
  destruct (underscored_last _ u1 z Hu Hlast) as (t1 & Ht).
  now apply (strip_by_inner _ pre post t0 t1 a z).
Qed.

(** *** Signs and digits *)

Lemma take_sign_split (l l1 : list ascii) (neg : bool) :
  take_sign l = (neg, l1) -> exists sg, l = sg ++ l1 /\ sign_text neg sg.
Proof.
  destruct l as [|c l']; [intros [= <- <-]; exists []; split; [reflexivity|now right]|].
  destruct c as [[] [] [] [] [] [] [] []]; cbn; intros [= <- <-];
    first [ now (exists []; split; [reflexivity|right])
          | now (exists ["-"%char])
          | now (exists ["+"%char]; split; [reflexivity|left]) ].
Qed.

Lemma take_sign_app (neg : bool) (sg body : list ascii) :
  sign_text neg sg -> no_sign_first body -> take_sign (sg ++ body) = (neg, body).
Proof.
  intros Hs Hb. destruct neg; cbn in Hs.
  - subst sg. reflexivity.
  - destruct Hs as [->| ->]; [reflexivity|]. cbn [app].
    destruct body as [|c b]; [reflexivity|]. destruct Hb as [H1 H2].
    destruct c as [[] [] [] [] [] [] [] []]; try reflexivity; discriminate.
Qed.

Lemma span_digits_split (l ds rest : list ascii) :
  span_digits l = (ds, rest) ->
  l = ds ++ rest /\ forallb is_digit ds = true /\ no_digit_first rest.
Proof.
  revert ds rest. induction l as [|c l IH]; intros ds rest.
  - intros [= <- <-]. repeat split.
  - cbn [span_digits]. destruct (is_digit c) eqn:Hc.
    + destruct (span_digits l) as [d r]. intros [= <- <-].
      destruct (IH d r eq_refl) as (-> & Hd & Hr). cbn. rewrite Hc. now repeat split.
    + intros [= <- <-]. cbn. now repeat split.
Qed.

Lemma span_digits_app (ds rest : list ascii) :
  forallb is_digit ds = true -> no_digit_first rest -> span_digits (ds ++ rest) = (ds, rest).
Proof.
  intros Hd Hr. induction ds as [|c ds IH].
  - destruct rest as [|c r]; [reflexivity|]. cbn in *. now rewrite Hr.
  - cbn in *. apply andb_prop in Hd. destruct Hd as [Hc Hd]. now rewrite Hc, IH.
Qed.

Lemma digit_no_sign (c : ascii) (l : list ascii) : is_digit c = true -> no_sign_first (c :: l).
Proof. destruct c as [[] [] [] [] [] [] [] []]; cbn; intros H; now try discriminate H. Qed.

Lemma digit_no_space (c : ascii) : is_digit c = true -> is_numeral_space c = false.
Proof. destruct c as [[] [] [] [] [] [] [] []]; cbn; intros H; now try discriminate H. Qed.

Lemma digit_run_first (ds : list ascii) :
  digit_run ds -> exists d r, ds = d :: r /\ is_digit d = true.
Proof.
  intros [Hne Hd]. destruct ds as [|d r]; [contradiction|].
  cbn in Hd. apply andb_prop in Hd. now exists d, r.
Qed.

Lemma digit_run_last (ds : list ascii) :
  digit_run ds -> exists r z, ds = r ++ [z] /\ is_digit z = true.
Proof.
  intros [Hne Hd]. destruct (exists_last Hne) as (r & z & ->).
  rewrite forallb_app in Hd. apply andb_prop in Hd. destruct Hd as [_ Hz].
  cbn in Hz. rewrite andb_true_r in Hz. now exists r, z.
Qed.

Lemma sign_text_first (neg : bool) (sg l : list ascii) (a : ascii) (u : list ascii) :
  sign_text neg sg -> sg ++ l = a :: u ->
  is_numeral_space a = false \/ (sg = [] /\ l = a :: u).
Proof.
  intros Hs E. destruct neg; cbn in Hs.
  - subst sg. injection E as <- _. now left.
  - destruct Hs as [->| ->]; [injection E as <- _; now left|now right].
Qed.

(** *** [int] *)

(** [int] accepts a string exactly when it holds an integer numeral of at
    most 4300 digits, and returns its value. *)
Lemma int_of_str_text (s : string) (n : Z) : int_of_str s = Done n <-> int_text s n.
Proof.
  unfold int_of_str, int_text, numeral_in. split.
  - destruct (strip_by_split is_numeral_space (chars s)) as (pre & post & Hs & Hpre & Hpost).
    set (l := strip_by is_numeral_space (chars s)) in *.
    destruct (underscores_ok None l) eqn:Hu; [|discriminate]. cbn [negb].
    destruct (take_sign (drop_underscores l)) as [neg l1] eqn:Hsign.
    destruct (span_digits l1) as [ds rest] eqn:Hspan.
    destruct ds as [|d ds]; [discriminate|]. destruct rest; [|discriminate].
    destruct (int_max_str_digits <? _) eqn:Hmax; [discriminate|]. intros [= <-].
    exists pre, l, post.
    split; [exact Hs|]. split; [exact Hpre|]. split; [exact Hpost|]. split.
    + now apply underscores_ok_between.
    + apply take_sign_split in Hsign. destruct Hsign as (sg & Hl & Hsg).
      apply span_digits_split in Hspan. destruct Hspan as (-> & Hd & _).
      rewrite app_nil_r in Hl.
      exists neg, sg, (d :: ds). repeat split; try assumption.
      * discriminate.
      * now apply Z.ltb_ge in Hmax.
  - intros (pre & t & post & Hs & Hpre & Hpost & Hu & neg & sg & ds & Ht & Hsg & Hds & Hmax & ->).
    destruct (digit_run_first ds Hds) as (d & r & Hdr & Hd).
    destruct (digit_run_last ds Hds) as (r' & z & Hz & Hzd).
    assert (Hstrip : strip_by is_numeral_space (chars s) = t).
    { rewrite Hs. destruct (sg ++ ds) as [|a u0] eqn:Hfirst.
      { subst ds. destruct sg; discriminate Hfirst. }
      apply (strip_by_numeral pre t post u0 (sg ++ r') a z Hpre Hpost Hu).
      - exact Ht.
      - rewrite Ht, <- Hfirst, Hz. now rewrite app_assoc.
      - destruct (sign_text_first neg sg ds a u0 Hsg Hfirst) as [H|[_ H]]; [exact H|].
        rewrite Hdr in H. injection H as <- _. now apply digit_no_space.
      - now apply digit_no_space. }
    rewrite Hstrip. rewrite (proj2 (underscores_ok_between t) Hu). cbn [negb].
    rewrite Ht, (take_sign_app neg sg ds Hsg) by (rewrite Hdr; now apply digit_no_sign).
    rewrite <- (app_nil_r ds) at 1.
    rewrite span_digits_app by (try exact I; apply Hds).
    replace (int_max_str_digits <? Z.of_nat (List.length ds)) with false
      by (symmetry; now apply Z.ltb_ge).
    now rewrite Hdr.
Qed.

(** *** [float] *)

Lemma fraction_eq (l2 : list ascii) :
  match l2 with
  | "."%char :: r => span_digits r
  | _ => ([], l2)
  end
  = match l2 with
    | [] => ([], l2)
    | c :: r => if Ascii.eqb c "." then span_digits r else ([], l2)
    end.
Proof.
  destruct l2 as [|c r]; [reflexivity|].
  destruct c as [[] [] [] [] [] [] [] []]; reflexivity.
Qed.

Lemma lower_char_e (c : ascii) :
  Ascii.eqb (lower_char c) "e" = true <-> c = "e"%char \/ c = "E"%char.
Proof.
  destruct c as [[] [] [] [] [] [] [] []]; cbn; split;
    solve [ discriminate | intros [H|H]; discriminate H | auto ].
Qed.

Lemma space_lower (c : ascii) :
  is_numeral_space (lower_char c) = false -> is_numeral_space c = false.
Proof. destruct c as [[] [] [] [] [] [] [] []]; cbn; congruence. Qed.

Lemma sign_lower (c : ascii) :
  Ascii.eqb (lower_char c) "-" = false -> Ascii.eqb (lower_char c) "+" = false ->
  Ascii.eqb c "-" = false /\ Ascii.eqb c "+" = false.
Proof. destruct c as [[] [] [] [] [] [] [] []]; cbn; auto. Qed.

Lemma digit_lower (c : ascii) : is_digit c = true -> lower_char c = c.
Proof. destruct c as [[] [] [] [] [] [] [] []]; cbn; congruence. Qed.

Lemma ends_plain_app (l m : list ascii) : ends_plain m -> ends_plain (l ++ m).
Proof. intros (u & z & -> & Hz). exists (l ++ u), z. now rewrite app_assoc. Qed.

Lemma starts_plain_app (l m : list ascii) : starts_plain l -> starts_plain (l ++ m).
Proof. intros (a & u & -> & Ha). now exists a, (u ++ m). Qed.

Lemma ends_plain_digits (ds : list ascii) : digit_run ds -> ends_plain ds.
Proof.
  intros H. destruct (digit_run_last ds H) as (r & z & -> & Hz).
  exists r, z. split; [reflexivity|now apply digit_no_space].
Qed.

Lemma starts_plain_sign (neg : bool) (sg body : list ascii) :
  sign_text neg sg -> starts_plain body -> starts_plain (sg ++ body).
Proof.
  intros Hs Hb. destruct neg; cbn in Hs.
  - subst sg. now exists "-"%char, body.
  - destruct Hs as [->| ->]; [now exists "+"%char, body|exact Hb].
Qed.

Lemma strip_by_plain (pre t post : list ascii) :
  forallb is_numeral_space pre = true -> forallb is_numeral_space post = true ->
  underscores_between_digits t ->
  starts_plain (drop_underscores t) -> ends_plain (drop_underscores t) ->
  strip_by is_numeral_space (pre ++ t ++ post) = t.
Proof.
  intros Hpre Hpost Hu (a & u0 & Hfirst & Ha) (u1 & z & Hlast & Hz).
  now apply (strip_by_numeral pre t post u0 u1 a z).
Qed.

Lemma word_plain (body : list ascii) :
  is_word body -> starts_plain body /\ ends_plain body /\ no_sign_first body.
Proof.
  unfold is_word, lower_str.
  intros [H|[H|H]].
  - destruct body as [|c1 [|c2 [|c3 [|c4 b]]]]; try discriminate H.
    cbn in H. injection H as H1 H2 H3. split; [|split].
    + exists c1, [c2; c3]. split; [reflexivity|]. apply space_lower. now rewrite H1.
    + exists [c1; c2], c3. split; [reflexivity|]. apply space_lower. now rewrite H3.
    + apply sign_lower; now rewrite H1.
  - destruct body as [|c1 [|c2 [|c3 [|c4 [|c5 [|c6 [|c7 [|c8 [|c9 b]]]]]]]]];
      try discriminate H.
    cbn in H. injection H as H1 H2 H3 H4 H5 H6 H7 H8. split; [|split].
    + exists c1, [c2; c3; c4; c5; c6; c7; c8].
      split; [reflexivity|]. apply space_lower. now rewrite H1.
    + exists [c1; c2; c3; c4; c5; c6; c7], c8.
      split; [reflexivity|]. apply space_lower. now rewrite H8.
    + apply sign_lower; now rewrite H1.
  - destruct body as [|c1 [|c2 [|c3 [|c4 b]]]]; try discriminate H.
    cbn in H. injection H as H1 H2 H3. split; [|split].
    + exists c1, [c2; c3]. split; [reflexivity|]. apply space_lower. now rewrite H1.
    + exists [c1; c2], c3. split; [reflexivity|]. apply space_lower. now rewrite H3.
    + apply sign_lower; now rewrite H1.
Qed.

(** A text that starts with a digit or a point is none of the words. *)
Lemma number_no_word (c : ascii) (b : list ascii) :
  is_digit c = true \/ c = "."%char ->
  String.eqb (lower_str (c :: b)) "inf" = false
  /\ String.eqb (lower_str (c :: b)) "infinity" = false
  /\ String.eqb (lower_str (c :: b)) "nan" = false.
Proof.
  intros H. unfold lower_str. cbn [map string_of_list_ascii].
  assert (Hi : Ascii.eqb (lower_char c) "i" = false /\ Ascii.eqb (lower_char c) "n" = false).
  { destruct H as [H| ->]; [|now split].
    rewrite (digit_lower c H).
    destruct c as [[] [] [] [] [] [] [] []]; cbn in H |- *; now try discriminate H. }
  destruct Hi as [Hi Hn]. cbn [String.eqb]. now rewrite Hi, Hn.
Qed.

Lemma exponent_no_digit (x : Z) (ex : list ascii) : exponent_text x ex -> no_digit_first ex.
Proof.
  intros [[-> _]|(c & neg & sg & ds & -> & [-> | ->] & _)]; reflexivity.
Qed.

Lemma exponent_no_point (x : Z) (ex : list ascii) :
  exponent_text x ex ->
  match ex with
  | [] => ([] : list ascii, ex)
  | c :: r => if Ascii.eqb c "." then span_digits r else ([], ex)
  end = ([], ex).
Proof.
  intros [[-> _]|(c & neg & sg & ds & -> & [-> | ->] & _)]; reflexivity.
Qed.

Lemma exponent_ends (x : Z) (ex : list ascii) :
  exponent_text x ex -> ex = [] \/ ends_plain ex.
Proof.
  intros [[-> _]|(c & neg & sg & ds & -> & _ & _ & Hds & _)]; [now left|right].
  change (c :: sg ++ ds) with ((c :: sg) ++ ds). now apply ends_plain_app, ends_plain_digits.
Qed.

Lemma read_exponent_text (l3 : list ascii) (x : Z) :
  read_exponent l3 = Some x <-> exponent_text x l3.
Proof.
  unfold read_exponent, exponent_text. split.
  - destruct l3 as [|c r]; [intros [= <-]; now left|].
    destruct (Ascii.eqb (lower_char c) "e") eqn:Hc; [|discriminate].
    apply lower_char_e in Hc.
    destruct (take_sign r) as [eneg r1] eqn:Hsign.
    destruct (span_digits r1) as [ed r2] eqn:Hspan.
    destruct ed as [|d ed]; [discriminate|]. destruct r2; [|discriminate].
    intros [= <-]. right.
    apply take_sign_split in Hsign. destruct Hsign as (sg & -> & Hsg).
    apply span_digits_split in Hspan. destruct Hspan as (-> & Hd & _).
    rewrite app_nil_r. exists c, eneg, sg, (d :: ed).
    repeat split; try assumption. discriminate.
  - intros [[-> ->]|(c & neg & sg & ds & -> & Hc & Hsg & Hds & ->)]; [reflexivity|].
    apply lower_char_e in Hc. rewrite Hc.
    destruct (digit_run_first ds Hds) as (d & r & Hdr & Hd).
    rewrite (take_sign_app neg sg ds Hsg) by (rewrite Hdr; now apply digit_no_sign).
    rewrite <- (app_nil_r ds) at 1.
    rewrite span_digits_app by (try exact I; apply Hds).
    now rewrite Hdr.
Qed.

(** [float] accepts a string exactly when it holds a float numeral, and
    returns the float nearest to its value. *)
Lemma float_of_str_text (s : string) (f : spec_float) :
  float_of_str s = Done f <-> float_text s f.
Proof.
  unfold float_of_str, float_text, numeral_in. split.
  - destruct (strip_by_split is_numeral_space (chars s)) as (pre & post & Hs & Hpre & Hpost).
    set (l := strip_by is_numeral_space (chars s)) in *.
    destruct (underscores_ok None l) eqn:Hu; [|discriminate]. cbn [negb].
    destruct (take_sign (drop_underscores l)) as [neg l1] eqn:Hsign.
    apply take_sign_split in Hsign. destruct Hsign as (sg & Hl & Hsg).
    intros H. exists pre, l, post.
    split; [exact Hs|]. split; [exact Hpre|]. split; [exact Hpost|].
    split; [now apply underscores_ok_between|].
    exists neg, sg, l1. split; [exact Hl|]. split; [exact Hsg|].
    destruct (String.eqb_spec (lower_str l1) "inf") as [Hinf|_];
      [injection H as <-; left; split; [now left|reflexivity]|].
    destruct (String.eqb_spec (lower_str l1) "infinity") as [Hinf|_];
      [injection H as <-; left; split; [now right|reflexivity]|].
    cbn [orb] in H.
    destruct (String.eqb_spec (lower_str l1) "nan") as [Hnan|_];
      [injection H as <-; right; left; now split|].
    right. right.
    destruct (span_digits l1) as [ip l2] eqn:Hip.
    apply span_digits_split in Hip. destruct Hip as (-> & Hipd & _).
    rewrite fraction_eq in H.
    assert (Hfrac : exists fp l3 dot,
               match l2 with
               | [] => ([], l2)
               | c :: r => if Ascii.eqb c "." then span_digits r else ([], l2)
               end = (fp, l3)
               /\ l2 = dot ++ l3 /\ forallb is_digit fp = true
               /\ (dot = [] /\ fp = [] \/ dot = "."%char :: fp)).
    { destruct l2 as [|c r]; [now exists [], [], []; repeat split; left|].
      destruct (Ascii.eqb_spec c ".") as [->|_].
      - destruct (span_digits r) as [fp l3] eqn:Hfp.
        apply span_digits_split in Hfp. destruct Hfp as (-> & Hfpd & _).
        exists fp, l3, ("."%char :: fp). repeat split; [exact Hfpd|now right].
      - exists [], (c :: r), []. repeat split. now left. }
    destruct Hfrac as (fp & l3 & dot & Hfrac & -> & Hfpd & Hdot).
    rewrite Hfrac in H. revert H. fold (read_exponent l3).
    destruct (ip ++ fp) as [|d0 m] eqn:Hm; [discriminate|].
    destruct (read_exponent l3) as [x|] eqn:Hx; [|discriminate].
    intros [= <-].
    exists ip, fp, dot, l3, x. rewrite Hm.
    repeat split; try assumption; [discriminate|now apply read_exponent_text].
  - intros (pre & t & post & Hs & Hpre & Hpost & Hu & neg & sg & body & Ht & Hsg & Hbody).
    assert (Hplain : starts_plain body /\ ends_plain body /\ no_sign_first body).
    { destruct Hbody as [[Hw _]|[[Hw _]|Hnum]].
      - apply word_plain. destruct Hw; [now left|now right; left].
      - apply word_plain. now right; right.
      - destruct Hnum as (ip & fp & dot & ex & x & -> & Hipd & Hfpd & Hne & Hdot & Hex & _).
        split; [|split].
        + destruct ip as [|d ip].
          * destruct Hdot as [[_ ->]| ->]; [contradiction|]. now exists "."%char, (fp ++ ex).
          * cbn in Hipd. apply andb_prop in Hipd.
            exists d, (ip ++ dot ++ ex). split; [reflexivity|]. now apply digit_no_space.
        + destruct (exponent_ends x ex Hex) as [->|He];
            [|now apply ends_plain_app, ends_plain_app].
          rewrite app_nil_r. destruct Hdot as [[-> ->]| ->].
          * rewrite !app_nil_r in *. now apply ends_plain_digits.
          * apply ends_plain_app. destruct fp as [|d fp']; [now exists [], "."%char|].
            change ("."%char :: d :: fp') with (["."%char] ++ d :: fp').
            apply ends_plain_app, ends_plain_digits. split; [discriminate|exact Hfpd].
        + destruct ip as [|d ip].
          * destruct Hdot as [[_ ->]| ->]; [contradiction|]. now split.
          * cbn in Hipd. apply andb_prop in Hipd. now apply digit_no_sign. }
    destruct Hplain as (Hstart & Hend & Hnosign).
    assert (Hstrip : strip_by is_numeral_space (chars s) = t).
    { rewrite Hs. apply strip_by_plain; try assumption; rewrite Ht.
      - now apply (starts_plain_sign neg).
      - now apply ends_plain_app. }
    rewrite Hstrip, (proj2 (underscores_ok_between t) Hu). cbn [negb].
    rewrite Ht, (take_sign_app neg sg body Hsg Hnosign).
    destruct Hbody as [[Hw ->]|[[Hw ->]|Hnum]].
    + destruct Hw as [-> | ->]; reflexivity.
    + now rewrite Hw.
    + destruct Hnum as (ip & fp & dot & ex & x & -> & Hipd & Hfpd & Hne & Hdot & Hex & ->).
      assert (Hfirst : exists c b, ip ++ dot ++ ex = c :: b /\ (is_digit c = true \/ c = "."%char)).
      { destruct ip as [|d ip].
        - destruct Hdot as [[_ ->]| ->]; [contradiction|]. exists "."%char, (fp ++ ex). auto.
        - cbn in Hipd. apply andb_prop in Hipd. destruct Hipd as [Hd _].
          exists d, (ip ++ dot ++ ex). split; [reflexivity|now left]. }
      destruct Hfirst as (c & b & Hcb & Hc).
      destruct (number_no_word c b Hc) as (H1 & H2 & H3).
      rewrite Hcb, H1, H2, H3, <- Hcb. cbn [orb].
      rewrite span_digits_app;
        [|exact Hipd
         |destruct Hdot as [[-> _]| ->]; [now apply (exponent_no_digit x)|reflexivity]].
      rewrite fraction_eq.
      assert (Hfrac : match dot ++ ex with
                      | [] => ([], dot ++ ex)
                      | c :: r => if Ascii.eqb c "." then span_digits r else ([], dot ++ ex)
                      end = (fp, ex)).
      { destruct Hdot as [[-> ->]| ->].
        - now apply (exponent_no_point x).
        - cbn. now apply span_digits_app, (exponent_no_digit x). }
      rewrite Hfrac. fold (read_exponent ex).
      destruct (ip ++ fp) as [|d0 m] eqn:Hm; [contradiction|].
      now rewrite (proj2 (read_exponent_text ex x) Hex).
Qed.

(** ** Validators *)

(** The conversions on known values: 0.1 is 0x3FB999999999999A, an [int]
    past 2^53 rounds to even, the largest and the smallest float, an
    underscore between digits, and what [int] and [float] refuse. *)
Example float_examples :
  float_of_str "0.1" = Done (S754_finite false 0x1999999999999A (-56))
  /\ float_of_str " -12.5e1 " = Done (S754_finite true (125 * 2 ^ 46) (-46))
  /\ float_of_int (2 ^ 53 + 1) = Done (S754_finite false (2 ^ 52) 1)
  /\ float_of_int (2 ^ 1024 - 2 ^ 970 - 1) = Done (S754_finite false (2 ^ 53 - 1) 971)
  /\ float_of_int (2 ^ 1024 - 2 ^ 970) = Raised OverflowError
  /\ float_of_str "5e-324" = Done (S754_finite false 1 (-1074))
  /\ float_of_str "2e-324" = Done (S754_zero false)
  /\ float_of_str "1e400" = Done (S754_infinity false)
  /\ float_of_str "1_000" = float_of_str "1000"
  /\ float_of_str "1__0" = Raised ValueError
  /\ float_of_str "1e" = Raised ValueError
  /\ float_of_str "." = Raised ValueError
  /\ float_of_str "-Infinity" = Done (S754_infinity true)
  /\ float_of_str (String "160" "1.5") = float_of_str "1.5"
  /\ float_of_str (String "028" "1.5") = Raised ValueError.
Proof. repeat split. Qed.

Example int_examples :
  int_of_str " +7 " = Done 7
  /\ int_of_str "1_0" = Done 10
  /\ int_of_str "-007" = Done (-7)
  /\ int_of_str "3.5" = Raised ValueError
  /\ int_of_str "" = Raised ValueError
  /\ int_of_str "_1" = Raised ValueError
  /\ int_of_str (String "160" "7") = Done 7
  /\ int_of_str (String "031" "7") = Raised ValueError
  /\ int_of_float (S754_finite true 7 (-1)) = Done (-3)
  /\ py_int (PBool true) = Done 1
  /\ py_int PNone = Raised TypeError.
Proof. repeat split. Qed.

(** The limit on the digits of a string: 4300 digits convert, leading
    zeros included, 4301 do not. *)
Example int_digit_limit :
  int_of_str (string_of_list_ascii (repeat "0"%char 4299 ++ ["7"%char])) = Done 7
  /\ int_of_str (string_of_list_ascii (repeat "0"%char 4300 ++ ["7"%char]))
     = Raised ValueError.
Proof. split; vm_compute; reflexivity. Qed.

(** A page number [int] refuses is read as the default. *)
Example args_get_int_examples :
  args_get_int [("page", "2")] "page" 1 = 2
  /\ args_get_int [("page", " 2 ")] "page" 1 = 2
  /\ args_get_int [("page", String "028" "2")] "page" 1 = 1
  /\ args_get_int [("page", "two")] "page" 1 = 1
  /\ args_get_int [("q", "sky")] "page" 1 = 1.
Proof. repeat split. Qed.

Example validate_email_examples :
  validate_email (PStr "alice@x.com") = Done true
  /\ validate_email (PStr "a.b+c@mail.example.org") = Done true
  /\ validate_email (PStr "alice@x") = Done false
  /\ validate_email (PStr "alice@x.c") = Done false
  /\ validate_email (PStr "al ice@x.com") = Done false
  /\ validate_email (PStr "alice@@x.com") = Done false
  /\ validate_email (PStr "") = Done false
  /\ validate_email (PInt 5) = Raised TypeError.
Proof. repeat split. Qed.

Lemma float_cmp_int_value (f : spec_float) (n : Z) (q : Q) :
  float_value f = Some q ->
  float_cmp_int f n = Some (Qcompare q (inject_Z n)).
Proof.
  destruct f as [s| | |s m e]; try discriminate; intros [= <-].
  - cbn. unfold Qcompare. cbn. now rewrite Z.mul_1_r.
  - unfold float_cmp_int, float_value. cbv zeta. f_equal.
    destruct (0 <=? e) eqn:He.
    + unfold Qcompare. cbn. now rewrite !Z.mul_1_r.
    + apply Z.leb_gt in He. unfold Qcompare. cbn [Qnum Qden inject_Z].
      rewrite Z.mul_1_r, Z2Pos.id by (apply Z.pow_pos_nonneg; lia). reflexivity.
Qed.

Lemma price_in_range_value (p : spec_float) :
  price_in_range p = true <->
  exists q, float_value p = Some q /\ (0 < q)%Q /\ (q <= 999999)%Q.
Proof.
  unfold price_in_range, int_lt_float, float_le_int. split.
  - intros H. destruct (float_value p) as [q|] eqn:Hq.
    + rewrite !(float_cmp_int_value p _ q Hq) in H. exists q. split; [reflexivity|].
      apply andb_prop in H. destruct H as [H0 H1]. split.
      * apply Qgt_alt. change 0%Q with (inject_Z 0). now destruct (q ?= inject_Z 0)%Q.
      * apply Qle_alt. change 999999%Q with (inject_Z 999999).
        now destruct (q ?= inject_Z 999999)%Q.
    + destruct p; try discriminate; cbn in H; try discriminate.
      destruct s; discriminate.
  - intros (q & Hq & H0 & H1). rewrite !(float_cmp_int_value p _ q Hq).
    apply Qgt_alt in H0. apply (proj1 (Qle_alt _ _)) in H1.
    change (inject_Z 0) with 0%Q. rewrite H0.
    change (inject_Z 999999) with 999999%Q.
    destruct (q ?= 999999)%Q eqn:E; [reflexivity|reflexivity|now elim H1].
Qed.

Lemma validate_price_valid (v : pyval) : validate_price v = true <-> valid_price v.
Proof.
  destruct v as [|b|n|f|s|l|d]; cbn [valid_price].
  - split; [discriminate|contradiction].
  - destruct b; split; try reflexivity; discriminate.
  - apply validate_price_int.
  - unfold validate_price. cbn [py_float]. apply price_in_range_value.
  - unfold validate_price, py_float. destruct (float_of_str s) as [p|e] eqn:Hs.
    + rewrite price_in_range_value. split.
      * intros Hr. exists p. split; [now apply float_of_str_text|exact Hr].
      * intros (f & Ht & Hr). apply float_of_str_text in Ht.
        rewrite Hs in Ht. now injection Ht as ->.
    + split; [discriminate|]. intros (f & Ht & _).
      apply float_of_str_text in Ht. rewrite Hs in Ht. discriminate Ht.
  - split; [discriminate|contradiction].
  - split; [discriminate|contradiction].
Qed.

(** C8. [validate_price] returns true exactly for the inputs that stand
    for a number greater than 0 and at most 999999: an [int] in that
    range, a [float] whose value is in it, [True] (which is 1), and a
    string that holds a float numeral, between white space, whose nearest
    float is in the range.  These are the inputs [float] parses to such a
    number.  So 0, the negative numbers and the numbers above 999999 are
    rejected, and so is every input [float] cannot parse. *)
Theorem validate_price_exact :
  (forall v, validate_price v = true <-> valid_price v)
  /\ (forall v,
      validate_price v = true <->
      exists p q, py_float v = Done p /\ float_value p = Some q
                  /\ (0 < q)%Q /\ (q <= 999999)%Q)
  /\ (forall n, validate_price (PInt n) = true <-> 0 < n <= 999999)
  /\ (forall f,
      validate_price (PFloat f) = true <->
      exists q, float_value f = Some q /\ (0 < q)%Q /\ (q <= 999999)%Q)
  /\ (forall s,
      validate_price (PStr s) = true <->
      exists f q, float_text s f /\ float_value f = Some q
                  /\ (0 < q)%Q /\ (q <= 999999)%Q)
  /\ (forall v e, py_float v = Raised e -> validate_price v = false)
  /\ validate_price (PInt 0) = false
  /\ validate_price (PStr "abc") = false
  /\ validate_price (PStr "") = false
  /\ validate_price PNone = false.
Proof.
  assert (Hall : forall v,
      validate_price v = true <->
      exists p q, py_float v = Done p /\ float_value p = Some q
                  /\ (0 < q)%Q /\ (q <= 999999)%Q).
  { intros v. rewrite validate_price_float. split.
    - intros (p & Hp & Hr). apply price_in_range_value in Hr.
      destruct Hr as (q & Hq & H). now exists p, q.
    - intros (p & q & Hp & Hq & H). exists p. split; [exact Hp|].
      apply price_in_range_value. now exists q. }
  split; [exact validate_price_valid|].
  split; [exact Hall|]. split; [exact validate_price_int|]. split; [|split].
  - intros f. rewrite Hall. cbn. split.
    + intros (p & q & [= <-] & H). now exists q.
    + intros (q & H). now exists f, q.
  - intros s. rewrite validate_price_valid. cbn [valid_price]. unfold in_price_range. split.
    + intros (f & Ht & q & H). now exists f, q.
    + intros (f & q & Ht & H). exists f. split; [exact Ht|now exists q].
  - split; [|repeat split].
    intros v e He. unfold validate_price. now rewrite He.
Qed.

Lemma validate_price_exact_witness :
  validate_price (PInt 50) = true
  /\ validate_price (PList []) = false
  /\ validate_price (PStr " 12.5 ") = true
  /\ validate_price (PStr (String "028" "5")) = false.
Proof.
  destruct validate_price_exact as (Hvalid & _ & Hint & _ & _ & Hraise & _).
  split; [|split; [|split]].
  - apply (proj2 (Hint 50)). lia.
  - apply (Hraise (PList []) TypeError). reflexivity.
  - apply (proj2 (Hvalid (PStr " 12.5 "))). cbn [valid_price].
    exists (float_of_decimal false 125 (-1)). split.
    + apply float_of_str_text. reflexivity.
    + eexists. split; [reflexivity|]. split; unfold Qlt, Qle; cbn; lia.
  - destruct (validate_price (PStr (String "028" "5"))) eqn:E; [|reflexivity].
    apply (proj1 (Hvalid _)) in E. destruct E as (f & Ht & _).
    apply float_of_str_text in Ht. discriminate Ht.
Defined.

(** How far "parseable" goes: [float] reads [True] as 1.0 and a numeric
    string as the nearest float, so both pass when that float is in
    range. *)
Example validate_price_parses_like_float :
  validate_price (PBool true) = true
  /\ validate_price (PStr " 12.5 ") = true
  /\ float_of_str "999999.00000000001" = float_of_int 999999
  /\ validate_price (PStr "999999.00000000001") = true
  /\ validate_price (PStr "inf") = false
  /\ validate_price (PStr "nan") = false.
Proof. repeat split. Qed.

Lemma validate_rating_float (f : spec_float) (q : Q) :
  float_value f = Some q ->
  validate_rating (PFloat f) = true <-> (1 <= q)%Q /\ (q < 6)%Q.
Proof.
  intros Hq. unfold validate_rating, py_int, int_of_float.
  destruct f as [s| | |s m e]; try discriminate; injection Hq as <-.
  - cbn. split; [discriminate|]. intros [H _]. apply Qle_alt in H. now elim H.
  - assert (H2 : forall k, 0 <= k -> 0 < 2 ^ k) by (intros; now apply Z.pow_pos_nonneg).
    cbv zeta. destruct (0 <=? e) eqn:He.
    + apply Z.leb_le in He. pose proof (H2 e He).
      change 1%Q with (inject_Z 1). change 6%Q with (inject_Z 6).
      rewrite <- Zle_Qle, <- Zlt_Qlt.
      destruct s; cbn [cond_Zopp]; split; intros Hr.
      all: try apply andb_prop in Hr; try apply andb_true_intro; nia.
    + apply Z.leb_gt in He. pose proof (H2 (- e) ltac:(lia)) as Hpos.
      unfold Qle, Qlt. cbn [Qnum Qden].
      rewrite Z2Pos.id by exact Hpos. rewrite !Z.mul_1_r, Z.mul_1_l.
      destruct s; cbn [cond_Zopp].
      * pose proof (Z.div_pos (Zpos m) (2 ^ (- e)) ltac:(lia) Hpos).
        split; intros Hr; [apply andb_prop in Hr; lia|lia].
      * pose proof (Z.mul_div_le (Zpos m) (2 ^ (- e)) Hpos) as D1.
        pose proof (Z.mul_succ_div_gt (Zpos m) (2 ^ (- e)) Hpos) as D2.
        split; intros Hr.
        -- apply andb_prop in Hr. destruct Hr as [Hlo Hhi].
           apply Z.leb_le in Hlo, Hhi. split; nia.
        -- destruct Hr as [Hlo Hhi]. apply andb_true_intro.
           split; apply Z.leb_le; nia.
Qed.

Lemma validate_rating_valid (v : pyval) : validate_rating v = true <-> valid_rating v.
Proof.
  destruct v as [|b|n|f|s|l|d]; cbn [valid_rating].
  - split; [discriminate|contradiction].
  - destruct b; split; try reflexivity; discriminate.
  - apply validate_rating_int.
  - destruct (float_value f) as [q|] eqn:Hq.
    + rewrite (validate_rating_float f q Hq). split.
      * intros H. now exists q.
      * intros (q' & [= <-] & H). exact H.
    + split; [|intros (q & [=] & _)].
      destruct f; try discriminate Hq; discriminate.
  - unfold validate_rating, py_int. destruct (int_of_str s) as [r|e] eqn:Hs.
    + split.
      * intros Hr. exists r. split; [now apply int_of_str_text|lia].
      * intros (n & Ht & Hr). apply int_of_str_text in Ht.
        rewrite Hs in Ht. injection Ht as ->. lia.
    + split; [discriminate|]. intros (n & Ht & _).
      apply int_of_str_text in Ht. rewrite Hs in Ht. discriminate Ht.
  - split; [discriminate|contradiction].
  - split; [discriminate|contradiction].
Qed.

(** C7, as the code has it.  [validate_rating] returns true exactly for the
    inputs that [int] converts to an integer from 1 to 5: the integers 1 to
    5, [True], a float from 1 up to but not including 6, since [int] cuts
    off the fraction (3.5 is accepted, as 3), and a string that holds an
    integer numeral from 1 to 5 between white space; 0, 6 and "abc" are
    rejected, and so is the string "3.5". *)
Theorem validate_rating_exact :
  (forall v, validate_rating v = true <-> valid_rating v)
  /\ (forall v, validate_rating v = true <-> exists r, py_int v = Done r /\ 1 <= r <= 5)
  /\ (forall n, validate_rating (PInt n) = true <-> 1 <= n <= 5)
  /\ (forall f q, float_value f = Some q ->
        (validate_rating (PFloat f) = true <-> (1 <= q)%Q /\ (q < 6)%Q))
  /\ (forall s,
        validate_rating (PStr s) = true <-> exists n, int_text s n /\ 1 <= n <= 5)
  /\ validate_rating (PInt 0) = false
  /\ validate_rating (PInt 6) = false
  /\ validate_rating (PStr "abc") = false
  /\ validate_rating (PStr "3.5") = false.
Proof.
  split; [exact validate_rating_valid|].
  split; [|split; [exact validate_rating_int|split; [exact validate_rating_float|]]].
  - intros v. unfold validate_rating. destruct (py_int v) as [r|e]; split.
    + intros H. exists r. split; [reflexivity|lia].
    + intros (r' & [= <-] & H). lia.
    + discriminate.
    + intros (r' & [=] & _).
  - split; [|repeat split]. intros s. apply (validate_rating_valid (PStr s)).
Qed.

Lemma validate_rating_exact_witness :
  validate_rating (PInt 5) = true
  /\ validate_rating (PFloat (float_literal 6)) = false
  /\ validate_rating (PStr " +05 ") = true
  /\ validate_rating (PStr (String "031" "5")) = false.
Proof.
  destruct validate_rating_exact as (_ & _ & Hint & Hfloat & Hstr & _).
  split; [|split; [|split]].
  - apply (proj2 (Hint 5)). lia.
  - destruct (validate_rating (PFloat (float_literal 6))) eqn:H; [|reflexivity].
    apply (Hfloat (float_literal 6) _ eq_refl) in H. destruct H as [_ H].
    apply Qlt_not_le in H. exfalso. apply H. unfold Qle. cbn. lia.
  - apply (proj2 (Hstr " +05 ")). exists 5. split; [|lia].
    apply int_of_str_text. reflexivity.
  - destruct (validate_rating (PStr (String "031" "5"))) eqn:E; [|reflexivity].
    apply (proj1 (Hstr _)) in E. destruct E as (n & Ht & _).
    apply int_of_str_text in Ht. discriminate Ht.
Defined.

(** C7 as stated fails on the number 3.5: [int] truncates it to 3, which is
    in range, so it is accepted. *)
Lemma validate_rating_accepts_3_5 :
  float_of_str "3.5" = Done three_and_a_half
  /\ (exists q, float_value three_and_a_half = Some q /\ (q == 7 # 2)%Q)
  /\ py_int (PFloat three_and_a_half) = Done 3
  /\ validate_rating (PFloat three_and_a_half) = true.
Proof.
  split; [reflexivity|]. split; [|split; reflexivity].
  eexists. split; [reflexivity|]. vm_compute. reflexivity.
Qed.

(** ** Lists and queries *)

Lemma find_all_false {A} (p : A -> bool) (l : list A) :
  (forall x, In x l -> p x = false) -> find p l = None.
Proof.
  induction l as [|a l IH]; intros H; [reflexivity|].
  cbn. rewrite (H a (or_introl eq_refl)). apply IH. intros x Hx. apply H. now right.
Qed.

Lemma find_app_last {A} (p : A -> bool) (l : list A) (a : A) :
  find p l = None -> p a = true -> find p (l ++ [a]) = Some a.
Proof.
  induction l as [|b l IH]; cbn; intros Hn Ha; [now rewrite Ha|].
  destruct (p b); [discriminate|now apply IH].
Qed.

Lemma in_firstn {A} (n : nat) (l : list A) (x : A) : In x (firstn n l) -> In x l.
Proof. intros H. rewrite <- (firstn_skipn n l). apply in_or_app. now left. Qed.

Lemma in_skipn {A} (n : nat) (l : list A) (x : A) : In x (skipn n l) -> In x l.
Proof. intros H. rewrite <- (firstn_skipn n l). apply in_or_app. now right. Qed.

Lemma distinct_app_last (l : list string) (s : string) :
  distinct l = true -> (forall x, In x l -> x <> s) -> distinct (l ++ [s]) = true.
Proof.
  induction l as [|a l IH]; intros Hd Hn; [reflexivity|].
  cbn in *. apply andb_prop in Hd. destruct Hd as [Ha Hd].
  rewrite existsb_app, IH; auto. cbn.
  apply negb_true_iff in Ha. rewrite Ha. cbn.
  destruct (String.eqb_spec a s) as [Heq|_]; [|reflexivity].
  exfalso. apply (Hn a); auto.
Qed.

Lemma str_len_nonempty (s : string) : 1 <= str_len s -> String.eqb s "" = false.
Proof. destruct s; cbn; [lia|reflexivity]. Qed.

Lemma get_post_id (pid : Z) (db : DB) (post : Post.t) :
  get_post pid db = Some post -> Post.id post = pid.
Proof.
  intros H. apply find_some in H. destruct H as [_ H]. now apply Z.eqb_eq in H.
Qed.

Lemma get_post_update (pid q : Z) (g : Post.t -> Post.t) (db : DB) :
  (forall p, Post.id (g p) = Post.id p) ->
  get_post q (with_posts db (map (fun p => if Post.id p =? pid then g p else p) (posts db)))
  = option_map (fun p => if Post.id p =? pid then g p else p) (get_post q db).
Proof.
  intros Hid. unfold get_post. cbn [posts with_posts].
  induction (posts db) as [|a l IH]; [reflexivity|].
  cbn [map find].
  replace (Post.id (if Post.id a =? pid then g a else a)) with (Post.id a)
    by (destruct (Post.id a =? pid); [now rewrite Hid|reflexivity]).
  destruct (Post.id a =? q); [reflexivity|exact IH].
Qed.

(** ** Reasoning about handlers *)

Section Keeps.

Context (I : Env -> Prop) `{HI : Invariant I}.

Lemma keeps_ret {A} (a : A) : keeps I (ret a).
Proof. intros env H. exact H. Qed.

Lemma keeps_raise {A} (e : exn) : keeps I (@raise A e).
Proof. intros env H. exact H. Qed.

Lemma keeps_lift {A} (o : outcome A) : keeps I (lift o).
Proof. intros env H. exact H. Qed.

Lemma keeps_reads {A} (f : DB -> A) : keeps I (reads f).
Proof. intros env H. exact H. Qed.

Lemma keeps_bind {A B} (m : M A) (k : A -> M B) :
  keeps I m -> (forall a, keeps I (k a)) -> keeps I (bind m k).
Proof.
  intros Hm Hk env H. unfold bind. specialize (Hm env H).
  destruct (m env) as [[a|e] env']; cbn in *; [now apply Hk|exact Hm].
Qed.

(** A pure step hands its value on together with the equation that
    produced it. *)
Lemma keeps_bind_lift {A B} (o : outcome A) (k : A -> M B) :
  (forall a, o = Done a -> keeps I (k a)) -> keeps I (bind (lift o) k).
Proof.
  intros Hk env H. unfold bind, lift.
  destruct o as [a|e]; cbn; [now apply (Hk a)|exact H].
Qed.

Lemma keeps_bind_ret {A B} (a : A) (k : A -> M B) :
  keeps I (k a) -> keeps I (bind (ret a) k).
Proof. intros Hk env H. now apply Hk. Qed.

Lemma keeps_bind_assoc {A B C} (m : M A) (f : A -> M B) (k : B -> M C) :
  keeps I (bind m (fun a => bind (f a) k)) -> keeps I (bind (bind m f) k).
Proof.
  intros Hk env H. specialize (Hk env H). unfold bind in *.
  destruct (m env) as [[a|e] env']; [|exact Hk].
  destruct (f a env') as [[b|e] env'']; exact Hk.
Qed.

Lemma keeps_bind_reads {A B} (f : DB -> A) (k : A -> M B) :
  (forall a, keeps I (k a)) -> keeps I (bind (reads f) k).
Proof. intros Hk. apply keeps_bind; [apply keeps_reads|exact Hk]. Qed.

Lemma keeps_or_404 {A} (params : list Z) (q : DB -> option A) : keeps I (or_404 params q).
Proof. intros env H. unfold or_404. destruct (q (pending env)); exact H. Qed.

Lemma keeps_get_current_user : keeps I get_current_user.
Proof. intros env H. unfold get_current_user. destruct (session env); exact H. Qed.

Lemma keeps_attr {A} (user : option User.t) (f : User.t -> A) : keeps I (attr user f).
Proof. destruct user; [apply keeps_ret|apply keeps_raise]. Qed.

Lemma keeps_bind_text (v : pyval) : keeps I (bind_text v).
Proof.
  intros env H. unfold bind_text.
  destruct v; cbn; try exact H; now apply inv_flags.
Qed.

Lemma keeps_bind_int (n : Z) : keeps I (bind_int n).
Proof.
  intros env H. unfold bind_int.
  destruct (sqlite_int n); cbn; [exact H|now apply inv_flags].
Qed.

Lemma keeps_set_session (uid : Z) : keeps I (set_session uid).
Proof. intros env H. now apply inv_flags. Qed.

Lemma keeps_session_clear : keeps I session_clear.
Proof. intros env H. now apply inv_flags. Qed.

Lemma keeps_db_commit `{HC : !CommitInvariant I} : keeps I db_commit.
Proof.
  intros env H. unfold db_commit.
  destruct (unflushable env) eqn:Hf; [exact H|].
  destruct (constraints_ok (pending env)) eqn:Hc; [|exact H].
  now apply inv_commit.
Qed.

Lemma keeps_db_rollback : keeps I db_rollback.
Proof. intros env H. now apply inv_rollback. Qed.

Lemma keeps_writes (f : DB -> DB) : write_keeps I f -> keeps I (writes f).
Proof. intros Hf env H. now apply Hf. Qed.

Lemma keeps_api_error (e : exn) : keeps I (api_error e).
Proof.
  unfold api_error. apply keeps_bind; [apply keeps_db_rollback|].
  intros _. apply keeps_ret.
Qed.

Lemma keeps_try_except (body : M response) (handler : exn -> M response) :
  keeps I body -> (forall e, keeps I (handler e)) -> keeps I (try_except body handler).
Proof.
  intros Hb Hh env H. unfold try_except. specialize (Hb env H).
  destruct (body env) as [[r|e] env']; cbn in *; [exact Hb|now apply Hh].
Qed.

Lemma keeps_login_required (f : M response) :
  keeps I f -> keeps I (login_required f).
Proof.
  intros Hf env H. unfold login_required.
  destruct (session env); [now apply Hf|exact H].
Qed.

Lemma keeps_when (b : bool) (m : M unit) : keeps I m -> keeps I (when b m).
Proof. intros Hm. destruct b; [exact Hm|apply keeps_ret]. Qed.

Lemma keeps_or_else (a b : M bool) : keeps I a -> keeps I b -> keeps I (or_else a b).
Proof.
  intros Ha Hb. unfold or_else. apply keeps_bind; [exact Ha|].
  intros [|]; [apply keeps_ret|exact Hb].
Qed.

Lemma keeps_missing_field (data : pyval) (k : string) : keeps I (missing_field data k).
Proof.
  unfold missing_field. apply keeps_bind; [apply keeps_lift|]. intros v. apply keeps_ret.
Qed.

Lemma keeps_price_or_none (get : outcome pyval) : keeps I (price_or_none get).
Proof.
  unfold price_or_none. apply keeps_bind; [apply keeps_lift|]. intros c.
  destruct (truthy c); [|apply keeps_ret].
  apply keeps_bind; [apply keeps_lift|]. intros v.
  apply keeps_bind; [apply keeps_lift|]. intros f. apply keeps_ret.
Qed.

Lemma keeps_paginate (rows : list Post.t) (page per_page : Z) :
  keeps I (paginate rows page per_page).
Proof.
  unfold paginate. destruct (page <? 1); [apply keeps_raise|].
  destruct (firstn _ _); [destruct (page =? 1)|];
    first [apply keeps_ret|apply keeps_raise].
Qed.

(** What a request leaves in the store satisfies the invariant of the
    committed database. *)
Lemma keeps_run (h : M response) (db : DB) (cookie : option Z) :
  keeps I h -> I (mkEnv db db None cookie) ->
  exists env, I env /\ store_of (run h db cookie) = committed env.
Proof.
  intros Hh H0. specialize (Hh _ H0). unfold run, store_of.
  destruct (h (mkEnv db db None cookie)) as [[r|e] env']; cbn in *;
    exists env'; split; auto.
Qed.

End Keeps.

(** One step of a handler, for a goal [keeps I _]; [w] closes the side
    condition of a write. *)
Ltac keeps_step w :=
  lazymatch goal with
  | |- keeps _ (ret _) => apply keeps_ret
  | |- keeps _ (raise _) => apply keeps_raise
  | |- keeps _ (lift _) => apply keeps_lift
  | |- keeps _ (reads _) => apply keeps_reads
  | |- keeps _ (or_404 _ _) => apply keeps_or_404
  | |- keeps _ get_current_user => apply keeps_get_current_user
  | |- keeps _ (attr _ _) => apply keeps_attr
  | |- keeps _ (bind_text _) => apply keeps_bind_text
  | |- keeps _ (bind_int _) => apply keeps_bind_int
  | |- keeps _ (set_session _) => apply keeps_set_session
  | |- keeps _ session_clear => apply keeps_session_clear
  | |- keeps _ db_commit => apply keeps_db_commit
  | |- keeps _ db_rollback => apply keeps_db_rollback
  | |- keeps _ (api_error _) => apply keeps_api_error
  | |- keeps _ (missing_field _ _) => apply keeps_missing_field
  | |- keeps _ (price_or_none _) => apply keeps_price_or_none
  | |- keeps _ (paginate _ _ _) => apply keeps_paginate
  | |- keeps _ (writes _) => apply keeps_writes; w
  | |- keeps _ (try_except _ _) => apply keeps_try_except; [|intros ?]
  | |- keeps _ (login_required _) => apply keeps_login_required
  | |- keeps _ (when _ _) => apply keeps_when
  | |- keeps _ (or_else _ _) => apply keeps_or_else
  | |- keeps _ (bind (lift _) _) => apply keeps_bind_lift; intros ? ?
  | |- keeps _ (bind (ret _) _) => apply keeps_bind_ret
  | |- keeps _ (bind (bind _ _) _) => apply keeps_bind_assoc
  | |- keeps _ (bind (if ?b then _ else _) _) => destruct b eqn:?
  | |- keeps _ (bind (match ?x with _ => _ end) _) => destruct x eqn:?
  | |- keeps _ (bind (when _ _) _) => unfold when
  | |- keeps _ (bind (price_or_none _) _) => unfold price_or_none
  | |- keeps _ (bind (missing_field _ _) _) => unfold missing_field
  | |- keeps _ (bind (or_else _ _) _) => unfold or_else
  | |- keeps _ (bind _ _) => apply keeps_bind; [|intros ?]
  | |- keeps _ (if ?b then _ else _) => destruct b eqn:?
  | |- keeps _ (match ?x with _ => _ end) => destruct x eqn:?
  end.

Ltac keeps_auto w := repeat keeps_step w; try exact _.

Ltac same_env := idtac; let H := fresh in intros ? H; exact H.

#[local] Instance both_invariant (P : DB -> Prop) : Invariant (both P).
Proof.
  split; unfold both; cbn.
  - intros env [Hc _]. now split.
  - intros env f s H. exact H.
Qed.

#[local] Instance both_commit_invariant (P : DB -> Prop) : CommitInvariant (both P).
Proof. split. unfold both. cbn. intros env [_ Hp] _ _. now split. Qed.

#[local] Instance constraints_invariant :
  Invariant (fun env => constraints_ok (committed env) = true).
Proof. split; cbn; auto. Qed.

#[local] Instance constraints_commit_invariant :
  CommitInvariant (fun env => constraints_ok (committed env) = true).
Proof. split; cbn; auto. Qed.

#[local] Instance committed_invariant (db : DB) :
  Invariant (fun env => committed env = db).
Proof. split; cbn; auto. Qed.

Ltac unfold_rows :=
  unfold sample_posts, logout, user_by_username, user_by_email;
  unfold db_add_user, db_add_post, db_add_commission, db_add_review,
    db_add_favorite, db_add_order, update_user_row, update_post_row,
    db_delete_post, db_delete_commission, db_delete_favorite.

Ltac unfold_views :=
  unfold view, search, edit_profile, register, login, create_post, delete_post,
    update_post, add_favorite, remove_favorite, create_review, create_order,
    create_commission, delete_commission, seed_data.

Ltac run_view :=
  unfold run, login_required, try_except, api_error, bind, get_current_user,
    or_404, attr, ret, reads, writes, db_commit, db_rollback;
  cbn [session pending committed unflushable fst snd].

(** ** The constraints of the schema hold in every reachable store *)

Lemma view_keeps_constraints gen chk txt (r : request) :
  keeps (fun env => constraints_ok (committed env) = true) (view gen chk txt r).
Proof.
  destruct r; unfold_views; unfold_rows;
    keeps_auto same_env.
Qed.

Lemma reachable_constraints_ok gen chk txt (db : DB) :
  reachable gen chk txt db -> constraints_ok db = true.
Proof.
  induction 1 as [|db cookie r _ IH]; [reflexivity|].
  destruct (keeps_run _ _ db cookie (view_keeps_constraints gen chk txt r) IH)
    as (env & Henv & ->).
  exact Henv.
Qed.

(** ** The sample stores are reachable *)

Lemma reachable_replay gen chk txt (reqs : list (option Z * request)) (db : DB) :
  reachable gen chk txt db -> reachable gen chk txt (replay gen chk txt reqs db).
Proof.
  revert db. induction reqs as [|[cookie r] reqs IH]; intros db H; [exact H|].
  cbn [replay fold_left]. apply IH. now apply reachable_step.
Qed.

Lemma plain_check_hash (s x : string) : plain_check (plain_hash s x) x = true.
Proof. apply String.eqb_refl. Qed.

Lemma sample_db_reachable : reachable plain_hash plain_check no_real_text sample_db.
Proof.
  change sample_db
    with (replay plain_hash plain_check no_real_text sample_requests empty_db).
  apply reachable_replay, reachable_empty.
Qed.

(** ** Ownership *)

(** C1. A logged-in user who is not the owner gets 403 "Unauthorized" from
    [update_post], [delete_post] and [delete_commission], and the store is
    left exactly as it was. *)
Theorem foreign_owner_is_refused (db : DB) (uid : Z) (u : User.t) :
  get_user uid db = Some u ->
  (forall pid post data,
      get_post pid db = Some post -> Post.user_id post <> User.id u ->
      run (update_post pid data) db (Some uid)
        = (jsonify_error "Unauthorized" 403, db, Some uid)
      /\ run (delete_post pid) db (Some uid)
        = (jsonify_error "Unauthorized" 403, db, Some uid))
  /\ (forall cid c,
      get_commission cid db = Some c -> Commission.artist_id c <> User.id u ->
      run (delete_commission cid) db (Some uid)
        = (jsonify_error "Unauthorized" 403, db, Some uid)).
Proof.
  intros Hu. split.
  - intros pid post data Hp Hne.
    apply Z.eqb_neq in Hne.
    unfold run, update_post, delete_post, login_required, try_except, bind,
      get_current_user, or_404, attr, ret.
    cbn [session pending]. rewrite Hu, Hp. cbn. rewrite Hne. cbn. split; reflexivity.
  - intros cid c Hc Hne.
    apply Z.eqb_neq in Hne.
    unfold run, delete_commission, login_required, try_except, bind,
      get_current_user, or_404, attr, ret.
    cbn [session pending]. rewrite Hu, Hc. cbn. rewrite Hne. reflexivity.
Qed.

Lemma foreign_owner_is_refused_witness :
  run (update_post 1 (PDict [("title", PStr "Mine")])) sample_db (Some 2)
    = (jsonify_error "Unauthorized" 403, sample_db, Some 2)
  /\ run (delete_post 1) sample_db (Some 2)
    = (jsonify_error "Unauthorized" 403, sample_db, Some 2)
  /\ run (delete_commission 1) sample_db (Some 2)
    = (jsonify_error "Unauthorized" 403, sample_db, Some 2).
Proof.
  destruct (foreign_owner_is_refused sample_db 2 bob eq_refl) as [Hpost Hcommission].
  destruct (Hpost 1 sky (PDict [("title", PStr "Mine")]) eq_refl) as [Hu Hd].
  { cbn. lia. }
  split; [exact Hu|]. split; [exact Hd|].
  apply (Hcommission 1 portrait eq_refl). cbn. lia.
Defined.

(** ** All-or-nothing updates *)

(** What the handler itself returns on an invalid price: the 400 answer,
    with the committed database and the session entry untouched. *)
Lemma update_post_invalid_price (db : DB) (uid : Z) (u : User.t) (pid : Z)
    (post : Post.t) (patch : Patch) (v : pyval) :
  get_user uid db = Some u ->
  get_post pid db = Some post ->
  Post.user_id post = User.id u ->
  patch_price patch = Some v ->
  validate_price v = false ->
  exists env,
    update_post pid (patch_data patch) (mkEnv db db None (Some uid))
      = (Done (jsonify_error "Invalid price" 400), env)
    /\ committed env = db /\ session env = Some uid.
Proof.
  intros Hu Hp Ho Hv Hbad.
  apply Z.eqb_eq in Ho.
  destruct patch as [t d pr s]. cbn in Hv. subst pr.
  unfold update_post, login_required, try_except, bind,
    get_current_user, or_404, attr, ret.
  cbn [session pending]. rewrite Hu, Hp. cbn [fst snd]. rewrite Ho. cbn [negb].
  destruct t as [t|], d as [d|], s as [s|]; cbn; rewrite Hbad;
    eexists; (split; [reflexivity|split; reflexivity]).
Qed.

(** C2. When the owner sends a patch whose price fails [validate_price],
    [update_post] answers 400 "Invalid price" and the store is unchanged:
    the title and description of the same patch, already assigned in the
    session, are not committed. *)
Theorem invalid_price_commits_nothing (db : DB) (uid : Z) (u : User.t) (pid : Z)
    (post : Post.t) (patch : Patch) (v : pyval) :
  get_user uid db = Some u ->
  get_post pid db = Some post ->
  Post.user_id post = User.id u ->
  patch_price patch = Some v ->
  validate_price v = false ->
  run (update_post pid (patch_data patch)) db (Some uid)
    = (jsonify_error "Invalid price" 400, db, Some uid).
Proof.
  intros Hu Hp Ho Hv Hbad.
  destruct (update_post_invalid_price db uid u pid post patch v Hu Hp Ho Hv Hbad)
    as (env & Hrun & Hcommitted & Hsession).
  unfold run. rewrite Hrun, Hcommitted, Hsession. reflexivity.
Qed.

Lemma invalid_price_commits_nothing_witness :
  run (update_post 1 (patch_data (mkPatch (Some "Storm") (Some "Dark clouds")
                                    (Some (PInt 0)) None)))
    sample_db (Some 1)
  = (jsonify_error "Invalid price" 400, sample_db, Some 1).
Proof.
  exact (invalid_price_commits_nothing sample_db 1 alice 1 sky
           (mkPatch (Some "Storm") (Some "Dark clouds") (Some (PInt 0)) None) (PInt 0)
           eq_refl eq_refl eq_refl eq_refl eq_refl).
Defined.

(** In that run the session does hold the new title and description when
    the handler returns; they are dropped with the session. *)
Example invalid_price_leaves_patch_pending :
  let env := snd (update_post 1 (patch_data (mkPatch (Some "Storm") (Some "Dark clouds")
                                               (Some (PInt 0)) None))
                    (mkEnv sample_db sample_db None (Some 1))) in
  option_map Post.title (get_post 1 (pending env)) = Some "Storm"
  /\ option_map Post.description (get_post 1 (pending env)) = Some "Dark clouds"
  /\ committed env = sample_db.
Proof. repeat split. Qed.

(** A title that is not a string cannot be sliced: the handler raises
    before it reaches the price and answers 500; the store is unchanged all
    the same. *)
Example invalid_price_after_bad_title :
  run (update_post 1 (PDict [("title", PInt 5); ("price", PInt 0)])) sample_db (Some 1)
  = (mkResponse (JsonException TypeError) 500, sample_db, Some 1).
Proof. reflexivity. Qed.

(** ** Commit or nothing *)

Section AllOrNothing.

Variables (db0 : DB) (r : response).

Lemma aon_ret (x : response) : all_or_nothing db0 r (ret x).
Proof. intros env H. now left. Qed.

Lemma aon_bind {A} (m : M A) (k : A -> M response) :
  keeps (fun env => committed env = db0) m ->
  (forall a, all_or_nothing db0 r (k a)) ->
  all_or_nothing db0 r (bind m k).
Proof.
  intros Hm Hk env H. specialize (Hm env H). unfold bind.
  destruct (m env) as [[a|e] env']; cbn in *; [now apply Hk|now left].
Qed.

Lemma aon_commit (k : unit -> M response) :
  (forall u, k u = ret r) -> all_or_nothing db0 r (bind db_commit k).
Proof.
  intros Hk env H. unfold bind, db_commit.
  destruct (unflushable env); [now left|].
  destruct (constraints_ok (pending env)); [|now left].
  rewrite Hk. now right.
Qed.

Lemma aon_try_except (body : M response) :
  all_or_nothing db0 r body -> all_or_nothing db0 r (try_except body api_error).
Proof.
  intros Hb env H. specialize (Hb env H). unfold try_except.
  destruct (body env) as [[x|e] env']; cbn in *; [exact Hb|].
  destruct Hb as [Hb|Hb]; [now left|discriminate].
Qed.

Lemma aon_login_required (f : M response) :
  all_or_nothing db0 r f -> all_or_nothing db0 r (login_required f).
Proof.
  intros Hf env H. unfold login_required. destruct (session env); [now apply Hf|now left].
Qed.

End AllOrNothing.

Ltac aon_step :=
  lazymatch goal with
  | |- all_or_nothing _ _ (ret _) => apply aon_ret
  | |- all_or_nothing _ _ (login_required _) => apply aon_login_required
  | |- all_or_nothing _ _ (try_except _ api_error) => apply aon_try_except
  | |- all_or_nothing _ _ (bind db_commit _) => apply aon_commit; intros ?; reflexivity
  | |- all_or_nothing _ _ (bind _ _) =>
      apply aon_bind; [keeps_auto same_env|intros ?]
  | |- all_or_nothing _ _ (if ?b then _ else _) => destruct b
  | |- all_or_nothing _ _ (match ?x with _ => _ end) => destruct x
  end.

(** Whatever the body of the request, [update_post] changes the store only
    when it answers 200: a request that fails leaves no part of its patch
    behind. *)
Lemma update_post_commits_or_nothing (db : DB) (cookie : option Z) (pid : Z) (data : pyval) :
  store_of (run (update_post pid data) db cookie) = db
  \/ response_of (run (update_post pid data) db cookie)
     = jsonify [("success", PBool true)] 200.
Proof.
  assert (H : all_or_nothing db (jsonify [("success", PBool true)] 200)
                (update_post pid data)).
  { unfold update_post, update_post_row. repeat aon_step. }
  specialize (H (mkEnv db db None cookie) eq_refl).
  unfold run, store_of, response_of.
  destruct (update_post pid data _) as [[x|e] env']; cbn in *.
  - destruct H as [H|[= ->]]; [now left|now right].
  - destruct H as [H|H]; [now left|discriminate].
Qed.

(** ** Prices under [update_post] *)

Lemma price_safe_write (db0 : DB) (pid : Z) (g : Post.t -> Post.t) :
  (forall p, Post.id (g p) = Post.id p) ->
  (forall p, Post.price (g p) = Post.price p
             \/ exists f, Post.price (g p) = Some f /\ price_in_range f = true) ->
  write_keeps (both (price_safe db0))
    (fun db => with_posts db (map (fun p => if Post.id p =? pid then g p else p) (posts db))).
Proof.
  intros Hid Hprice env [Hc Hp]. split; [exact Hc|]. cbn [pending].
  intros q post' Hq. rewrite get_post_update in Hq by exact Hid.
  destruct (get_post q (pending env)) as [p|] eqn:Hgp; [|discriminate].
  injection Hq as <-. destruct (Hp q p Hgp) as (post & Hpost & Hsafe).
  exists post. split; [exact Hpost|].
  destruct (Post.id p =? pid); [|exact Hsafe].
  destruct (Hprice p) as [->|Hin]; [exact Hsafe|now right].
Qed.

Ltac same_price_facts :=
  repeat match goal with
         | H : negb _ = false |- _ => apply negb_false_iff in H
         | H1 : ?x = Done _, H2 : ?x = Done _ |- _ =>
             rewrite H1 in H2; injection H2 as ->
         end.

Lemma update_post_keeps_price_safe (db0 : DB) (pid : Z) (data : pyval) :
  keeps (both (price_safe db0)) (update_post pid data).
Proof.
  unfold update_post, update_post_row.
  keeps_auto ltac:(idtac; apply price_safe_write;
                   [intros ?; reflexivity | intros ?; left; reflexivity]).
  all: try congruence.
  all: same_price_facts.
  all: try match goal with
           | H : validate_price ?v = true, Hf : truthy ?v = false |- _ =>
               apply validate_price_truthy in H; congruence
           end.
  all: apply keeps_writes, price_safe_write; [intros ?; reflexivity|].
  all: intros p; right; eexists; split; [reflexivity|].
  all: match goal with
       | H : validate_price _ = true, Hf : py_float _ = Done _ |- _ =>
           unfold validate_price in H; rewrite Hf in H; exact H
       end.
Qed.

(** [update_post] never clears a price: whatever the request, a post of
    the resulting store has the price it had or a valid one. *)
Lemma update_post_never_clears_price (db : DB) (cookie : option Z) (pid : Z) (data : pyval) :
  price_safe db (store_of (run (update_post pid data) db cookie)).
Proof.
  assert (H0 : both (price_safe db) (mkEnv db db None cookie)).
  { split; intros q post' Hq; exists post'; auto. }
  destruct (keeps_run _ _ db cookie (update_post_keeps_price_safe db pid data) H0)
    as (env & [Henv _] & ->).
  exact Henv.
Qed.

(** C10. [update_post] cannot store a null price.  For the owner and a
    patch with a price field, either the price fails validation and the
    answer is 400 with the store unchanged, or it converts to a float in
    (0, 999999] which is what the post holds afterwards; a falsy price
    always fails validation, so the branch assigning [None] is never taken;
    and for any request at all a stored price stays or becomes a valid
    float. *)
Theorem update_post_price_never_null :
  (forall db uid u pid post patch v,
      constraints_ok db = true ->
      get_user uid db = Some u ->
      get_post pid db = Some post ->
      Post.user_id post = User.id u ->
      patch_price patch = Some v ->
      let r := run (update_post pid (patch_data patch)) db (Some uid) in
      (validate_price v = false
       /\ r = (jsonify_error "Invalid price" 400, db, Some uid))
      \/ (exists f,
            py_float v = Done f /\ price_in_range f = true
            /\ r = (jsonify [("success", PBool true)] 200,
                    with_posts db
                      (map (fun p => if Post.id p =? pid
                                     then apply_patch patch (Some f) p else p)
                         (posts db)),
                    Some uid)
            /\ option_map Post.price (get_post pid (store_of r)) = Some (Some f)))
  /\ (forall v, truthy v = false -> validate_price v = false)
  /\ (forall db cookie pid data,
        price_safe db (store_of (run (update_post pid data) db cookie))).
Proof.
  split; [|split].
  - intros db uid u pid post patch v Hc Hu Hp Ho Hv r.
    destruct (validate_price v) eqn:Hval.
    + right. pose proof (validate_price_truthy v Hval) as Htruthy.
      pose proof Hval as Hf. apply validate_price_float in Hf.
      destruct Hf as (f & Hf & Hrange). exists f. split; [exact Hf|]. split; [exact Hrange|].
      pose proof (get_post_id pid db post Hp) as Hid.
      assert (Hc' : forall l, constraints_ok (with_posts db l) = true)
        by (intros l; exact Hc).
      assert (Hr : r = (jsonify [("success", PBool true)] 200,
                        with_posts db
                          (map (fun p => if Post.id p =? pid
                                         then apply_patch patch (Some f) p else p)
                             (posts db)),
                        Some uid)).
      { subst r. apply Z.eqb_eq in Ho.
        destruct patch as [t d pr s]. cbn in Hv. subst pr.
        unfold update_post, update_post_row, price_or_none, when, bind_text, lift.
        run_view. rewrite Hu, Hp. cbn [fst snd]. rewrite Ho, Hid. cbn [negb].
        destruct t as [t|], d as [d|], s as [s|];
          cbn -[constraints_ok str_take]; rewrite Hval;
          cbn -[constraints_ok str_take]; rewrite Htruthy, Hf;
          cbn -[constraints_ok str_take]; unfold constraints_ok in *;
          cbn -[str_take]; rewrite Hc;
          unfold with_posts; cbn -[str_take];
          do 2 f_equal; f_equal; rewrite ?map_map; apply map_ext; intros p;
          unfold apply_patch; cbn -[str_take];
          destruct (Post.id p =? pid) eqn:Hp'; cbn -[str_take];
          rewrite ?Hp'; cbn -[str_take]; rewrite ?Hp'; cbn -[str_take];
          rewrite ?Hp'; reflexivity. }
      split; [exact Hr|].
      rewrite Hr. cbn [store_of fst snd].
      rewrite get_post_update, Hp.
      * cbn [option_map]. rewrite Hid, Z.eqb_refl. f_equal.
        unfold apply_patch. rewrite Hv.
        destruct (patch_title patch), (patch_description patch),
          (patch_is_for_sale patch); reflexivity.
      * intros p. unfold apply_patch.
        destruct (patch_title patch), (patch_description patch), (patch_price patch),
          (patch_is_for_sale patch); reflexivity.
    + left. split; [reflexivity|].
      destruct (update_post_invalid_price db uid u pid post patch v Hu Hp Ho Hv Hval)
        as (env & Hrun & Hcommitted & Hsession).
      subst r. unfold run. rewrite Hrun, Hcommitted, Hsession. reflexivity.
  - intros v Hfalsy. destruct (validate_price v) eqn:Hval; [|reflexivity].
    apply validate_price_truthy in Hval. congruence.
  - exact update_post_never_clears_price.
Qed.

Lemma update_post_price_never_null_witness :
  run (update_post 2 (patch_data (mkPatch (Some "Sketch II") None (Some (PStr "12.5")) None)))
    sample_db (Some 1)
  = (jsonify [("success", PBool true)] 200,
     with_posts sample_db
       [sky; Post.mk 2 "Sketch II" "" "http://x/2.png"
               (Some (float_of_decimal false 125 (-1))) true 1 0],
     Some 1).
Proof.
  destruct update_post_price_never_null as [H _].
  destruct (H sample_db 1 alice 2 sketch
              (mkPatch (Some "Sketch II") None (Some (PStr "12.5")) None) (PStr "12.5")
              eq_refl eq_refl eq_refl eq_refl eq_refl)
    as [[Hbad _]|(f & Hf & _ & Hr & _)].
  - discriminate Hbad.
  - injection Hf as <-. exact Hr.
Defined.

(** ** Creating posts *)

(** C6, as the code has it.  With a logged-in user: a price that is present
    and truthy but fails [validate_price] gives 400 and no post (the title
    being absent or a string); a price that is absent or falsy, zero
    included, is read as no price, and a request with a title of at most
    200 characters and an image is stored with a null price and answered
    with 201. *)
Theorem create_post_price (db : DB) (uid : Z) (u : User.t) (now : Z) :
  constraints_ok db = true ->
  get_user uid db = Some u ->
  (forall d v,
      assoc "price" d = Some v -> truthy v = true -> validate_price v = false ->
      (assoc "title" d = None \/ exists s, assoc "title" d = Some (PStr s)) ->
      exists msg,
        run (create_post now (PDict d)) db (Some uid) = (jsonify_error msg 400, db, Some uid))
  /\ (forall n,
      1 <= str_len (new_title n) <= 200 ->
      1 <= str_len (new_image_url n) ->
      no_price (new_price n) ->
      run (create_post now (new_post_data n)) db (Some uid)
      = (jsonify [("success", PBool true);
                  ("post_id", PInt (Post.id (unpriced_post db n (User.id u) now)))] 201,
         with_posts db (posts db ++ [unpriced_post db n (User.id u) now]),
         Some uid)).
Proof.
  intros Hc Hu. split.
  - intros d v Hprice Htruthy Hbad Htitle.
    unfold create_post, or_else, missing_field, lift. run_view. rewrite Hu.
    destruct Htitle as [Ht|[s Ht]]; cbn -[Z.ltb str_len]; rewrite Ht;
      cbn -[Z.ltb str_len]; [eexists; reflexivity|].
    destruct (String.eqb s ""); cbn -[Z.ltb str_len]; [eexists; reflexivity|].
    destruct (assoc "image_url" d) as [i|]; cbn -[Z.ltb str_len];
      [|eexists; reflexivity].
    destruct (truthy i); cbn -[Z.ltb str_len]; [|eexists; reflexivity].
    destruct (200 <? str_len s); cbn -[Z.ltb str_len]; [eexists; reflexivity|].
    rewrite Hprice, Htruthy. cbn -[Z.ltb str_len]. rewrite Hbad. cbn.
    eexists; reflexivity.
  - intros [t de i pr s] Ht Hi Hnp. cbn in Ht, Hi, Hnp.
    assert (Ht0 : String.eqb t "" = false) by (apply str_len_nonempty; lia).
    assert (Hi0 : String.eqb i "" = false) by (apply str_len_nonempty; lia).
    assert (Hlen : (200 <? str_len t) = false) by (apply Z.ltb_ge; lia).
    assert (Hc' : forall l, constraints_ok (with_posts db l) = true) by (intros l; exact Hc).
    unfold create_post, new_post_data, unpriced_post, price_or_none, db_add_post,
      or_else, missing_field, bind_text, lift.
    run_view. rewrite Hu.
    destruct de as [de|], pr as [pr|], s as [s|];
      cbn -[Z.ltb str_len next_id constraints_ok str_take];
      rewrite ?Ht0, ?Hi0; cbn -[Z.ltb str_len next_id constraints_ok str_take];
      rewrite ?Hlen; cbn -[Z.ltb str_len next_id constraints_ok str_take];
      rewrite ?Hnp; cbn -[Z.ltb str_len next_id constraints_ok str_take];
      rewrite ?Hi0; cbn -[Z.ltb str_len next_id constraints_ok str_take];
      rewrite ?Hnp; cbn -[Z.ltb str_len next_id constraints_ok str_take];
      rewrite Hc'; reflexivity.
Qed.

Lemma create_post_price_witness :
  (exists msg,
      run (create_post 7 (PDict [("title", PStr "Dawn"); ("image_url", PStr "http://x/3.png");
                                 ("price", PInt (-5))]))
        sample_db (Some 1)
      = (jsonify_error msg 400, sample_db, Some 1))
  /\ run (create_post 7 (new_post_data (mkNewPost "Dawn" None "http://x/3.png" None None)))
       sample_db (Some 1)
     = (jsonify [("success", PBool true); ("post_id", PInt 3)] 201,
        with_posts sample_db
          [sky; sketch; Post.mk 3 "Dawn" "" "http://x/3.png" None false 1 7],
        Some 1).
Proof.
  destruct (create_post_price sample_db 1 alice 7 eq_refl eq_refl) as [Ha Hb].
  split.
  - apply (Ha _ (PInt (-5))); [reflexivity|reflexivity|reflexivity|].
    right. now exists "Dawn".
  - apply (Hb (mkNewPost "Dawn" None "http://x/3.png" None None)); cbn; [lia|lia|exact I].
Defined.

(** C6 as stated fails on a price of 0: zero is falsy, so [create_post]
    reads it as no price, skips the validation and stores the post with a
    null price. *)
Lemma create_post_accepts_zero_price :
  validate_price (PInt 0) = false
  /\ run (create_post 7 (PDict [("title", PStr "Dawn"); ("image_url", PStr "http://x/3.png");
                                ("price", PInt 0)]))
       sample_db (Some 1)
     = (jsonify [("success", PBool true); ("post_id", PInt 3)] 201,
        with_posts sample_db
          [sky; sketch; Post.mk 3 "Dawn" "" "http://x/3.png" None false 1 7],
        Some 1).
Proof. split; reflexivity. Qed.

(** ** Orders *)

(** C3, as the code has it.  For a logged-in user and an existing post,
    [create_order] answers 400 when the post is not for sale, 400 when the
    user owns it, and otherwise, when the post has a price, appends exactly
    one order with that price and status "pending" and returns its id with
    201; when the post has no price the store is left as it was. *)
Theorem create_order_eligibility (db : DB) (uid : Z) (u : User.t) (pid : Z)
    (post : Post.t) (now : Z) :
  constraints_ok db = true ->
  get_user uid db = Some u ->
  get_post pid db = Some post ->
  let r := run (create_order now pid) db (Some uid) in
  (Post.is_for_sale post = false ->
   r = (jsonify_error "Post not for sale" 400, db, Some uid))
  /\ (Post.is_for_sale post = true -> Post.user_id post = User.id u ->
      r = (jsonify_error "Cannot buy own post" 400, db, Some uid))
  /\ (Post.is_for_sale post = true -> Post.user_id post <> User.id u ->
      forall p, Post.price post = Some p ->
      r = (jsonify [("success", PBool true);
                    ("order_id", PInt (Order.id (order_for db (User.id u) post now)))] 201,
           with_orders db (orders db ++ [order_for db (User.id u) post now]),
           Some uid)
      /\ Order.price (order_for db (User.id u) post now) = Post.price post
      /\ Order.status (order_for db (User.id u) post now) = "pending")
  /\ (Post.is_for_sale post = true -> Post.user_id post <> User.id u ->
      Post.price post = None -> store_of r = db).
Proof.
  intros Hc Hu Hp r. subst r.
  pose proof (get_post_id pid db post Hp) as Hid.
  unfold create_order, db_add_order, order_for, store_of. run_view.
  rewrite Hu, Hp. cbn [fst snd]. split; [|split; [|split]].
  - intros ->. reflexivity.
  - intros -> Ho. apply Z.eqb_eq in Ho. cbn. now rewrite Ho.
  - intros -> Hne amount Hprice. apply Z.eqb_neq in Hne. cbn. rewrite Hne. cbn.
    unfold constraints_ok in *. cbn. rewrite forallb_app. cbn.
    rewrite Hprice, Hid. cbn. rewrite andb_true_r, Hc. repeat split.
  - intros -> Hne Hprice. apply Z.eqb_neq in Hne. cbn. rewrite Hne. cbn.
    unfold constraints_ok. cbn. rewrite forallb_app. cbn.
    rewrite Hprice. cbn. rewrite !andb_false_r. reflexivity.
Qed.

Lemma create_order_eligibility_witness :
  run (create_order 7 1) sample_db (Some 2)
    = (jsonify [("success", PBool true); ("order_id", PInt 1)] 201,
       with_orders sample_db [Order.mk 1 2 1 (Some (float_literal 50)) "pending" 7],
       Some 2).
Proof.
  destruct (create_order_eligibility sample_db 2 bob 1 sky 7 eq_refl eq_refl eq_refl)
    as (_ & _ & H & _).
  destruct (H eq_refl ltac:(cbn; lia) (float_literal 50) eq_refl) as [Hr _].
  exact Hr.
Defined.

(** C3 as stated fails on a post that is for sale and has no price: the
    order would carry a null price, the NOT NULL column refuses it at the
    flush, and the answer is 500 with no order created. *)
Lemma create_order_null_price_counterexample :
  get_post 2 sample_db = Some sketch
  /\ Post.is_for_sale sketch = true
  /\ Post.user_id sketch <> User.id bob
  /\ run (create_order 7 2) sample_db (Some 2)
     = (mkResponse (JsonException IntegrityError) 500, sample_db, Some 2).
Proof. repeat split. cbn. lia. Qed.

(** No post with that id: the [NotFound] raised by [get_or_404] is caught by
    the handler's [except Exception] clause and answered with 500, as is
    the [OverflowError] of an id that does not fit. *)
Lemma create_order_missing_post (db : DB) (uid : Z) (pid now : Z) :
  get_post pid db = None ->
  run (create_order now pid) db (Some uid)
    = (mkResponse (JsonException (missing_row [pid])) 500, db, Some uid).
Proof.
  intros Hp. unfold create_order. run_view.
  destruct (get_user uid db); rewrite Hp; reflexivity.
Qed.

(** ** Favorites *)

Lemma add_favorite_conflict (db : DB) (uid : Z) (u : User.t) (pid : Z) (post : Post.t)
    (f : Favorite.t) (now : Z) :
  get_user uid db = Some u ->
  get_post pid db = Some post ->
  get_favorite (User.id u) pid db = Some f ->
  run (add_favorite now pid) db (Some uid)
    = (jsonify_error "Already favorited" 400, db, Some uid).
Proof.
  intros Hu Hp Hf. unfold add_favorite. run_view.
  rewrite Hu, Hp. cbn. rewrite Hf. reflexivity.
Qed.

Lemma add_favorite_creates (db : DB) (uid : Z) (u : User.t) (pid : Z) (post : Post.t)
    (now : Z) :
  constraints_ok db = true ->
  get_user uid db = Some u ->
  get_post pid db = Some post ->
  get_favorite (User.id u) pid db = None ->
  run (add_favorite now pid) db (Some uid)
    = (jsonify [("success", PBool true)] 201,
       with_favorites db
         (favorites db
          ++ [Favorite.mk (next_id (map Favorite.id (favorites db))) (User.id u) pid now]),
       Some uid).
Proof.
  intros Hc Hu Hp Hf. unfold add_favorite, db_add_favorite. run_view.
  rewrite Hu, Hp. cbn. rewrite Hf. cbn.
  unfold constraints_ok in *. cbn. rewrite Hc. reflexivity.
Qed.

Lemma remove_favorite_deletes (db : DB) (uid : Z) (u : User.t) (pid : Z) (f : Favorite.t) :
  constraints_ok db = true ->
  get_user uid db = Some u ->
  get_favorite (User.id u) pid db = Some f ->
  run (remove_favorite pid) db (Some uid)
    = (jsonify [("success", PBool true)] 200,
       with_favorites db
         (filter (fun x => negb (Favorite.id x =? Favorite.id f)) (favorites db)),
       Some uid).
Proof.
  intros Hc Hu Hf. unfold remove_favorite, db_delete_favorite. run_view.
  rewrite Hu. cbn. rewrite Hf. cbn.
  unfold constraints_ok in *. cbn. rewrite Hc. reflexivity.
Qed.

(** C4. [remove_favorite] for a pair without a favorite row: the
    [NotFound] that [first_or_404] raises is caught by the handler's own
    [except Exception] clause, so the answer is status 500 with the text of
    the exception, not 404.  The store is unchanged.  (For a post id that
    does not fit SQLite's integer the exception caught is the
    [OverflowError] of sqlite3, and the answer is 500 again.)  What else C4
    says holds: the lemmas around this one give the answers of
    [add_favorite] and [remove_favorite], and uniqueness follows in
    [favorites_unique_reachable] and [favorite_add_remove_add]. *)
Theorem remove_favorite_missing_is_500 (db : DB) (uid : Z) (u : User.t) (pid : Z) :
  get_user uid db = Some u ->
  get_favorite (User.id u) pid db = None ->
  run (remove_favorite pid) db (Some uid)
    = (mkResponse (JsonException (missing_row [pid])) 500, db, Some uid).
Proof.
  intros Hu Hf. unfold remove_favorite. run_view.
  rewrite Hu. cbn. rewrite Hf. reflexivity.
Qed.

Lemma remove_favorite_missing_is_500_witness :
  run (remove_favorite 1) sample_db (Some 2)
    = (mkResponse (JsonException NotFound) 500, sample_db, Some 2).
Proof. exact (remove_favorite_missing_is_500 sample_db 2 bob 1 eq_refl eq_refl). Defined.

(** What [add_favorite] can do to the store, whoever asks. *)
Lemma add_favorite_effect (db : DB) (cookie : option Z) (now pid : Z) :
  store_of (run (add_favorite now pid) db cookie) = db
  \/ exists uid fid,
      get_favorite uid pid db = None
      /\ store_of (run (add_favorite now pid) db cookie)
         = with_favorites db (favorites db ++ [Favorite.mk fid uid pid now]).
Proof.
  unfold add_favorite, db_add_favorite, store_of. run_view.
  destruct cookie as [uid|]; [|now left].
  destruct (get_user uid db) as [u|]; cbn.
  - destruct (get_post pid db) as [post|]; cbn; [|now left].
    destruct (get_favorite (User.id u) pid db) as [f|] eqn:Hf; cbn; [now left|].
    destruct (constraints_ok _); cbn; [|now left].
    right. exists (User.id u), (next_id (map Favorite.id (favorites db))). now split.
  - destruct (get_post pid db) as [post|]; cbn; now left.
Qed.

Lemma get_favorite_none_key (db : DB) (uid pid : Z) :
  get_favorite uid pid db = None -> ~ In (uid, pid) (map favorite_key (favorites db)).
Proof.
  intros Hf Hin. apply in_map_iff in Hin. destruct Hin as (f & Hk & Hin).
  pose proof (find_none _ _ Hf f Hin) as Hp. cbn in Hp.
  unfold favorite_key in Hk. injection Hk as Hu Hp'.
  rewrite Hu, Hp', !Z.eqb_refl in Hp. discriminate.
Qed.

Lemma favorites_unique_add (db : DB) (uid pid fid now : Z) :
  favorites_unique db ->
  get_favorite uid pid db = None ->
  favorites_unique
    (with_favorites db (favorites db ++ [Favorite.mk fid uid pid now])).
Proof.
  unfold favorites_unique. intros Hu Hf. cbn. rewrite map_app. cbn.
  apply NoDup_app; [exact Hu|repeat constructor; intros []|].
  intros k Hin [<-|[]]. now apply (get_favorite_none_key db uid pid).
Qed.

Lemma favorites_unique_delete (db : DB) (p : Favorite.t -> bool) :
  favorites_unique db ->
  favorites_unique (with_favorites db (filter p (favorites db))).
Proof.
  unfold favorites_unique. cbn. generalize (favorites db) as l.
  induction l as [|f l IH]; intros H; [exact H|].
  cbn in *. inversion H as [|k ks Hnotin Hnodup]; subst.
  destruct (p f); cbn; [|now apply IH].
  constructor; [|now apply IH].
  intros Hin. apply Hnotin. apply in_map_iff in Hin. destruct Hin as (x & Hk & Hx).
  apply filter_In in Hx. apply in_map_iff. exists x. tauto.
Qed.

Lemma view_frames_favorites gen chk txt (r : request) (l : list Favorite.t) :
  match r with
  | ReqAddFavorite _ _ | ReqRemoveFavorite _ => True
  | _ => keeps (both (fun db => favorites db = l)) (view gen chk txt r)
  end.
Proof.
  destruct r; try exact I; unfold_views; unfold_rows;
    keeps_auto ltac:(idtac; let H := fresh in intros ? H; exact H).
Qed.

Lemma remove_favorite_keeps_unique (pid : Z) :
  keeps (both favorites_unique) (remove_favorite pid).
Proof.
  unfold remove_favorite, db_delete_favorite.
  keeps_auto ltac:(idtac; let H := fresh in
                   intros ? H; destruct H; split;
                   [assumption | now apply favorites_unique_delete]).
Qed.

(** At most one favorite row per (user, post) in every state the public
    routes can reach (the invariant of C4). *)
Lemma favorites_unique_reachable gen chk txt (db : DB) :
  reachable gen chk txt db -> favorites_unique db.
Proof.
  induction 1 as [|db cookie r _ IH]; [constructor|].
  pose proof (view_frames_favorites gen chk txt r (favorites db)) as Hframe.
  destruct r;
    try (destruct (keeps_run _ _ db cookie Hframe (conj eq_refl eq_refl))
           as (env & [Henv _] & ->);
         unfold favorites_unique; rewrite Henv; exact IH).
  - cbn [view].
    match goal with
    | |- context [add_favorite ?n ?p] =>
        destruct (add_favorite_effect db cookie n p) as [->|(uid & fid & Hf & ->)]
    end; [exact IH|now apply favorites_unique_add].
  - cbn [view].
    match goal with
    | |- context [remove_favorite ?p] =>
        destruct (keeps_run _ _ db cookie (remove_favorite_keeps_unique p)
                    (conj IH IH)) as (env & [Henv _] & ->)
    end.
    exact Henv.
Qed.

Lemma map_key_injective (l : list Favorite.t) (x y : Favorite.t) :
  NoDup (map favorite_key l) -> In x l -> In y l ->
  favorite_key x = favorite_key y -> x = y.
Proof.
  induction l as [|a l IH]; intros Hnd Hx Hy Hk; [destruct Hx|].
  cbn in Hnd. inversion Hnd as [|k ks Hnotin Hnd']; subst.
  destruct Hx as [<-|Hx], Hy as [<-|Hy]; auto.
  - exfalso. apply Hnotin. rewrite Hk. now apply in_map.
  - exfalso. apply Hnotin. rewrite <- Hk. now apply in_map.
Qed.

(** Once the one row of a pair is deleted, the pair has no favorite. *)
Lemma get_favorite_after_delete (db : DB) (uid pid : Z) (f : Favorite.t) :
  favorites_unique db ->
  get_favorite uid pid db = Some f ->
  get_favorite uid pid
    (with_favorites db
       (filter (fun x => negb (Favorite.id x =? Favorite.id f)) (favorites db))) = None.
Proof.
  intros Hu Hf. unfold get_favorite in *. cbn [favorites with_favorites].
  apply find_some in Hf. destruct Hf as [Hin Hkey].
  apply find_all_false. intros x Hx. apply filter_In in Hx. destruct Hx as [Hx Hid].
  destruct ((Favorite.user_id x =? uid) && (Favorite.post_id x =? pid)) eqn:Hxk;
    [|reflexivity].
  exfalso.
  assert (x = f) as ->.
  { apply (map_key_injective (favorites db)); auto. unfold favorite_key.
    apply andb_prop in Hxk, Hkey. destruct Hxk as [H1 H2], Hkey as [H3 H4].
    apply Z.eqb_eq in H1, H2, H3, H4. congruence. }
  rewrite Z.eqb_refl in Hid. discriminate.
Qed.

(** After the first [add_favorite] a pair has its favorite, whether the call
    created it (201) or found it (400); [remove_favorite] then deletes it
    and a second [add_favorite] succeeds with 201 (the add-remove-add part
    of C4). *)
Lemma favorite_add_remove_add gen chk txt (db : DB) (uid : Z) (u : User.t) (pid : Z)
    (post : Post.t) (now1 now3 : Z) :
  reachable gen chk txt db ->
  get_user uid db = Some u ->
  get_post pid db = Some post ->
  let r1 := run (add_favorite now1 pid) db (Some uid) in
  let r2 := run (remove_favorite pid) (store_of r1) (Some uid) in
  let r3 := run (add_favorite now3 pid) (store_of r2) (Some uid) in
  (status (response_of r1) = 201 \/ status (response_of r1) = 400)
  /\ status (response_of r2) = 200
  /\ status (response_of r3) = 201
  /\ exists f, get_favorite (User.id u) pid (store_of r3) = Some f.
Proof.
  intros Hreach Hu Hp r1 r2 r3.
  assert (Hreach1 : reachable gen chk txt (store_of r1))
    by (apply (reachable_step gen chk txt db (Some uid) (ReqAddFavorite now1 pid) Hreach)).
  pose proof (reachable_constraints_ok _ _ _ _ Hreach) as Hc.
  pose proof (reachable_constraints_ok _ _ _ _ Hreach1) as Hc1.
  pose proof (favorites_unique_reachable _ _ _ _ Hreach1) as Hu1.
  assert (H1 : (status (response_of r1) = 201 \/ status (response_of r1) = 400)
               /\ get_user uid (store_of r1) = Some u
               /\ get_post pid (store_of r1) = Some post
               /\ exists f, get_favorite (User.id u) pid (store_of r1) = Some f).
  { subst r1. destruct (get_favorite (User.id u) pid db) as [f|] eqn:Hf.
    - rewrite (add_favorite_conflict db uid u pid post f now1 Hu Hp Hf).
      cbn. repeat split; auto. now exists f.
    - rewrite (add_favorite_creates db uid u pid post now1 Hc Hu Hp Hf).
      cbn [response_of store_of fst snd status jsonify].
      repeat split; auto. eexists. unfold get_favorite. cbn [favorites with_favorites].
      apply find_app_last; [exact Hf|]. cbn. now rewrite !Z.eqb_refl. }
  destruct H1 as (Hs1 & Hu1' & Hp1 & f & Hf1).
  split; [exact Hs1|].
  subst r3 r2. generalize dependent (store_of r1). intros s1 _ Hc1 Hun1 Hus1 Hps1 Hf1.
  rewrite (remove_favorite_deletes s1 uid u pid f Hc1 Hus1 Hf1).
  cbn [response_of store_of fst snd status jsonify]. split; [reflexivity|].
  pose proof (get_favorite_after_delete s1 (User.id u) pid f Hun1 Hf1) as Hnone.
  set (s2 := with_favorites s1 _) in *.
  assert (Hc2 : constraints_ok s2 = true) by exact Hc1.
  rewrite (add_favorite_creates s2 uid u pid post now3 Hc2 Hus1 Hps1 Hnone).
  cbn [response_of store_of fst snd status jsonify]. split; [reflexivity|].
  eexists. unfold get_favorite in *. cbn [favorites with_favorites].
  apply find_app_last; [exact Hnone|]. cbn. now rewrite !Z.eqb_refl.
Qed.

(** ** Registration and login *)

(** C5. A registration that passes validation answers 201, and a login with
    the same username and password on the resulting store answers 200,
    provided checking a password against its own hash succeeds. *)
Theorem register_then_login
    (gen : string -> string -> string) (chk : string -> string -> bool)
    (txt : spec_float -> string) (db : DB) (cookie : option Z) (salt u e p : string) :
  (forall s x, chk (gen s x) x = true) ->
  constraints_ok db = true ->
  3 <= str_len u <= 80 ->
  validate_email (PStr e) = Done true ->
  6 <= str_len p ->
  (forall x, In x (users db) -> User.username x <> u) ->
  (forall x, In x (users db) -> User.email x <> e) ->
  let r1 := run (register gen txt salt (credentials u e p)) db cookie in
  let row := registered_user db u e (gen salt p) in
  r1 = (jsonify [("success", PBool true); ("message", PStr "Registration successful")] 201,
        with_users db (users db ++ [row]), Some (User.id row))
  /\ forall cookie',
      run (login chk txt (PDict [("username", PStr u); ("password", PStr p)]))
        (store_of r1) cookie'
      = (jsonify [("success", PBool true); ("message", PStr "Login successful")] 200,
         store_of r1, Some (User.id row)).
Proof.
  intros Hhash Hc Hu He Hp Hfree_u Hfree_e r1 row.
  injection He as He.
  assert (Hu0 : String.eqb u "" = false) by (apply str_len_nonempty; lia).
  assert (Hp0 : String.eqb p "" = false) by (apply str_len_nonempty; lia).
  assert (He0 : String.eqb e "" = false).
  { destruct e; [discriminate He|reflexivity]. }
  assert (Hfu : find (fun x => String.eqb (User.username x) u) (users db) = None).
  { apply find_all_false. intros x Hx. apply String.eqb_neq. now apply Hfree_u. }
  assert (Hfe : find (fun x => String.eqb (User.email x) e) (users db) = None).
  { apply find_all_false. intros x Hx. apply String.eqb_neq. now apply Hfree_e. }
  assert (Hc' : constraints_ok (with_users db (users db ++ [row])) = true).
  { unfold constraints_ok in *. cbn [users orders with_users].
    apply andb_prop in Hc. destruct Hc as [Hc Ho].
    apply andb_prop in Hc. destruct Hc as [Hn Hm].
    rewrite !map_app. cbn [map]. rewrite Ho, andb_true_r.
    rewrite !distinct_app_last; auto.
    - intros x Hx. apply in_map_iff in Hx. destruct Hx as (y & <- & Hy). now apply Hfree_e.
    - intros x Hx. apply in_map_iff in Hx. destruct Hx as (y & <- & Hy). now apply Hfree_u. }
  assert (Hr1 : r1 = (jsonify [("success", PBool true);
                               ("message", PStr "Registration successful")] 201,
                      with_users db (users db ++ [row]), Some (User.id row))).
  { subst r1. unfold register, credentials, user_by_username, user_by_email,
      db_add_user, or_else, missing_field, bind_text, set_session, lift.
    run_view. cbn -[re_match str_len Z.ltb next_id constraints_ok].
    rewrite Hu0, He0, Hp0. cbn -[re_match str_len Z.ltb next_id constraints_ok].
    replace (str_len u <? 3) with false by (symmetry; apply Z.ltb_ge; lia).
    replace (80 <? str_len u) with false by (symmetry; apply Z.ltb_ge; lia).
    cbn -[re_match str_len Z.ltb next_id constraints_ok]. rewrite He.
    cbn -[re_match str_len Z.ltb next_id constraints_ok].
    replace (str_len p <? 6) with false by (symmetry; apply Z.ltb_ge; lia).
    cbn -[re_match str_len Z.ltb next_id constraints_ok]. rewrite Hfu.
    cbn -[re_match str_len Z.ltb next_id constraints_ok]. rewrite Hfe.
    cbn -[re_match str_len Z.ltb next_id constraints_ok].
    fold row. fold (registered_user db u e (gen salt p)). fold row.
    rewrite Hc'. reflexivity. }
  split; [exact Hr1|].
  intros cookie'. rewrite Hr1. cbn [store_of fst snd].
  unfold login, user_by_username, or_else, missing_field, set_session, lift.
  run_view. cbn -[next_id]. rewrite Hu0, Hp0. cbn -[next_id].
  rewrite (find_app_last _ _ row Hfu) by (cbn; apply String.eqb_refl).
  cbn -[next_id]. rewrite Hhash. reflexivity.
Qed.

Lemma register_then_login_witness :
  let r1 := run (register plain_hash no_real_text "salt"
                   (credentials "carol" "carol@x.com" "secret1"))
              sample_db None in
  status (response_of r1) = 201
  /\ status (response_of
               (run (login plain_check no_real_text
                       (PDict [("username", PStr "carol"); ("password", PStr "secret1")]))
                  (store_of r1) None)) = 200.
Proof.
  destruct (register_then_login plain_hash plain_check no_real_text sample_db None
              "salt" "carol" "carol@x.com" "secret1" plain_check_hash eq_refl)
    as [H1 H2].
  - cbn. lia.
  - reflexivity.
  - cbn. lia.
  - cbn. intros x [<-|[<-|[]]]; discriminate.
  - cbn. intros x [<-|[<-|[]]]; discriminate.
  - cbv zeta. rewrite (H2 None), H1. split; reflexivity.
Defined.

(** ** Search *)

Lemma lower_char_idempotent (c : ascii) : lower_char (lower_char c) = lower_char c.
Proof. destruct c as [[] [] [] [] [] [] [] []]; reflexivity. Qed.

Lemma lower_char_percent (c : ascii) :
  Ascii.eqb (lower_char c) "%" = Ascii.eqb c "%".
Proof. destruct c as [[] [] [] [] [] [] [] []]; reflexivity. Qed.

Lemma lower_char_underscore (c : ascii) :
  Ascii.eqb (lower_char c) "_" = Ascii.eqb c "_".
Proof. destruct c as [[] [] [] [] [] [] [] []]; reflexivity. Qed.

Lemma lower_char_nul (c : ascii) :
  Ascii.eqb (lower_char c) "000" = Ascii.eqb c "000".
Proof. destruct c as [[] [] [] [] [] [] [] []]; reflexivity. Qed.

Lemma until_nul_lower (l : list ascii) :
  until_nul (map lower_char l) = map lower_char (until_nul l).
Proof.
  induction l as [|c l IH]; [reflexivity|]. cbn [map until_nul].
  rewrite lower_char_nul. destruct (Ascii.eqb c "000"); [reflexivity|].
  cbn [map]. now rewrite IH.
Qed.

Lemma until_nul_free (l : list ascii) : nul_free l = true -> until_nul l = l.
Proof.
  induction l as [|c l IH]; [reflexivity|]. cbn. intros H.
  apply andb_prop in H. destruct H as [Hc H]. apply negb_true_iff in Hc.
  rewrite Hc. now rewrite IH.
Qed.

Lemma like_match_percent (s : list ascii) : like_match ["%"%char] s = true.
Proof. induction s as [|a s IH]; [reflexivity|]. cbn in *. exact IH. Qed.

(** A pattern that starts with [%] matches when its rest matches a
    suffix. *)
Lemma like_match_star (p s : list ascii) :
  like_match ("%"%char :: p) s = true <->
  exists pre rest, s = pre ++ rest /\ like_match p rest = true.
Proof.
  induction s as [|a s IH].
  - cbn. rewrite orb_false_r. split.
    + intros H. now exists [], [].
    + intros (pre & rest & Hs & H). symmetry in Hs. apply app_eq_nil in Hs.
      destruct Hs as [_ ->]. exact H.
  - change (like_match ("%"%char :: p) (a :: s))
      with (like_match p (a :: s) || like_match ("%"%char :: p) s).
    rewrite orb_true_iff, IH. split.
    + intros [H|(pre & rest & -> & H)].
      * now exists [], (a :: s).
      * now exists (a :: pre), rest.
    + intros ([|b pre] & rest & Hs & H).
      * cbn in Hs. subst rest. now left.
      * injection Hs as -> ->. right. now exists pre, rest.
Qed.

(** A wildcard-free pattern followed by [%] matches the strings that start
    with it, case aside. *)
Lemma like_match_literal (q s : list ascii) :
  wildcard_free q = true ->
  like_match (map lower_char q ++ ["%"%char]) (map lower_char s) = true <->
  exists mid post, s = mid ++ post /\ map lower_char mid = map lower_char q.
Proof.
  revert s. induction q as [|c q IH]; intros s Hw.
  - cbn [map app]. rewrite like_match_percent. split; [|reflexivity].
    intros _. now exists [], s.
  - cbn in Hw. apply andb_prop in Hw. destruct Hw as [Hc Hw].
    apply andb_prop in Hc. destruct Hc as [Hc1 Hc2].
    apply negb_true_iff in Hc1, Hc2.
    cbn [map app like_match]. rewrite lower_char_percent, lower_char_underscore, Hc1, Hc2.
    destruct s as [|d s]; cbn [map].
    + split; [discriminate|]. intros ([|m mid] & post & Hs & Hm); discriminate.
    + rewrite !lower_char_idempotent, andb_true_iff, IH by exact Hw. split.
      * intros [Hcd (mid & post & -> & Hm)].
        apply Ascii.eqb_eq in Hcd.
        exists (d :: mid), post. split; [reflexivity|]. cbn. congruence.
      * intros ([|m mid] & post & Hs & Hm); [discriminate|].
        injection Hs as -> ->. cbn in Hm. injection Hm as Hmc Hm.
        split; [apply Ascii.eqb_eq; congruence|]. now exists mid, post.
Qed.

Lemma map_lower_split (s : list ascii) (a b : list ascii) :
  map lower_char s = a ++ b ->
  exists s1 s2, s = s1 ++ s2 /\ map lower_char s1 = a /\ map lower_char s2 = b.
Proof.
  revert s. induction a as [|x a IH]; intros s H.
  - now exists [], s.
  - destruct s as [|c s]; [discriminate|]. cbn in H. injection H as Hx H.
    destruct (IH s H) as (s1 & s2 & -> & H1 & H2).
    exists (c :: s1), s2. cbn. repeat split; congruence.
Qed.

(** On a query without wildcards and without a NUL, [ilike] with the
    pattern [%query%] is the case-insensitive substring test on the text
    of the column up to its first NUL. *)
Lemma ilike_contains (q : list ascii) (column : string) :
  wildcard_free q = true -> nul_free q = true ->
  ilike column (contains_pattern q) = true <-> contains_ci q (until_nul (chars column)).
Proof.
  intros Hw Hn. unfold ilike, sql_like, contains_pattern, contains_ci.
  rewrite !until_nul_lower.
  rewrite (until_nul_free (("%"%char :: q) ++ ["%"%char]))
    by (unfold nul_free in *; cbn; now rewrite forallb_app, Hn).
  generalize (until_nul (chars column)). intros s.
  cbn [app map]. rewrite map_app. cbn [map].
  change (lower_char "%"%char) with "%"%char.
  rewrite like_match_star. split.
  - intros (pre & rest & Hs & H).
    apply map_lower_split in Hs. destruct Hs as (s1 & s2 & -> & <- & <-).
    apply like_match_literal in H; [|exact Hw].
    destruct H as (mid & post & -> & Hm). now exists s1, mid, post.
  - intros (pre & mid & post & -> & Hm).
    exists (map lower_char pre), (map lower_char (mid ++ post)).
    split; [now rewrite map_app|].
    apply like_match_literal; [exact Hw|]. now exists mid, post.
Qed.

(** A NUL ends the pattern and the text: the query [a NUL b] is read as
    the pattern [%a] and finds a title that ends in [a], and what follows
    a NUL in a title is not searched. *)
Example like_stops_at_nul :
  ilike "Pizza" (contains_pattern ["a"; "000"; "b"]%char) = true
  /\ ilike "Pizzas" (contains_pattern ["a"; "000"; "b"]%char) = false
  /\ ilike (String "S" (String "000" "ky")) (contains_pattern (chars "ky")) = false.
Proof. repeat split. Qed.

Lemma post_matches_shows (q : list ascii) (p : Post.t) :
  wildcard_free q = true -> nul_free q = true ->
  post_matches q p = true <-> post_shows q p.
Proof.
  intros Hw Hn. unfold post_matches, post_shows.
  now rewrite orb_true_iff, !ilike_contains.
Qed.

(** For a post whose texts hold no NUL, what a query can find is what
    contains it. *)
Lemma post_shows_contains (q : list ascii) (p : Post.t) :
  nul_free (chars (Post.title p)) = true ->
  nul_free (chars (Post.description p)) = true ->
  post_shows q p <-> post_contains q p.
Proof.
  intros Ht Hd. unfold post_shows, post_contains. now rewrite !until_nul_free.
Qed.

Lemma search_query_short (args : list (string * string)) :
  (List.length (search_query args) < 2)%nat <->
  (List.length (strip (chars (args_get args "q"))) < 2)%nat.
Proof.
  unfold search_query. rewrite length_firstn. lia.
Qed.

(** X27. A query that is shorter than two characters once trimmed gets the
    neutral page, the same for every store.  A longer query without the
    wildcards [%] and [_] and without a NUL gets, when the page asked for
    exists, that page of twelve of the posts whose title or description,
    read up to its first NUL, contains it, case aside, in row order: every
    post returned contains the query, and when at most twelve posts
    contain it page 1 returns exactly those. *)
Theorem search_results (args : list (string * string)) (db : DB) (cookie : option Z) :
  let q := search_query args in
  let pg := args_get_int args "page" 1 in
  let matching := filter (post_matches q) (posts db) in
  let its := firstn 12 (skipn (Z.to_nat ((pg - 1) * 12)) matching) in
  ((List.length q < 2)%nat ->
   run (search args) db cookie
   = (render_template "search.html" (SearchContext None None "") 200, db, cookie))
  /\ ((2 <= List.length q)%nat -> wildcard_free q = true -> nul_free q = true ->
      1 <= pg -> its <> [] \/ pg = 1 ->
      (exists users,
          run (search args) db cookie
          = (render_template "search.html"
               (SearchContext
                  (Some (mkPagination its pg 12 (Z.of_nat (List.length matching))))
                  (Some users) (string_of_list_ascii q)) 200,
             db, cookie))
      /\ (forall p, In p its -> In p (posts db) /\ post_shows q p)
      /\ (pg = 1 -> (List.length matching <= 12)%nat ->
          forall p, In p its <-> In p (posts db) /\ post_shows q p)).
Proof.
  intros q pg matching its. split.
  - intros Hshort. unfold search, run, try_except. fold q.
    destruct q as [|a [|b l]]; [reflexivity|reflexivity|cbn in Hshort; lia].
  - intros Hlong Hw Hn Hpg Hpage.
    assert (Hin : forall p, In p matching <-> In p (posts db) /\ post_shows q p).
    { intros p. unfold matching. rewrite filter_In, post_matches_shows by assumption.
      reflexivity. }
    split; [|split].
    + unfold search, run, try_except, paginate, bind, reads, ret, raise. fold q pg.
      destruct q as [|a [|b l]] eqn:Hq; [cbn in Hlong; lia|cbn in Hlong; lia|].
      cbn [pending committed session].
      replace (pg <? 1) with false by (symmetry; apply Z.ltb_ge; lia).
      change (Z.to_nat 12) with 12%nat. fold matching. fold its.
      destruct its as [|i its'] eqn:Hits.
      * destruct Hpage as [Hne | Hone]; [contradiction|]. rewrite Hone. cbn. eexists. reflexivity.
      * cbn. eexists. reflexivity.
    + intros p Hp. apply Hin. unfold its in Hp.
      apply in_firstn, in_skipn in Hp. exact Hp.
    + intros -> Hfew p. rewrite <- Hin. unfold its. cbn [Z.sub Z.mul Z.to_nat skipn].
      now rewrite firstn_all2.
Qed.

Lemma search_results_witness :
  run (search [("q", " k ")]) sample_db None
    = (render_template "search.html" (SearchContext None None "") 200, sample_db, None)
  /\ exists users,
      run (search [("q", " sky ")]) sample_db None
      = (render_template "search.html"
           (SearchContext (Some (mkPagination [sky] 1 12 1)) (Some users) "sky") 200,
         sample_db, None).
Proof.
  split.
  - destruct (search_results [("q", " k ")] sample_db None) as [H _].
    apply H. cbn. lia.
  - destruct (search_results [("q", " sky ")] sample_db None) as [_ H].
    destruct H as [H _].
    + cbn. lia.
    + reflexivity.
    + reflexivity.
    + cbn. lia.
    + now right.
    + exact H.
Defined.

Lemma contains_ci_chars (q s : list ascii) (c : ascii) :
  contains_ci q s -> In c (map lower_char q) -> In c (map lower_char s).
Proof.
  intros (pre & mid & post & -> & Hm) Hc. rewrite <- Hm in Hc.
  rewrite !map_app. apply in_or_app. right. apply in_or_app. now left.
Qed.

(** C9.  The query is pasted into the LIKE pattern as it is, so its [_]
    and [%] act as wildcards.  On the sample store, which the routes
    reach, the query ["k_"] returns both posts, "Sky" and "Sketch",
    neither of which contains it in its title or description: the posts
    returned are not those that contain the query. *)
Theorem search_wildcards_not_escaped :
  reachable plain_hash plain_check no_real_text sample_db
  /\ (exists pg users,
        run (search [("q", "k_")]) sample_db None
        = (render_template "search.html" (SearchContext (Some pg) users "k_") 200,
           sample_db, None)
        /\ items pg = [sky; sketch])
  /\ ~ post_contains (chars "k_") sky
  /\ ~ post_contains (chars "k_") sketch.
Proof.
  split; [exact sample_db_reachable|]. split; [|split].
  - eexists. eexists. split; reflexivity.
  - intros [H|H]; apply (contains_ci_chars _ _ "_"%char) in H; cbn; auto;
      cbn in H; repeat (destruct H as [H|H]; [discriminate H|]); exact H.
  - intros [H|H]; apply (contains_ci_chars _ _ "_"%char) in H; cbn; auto;
      cbn in H; repeat (destruct H as [H|H]; [discriminate H|]); exact H.
Qed.

(** ** The scenario of the specification *)

(** The scenario of the specification: alice registers and posts "Sky" for
    50, bob logs in and orders it; the order is number 1, costs 50 and is
    pending. *)
Example end_to_end :
  let r1 := run (register plain_hash no_real_text "s1"
                   (credentials "alice" "alice@x.com" "secret1"))
              empty_db None in
  let r2 := run (create_post 0 (PDict [("title", PStr "Sky"); ("image_url", PStr "http://x/1.png");
                                       ("price", PInt 50); ("is_for_sale", PBool true)]))
              (store_of r1) (cookie_of r1) in
  let r3 := run (register plain_hash no_real_text "s2"
                   (credentials "bob" "bob@x.com" "hunter22"))
              (store_of r2) None in
  let r4 := run (login plain_check no_real_text
                   (PDict [("username", PStr "bob"); ("password", PStr "hunter22")]))
              (store_of r3) None in
  let r5 := run (create_order 9 1) (store_of r4) (cookie_of r4) in
  status (response_of r1) = 201
  /\ response_of r2 = jsonify [("success", PBool true); ("post_id", PInt 1)] 201
  /\ status (response_of r4) = 200
  /\ response_of r5 = jsonify [("success", PBool true); ("order_id", PInt 1)] 201
  /\ orders (store_of r5) = [Order.mk 1 2 1 (Some (float_literal 50)) "pending" 9].
Proof. vm_compute. repeat split. Qed.

(** ** Symbolic execution *)

Section Wp.

Context {A : Type} (Q : outcome A -> Env -> Prop) (env : Env).

Lemma wp_ret (a : A) : Q (Done a) env -> wp (ret a) Q env.
Proof. intros H. exact H. Qed.

Lemma wp_raise (e : exn) : Q (Raised e) env -> wp (raise e) Q env.
Proof. intros H. exact H. Qed.

Lemma wp_lift (o : outcome A) : Q o env -> wp (lift o) Q env.
Proof. intros H. exact H. Qed.

Lemma wp_reads (f : DB -> A) : Q (Done (f (pending env))) env -> wp (reads f) Q env.
Proof. intros H. exact H. Qed.

Lemma wp_bind {B} (m : M B) (k : B -> M A) :
  wp m (fun o env' => match o with
                      | Done b => wp (k b) Q env'
                      | Raised e => Q (Raised e) env'
                      end) env ->
  wp (bind m k) Q env.
Proof.
  unfold wp, bind. destruct (m env) as [[b|e] env']; cbn; intros H; exact H.
Qed.

Lemma wp_or_404 (params : list Z) (q : DB -> option A) :
  match q (pending env) with
  | Some a => Q (Done a) env
  | None => Q (Raised (missing_row params)) env
  end ->
  wp (or_404 params q) Q env.
Proof. unfold wp, or_404. destruct (q (pending env)); intros H; exact H. Qed.

Lemma wp_attr {B} (user : option User.t) (f : User.t -> B) (k : B -> M A) :
  match user with
  | Some u => wp (k (f u)) Q env
  | None => Q (Raised AttributeError) env
  end ->
  wp (bind (attr user f) k) Q env.
Proof. destruct user; intros H; exact H. Qed.

End Wp.

Section WpUnit.

Context (Q : outcome unit -> Env -> Prop) (env : Env).

Lemma wp_writes (f : DB -> DB) :
  Q (Done tt) (mkEnv (committed env) (f (pending env)) (unflushable env) (session env)) ->
  wp (writes f) Q env.
Proof. intros H. exact H. Qed.

Lemma wp_db_commit :
  match unflushable env with
  | Some e => Q (Raised e) env
  | None =>
      if constraints_ok (pending env)
      then Q (Done tt) (mkEnv (pending env) (pending env) None (session env))
      else Q (Raised IntegrityError) env
  end ->
  wp db_commit Q env.
Proof.
  unfold wp, db_commit. destruct (unflushable env); [intros H; exact H|].
  destruct (constraints_ok (pending env)); intros H; exact H.
Qed.

Lemma wp_db_rollback :
  Q (Done tt) (mkEnv (committed env) (committed env) None (session env)) ->
  wp db_rollback Q env.
Proof. intros H. exact H. Qed.

Lemma wp_set_session (uid : Z) :
  Q (Done tt) (mkEnv (committed env) (pending env) (unflushable env) (Some uid)) ->
  wp (set_session uid) Q env.
Proof. intros H. exact H. Qed.

Lemma wp_session_clear :
  Q (Done tt) (mkEnv (committed env) (pending env) (unflushable env) None) ->
  wp session_clear Q env.
Proof. intros H. exact H. Qed.

End WpUnit.

Section WpResponse.

Context (Q : outcome response -> Env -> Prop) (env : Env).

Lemma wp_try_except (body : M response) (handler : exn -> M response) :
  wp body (fun o env' => match o with
                         | Done r => Q (Done r) env'
                         | Raised e => wp (handler e) Q env'
                         end) env ->
  wp (try_except body handler) Q env.
Proof.
  unfold wp, try_except. destruct (body env) as [[r|e] env']; cbn; intros H; exact H.
Qed.

Lemma wp_api_error (e : exn) :
  Q (Done (mkResponse (JsonException e) 500))
    (mkEnv (committed env) (committed env) None (session env)) ->
  wp (api_error e) Q env.
Proof. intros H. exact H. Qed.

Lemma wp_login_required (f : M response) :
  match session env with
  | None => Q (Done (jsonify_error "Login required" 401)) env
  | Some _ => wp f Q env
  end ->
  wp (login_required f) Q env.
Proof. unfold wp, login_required. destruct (session env); intros H; exact H. Qed.

End WpResponse.

Lemma wp_get_current_user (Q : outcome (option User.t) -> Env -> Prop) (env : Env) :
  match session env with
  | Some uid => Q (Done (get_user uid (pending env))) env
  | None => Q (Done None) env
  end ->
  wp get_current_user Q env.
Proof. unfold wp, get_current_user. destruct (session env); intros H; exact H. Qed.

Lemma wp_bind_text (Q : outcome string -> Env -> Prop) (env : Env) (v : pyval) :
  (forall s, v = PStr s -> Q (Done s) env) ->
  ((forall s, v <> PStr s) ->
   Q (Done "") (mkEnv (committed env) (pending env) (Some InterfaceError) (session env))) ->
  wp (bind_text v) Q env.
Proof.
  intros Hs Hn. unfold wp, bind_text.
  destruct v; try (apply Hn; intros ?; discriminate). now apply Hs.
Qed.

Lemma wp_bind_int (Q : outcome unit -> Env -> Prop) (env : Env) (n : Z) :
  (sqlite_int n = true -> Q (Done tt) env) ->
  (sqlite_int n = false ->
   Q (Done tt)
     (mkEnv (committed env) (pending env)
        (match unflushable env with
         | Some e => Some e
         | None => Some OverflowError
         end)
        (session env))) ->
  wp (bind_int n) Q env.
Proof.
  intros Hfit Hbig. unfold wp, bind_int.
  destruct (sqlite_int n); [now apply Hfit|now apply Hbig].
Qed.

Lemma wp_paginate (Q : outcome Pagination -> Env -> Prop) (env : Env)
    (rows : list Post.t) (page per_page : Z) :
  (forall o, Q o env) -> wp (paginate rows page per_page) Q env.
Proof.
  intros H. unfold wp, paginate. destruct (page <? 1); [apply H|].
  destruct (firstn _ _); [destruct (page =? 1)|]; apply H.
Qed.

(** A property of the result of a request, from the outcome of its view. *)
Lemma run_wp (P : response * DB * option Z -> Prop) (h : M response) (db : DB)
    (cookie : option Z) :
  wp h (fun o env => P (finish o env)) (mkEnv db db None cookie) ->
  P (run h db cookie).
Proof.
  unfold wp, run, finish.
  destruct (h (mkEnv db db None cookie)) as [[r|e] env']; cbn; intros H; exact H.
Qed.

Ltac wp_simpl :=
  cbn beta iota;
  cbn [committed pending unflushable session fst snd
       users posts commissions reviews favorites orders
       with_users with_posts with_commissions with_reviews with_favorites with_orders].

(** One step of the execution.  A pure computation is split into its
    result and its exception, each with the equation that produced it. *)
Ltac wp_step :=
  wp_simpl;
  lazymatch goal with
  | |- wp (ret _) _ _ => apply wp_ret
  | |- wp (raise _) _ _ => apply wp_raise
  | |- wp (bind (attr _ _) _) _ _ => apply wp_attr
  | |- wp (bind (when ?b _) _) _ _ => unfold when at 1; destruct b eqn:?
  | |- wp (bind (if ?b then _ else _) _) _ _ => destruct b eqn:?
  | |- wp (bind (match ?x with _ => _ end) _) _ _ => destruct x eqn:?
  | |- wp (bind _ _) _ _ => apply wp_bind
  | |- wp (lift ?o) _ _ => apply wp_lift; destruct o eqn:?
  | |- wp (reads _) _ _ => apply wp_reads
  | |- wp (writes _) _ _ => apply wp_writes
  | |- wp (or_404 _ _) _ _ => apply wp_or_404
  | |- wp get_current_user _ _ => apply wp_get_current_user
  | |- wp (bind_text _) _ _ => apply wp_bind_text; intros ?; [intros ?|]
  | |- wp (bind_int _) _ _ => apply wp_bind_int; intros ?
  | |- wp (set_session _) _ _ => apply wp_set_session
  | |- wp session_clear _ _ => apply wp_session_clear
  | |- wp db_commit _ _ => apply wp_db_commit
  | |- wp (paginate _ _ _) _ _ => apply wp_paginate; intros ?
  | |- wp db_rollback _ _ => apply wp_db_rollback
  | |- wp (api_error _) _ _ => apply wp_api_error
  | |- wp (try_except _ _) _ _ => apply wp_try_except
  | |- wp (login_required _) _ _ => apply wp_login_required
  | |- wp (when ?b _) _ _ => unfold when at 1; destruct b eqn:?
  | |- wp (or_else _ _) _ _ => unfold or_else at 1
  | |- wp (missing_field _ _) _ _ => unfold missing_field at 1
  | |- wp (price_or_none _) _ _ => unfold price_or_none at 1
  | |- wp (if ?b then _ else _) _ _ => destruct b eqn:?
  | |- wp (match ?x with _ => _ end) _ _ => destruct x eqn:?
  | |- match ?x with _ => _ end => destruct x eqn:?
  | |- if ?b then _ else _ => destruct b eqn:?
  end.

Ltac wp_run := repeat wp_step; wp_simpl.

(** The facts an execution leaves behind, brought to a usable form. *)
Ltac wp_facts :=
  repeat match goal with
         | H : Done _ = Done _ |- _ => injection H as H
         | H : Some _ = Some _ |- _ => injection H as H
         | H : Raised _ = Done _ |- _ => discriminate H
         | H : Done _ = Raised _ |- _ => discriminate H
         | H : negb _ = false |- _ => apply negb_false_iff in H
         | H : negb _ = true |- _ => apply negb_true_iff in H
         | H : obind (Done _) _ = _ |- _ => cbn [obind] in H
         | H : obind (Raised _) _ = _ |- _ => cbn [obind] in H
         | H : ?x = ?y |- _ => is_var x; subst x
         | H : ?y = ?x |- _ => is_var x; subst x
         | H1 : ?x = Done _, H2 : context [?x] |- _ => rewrite H1 in H2
         end.

(** ** Registration, login and the session *)

Lemma find_none_neq {A} (key : A -> string) (s : string) (l : list A) :
  find (fun x => String.eqb (key x) s) l = None ->
  forall y, In y l -> key y <> s.
Proof.
  intros Hf y Hy Heq. apply (find_none _ _ Hf) in Hy. cbn in Hy.
  rewrite Heq, String.eqb_refl in Hy. discriminate.
Qed.

(** X4. Whatever the body, [register] either answers 201, and then the
    body holds a string username of 3 to 80 characters, an email the
    pattern accepts and a string password of at least 6 characters, no
    stored user has that username or that email, exactly that one user is
    added and the session is set to the new id; or it answers something
    else and leaves both the store and the session as they were. *)
Theorem register_outcome (gen : string -> string -> string) (txt : spec_float -> string)
    (salt : string) (data : pyval) (db : DB) (cookie : option Z) :
  let x := run (register gen txt salt data) db cookie in
  (exists u e p,
      py_getitem data "username" = Done (PStr u)
      /\ py_getitem data "email" = Done (PStr e)
      /\ py_getitem data "password" = Done (PStr p)
      /\ 3 <= str_len u <= 80
      /\ validate_email (PStr e) = Done true
      /\ 6 <= str_len p
      /\ (forall y, In y (users db) -> User.username y <> u /\ User.email y <> e)
      /\ x = (jsonify [("success", PBool true);
                       ("message", PStr "Registration successful")] 201,
              with_users db (users db ++ [registered_user db u e (gen salt p)]),
              Some (User.id (registered_user db u e (gen salt p)))))
  \/ (status (response_of x) <> 201 /\ store_of x = db /\ cookie_of x = cookie).
Proof.
  cbv zeta. apply run_wp.
  unfold register, user_by_username, user_by_email, db_add_user.
  wp_run.
  all: try (right; cbn; repeat split; discriminate).
  left. wp_facts.
  destruct (py_getitem data "password") as [pw|] eqn:Hpw; [|discriminate].
  cbn [obind] in *.
  destruct pw as [| | | |p| |]; try discriminate.
  cbn [py_len py_generate_password_hash validate_email sql_text_param] in *. wp_facts.
  apply orb_false_elim in Heqb2. destruct Heqb2 as [Hlo Hhi].
  apply Z.ltb_ge in Hlo, Hhi, Heqb4.
  exists s, s0, p. cbn [validate_email finish].
  split; [reflexivity|]. split; [reflexivity|]. split; [reflexivity|].
  split; [lia|]. split; [now f_equal|]. split; [exact Heqb4|].
  split; [|reflexivity].
  intros y Hy. split.
  - now apply (find_none_neq User.username s (users db)).
  - now apply (find_none_neq User.email s0 (users db)).
Qed.

(** X5. [login] never changes the store.  It answers 200 only when a
    stored user has the username of the body and the password of the body
    checks against that user's stored hash, and the session is then set to
    that user's id; any other answer leaves the session as it was. *)
Theorem login_outcome (chk : string -> string -> bool) (txt : spec_float -> string)
    (data : pyval) (db : DB) (cookie : option Z) :
  let x := run (login chk txt data) db cookie in
  store_of x = db
  /\ ((exists u name p,
          In u (users db)
          /\ py_getitem data "username" = Done name
          /\ sql_text_param txt name = Done (Some (User.username u))
          /\ py_getitem data "password" = Done (PStr p)
          /\ chk (User.password u) p = true
          /\ x = (jsonify [("success", PBool true); ("message", PStr "Login successful")] 200,
                  db, Some (User.id u)))
      \/ (status (response_of x) <> 200 /\ cookie_of x = cookie)).
Proof.
  cbv zeta. apply run_wp.
  unfold login, user_by_username.
  wp_run.
  all: split; [reflexivity|].
  all: try (right; cbn; split; [discriminate|reflexivity]).
  left. wp_facts.
  destruct (py_getitem data "password") as [pw|] eqn:Hpw; [|discriminate].
  cbn [obind] in *.
  destruct pw as [| | | |p| |]; try discriminate.
  cbn [py_check_password_hash] in *. wp_facts.
  match goal with
  | H : sql_text_param _ _ = Done ?o |- _ => destruct o as [name'|]; [|discriminate]
  end.
  match goal with H : find _ _ = Some ?u |- _ =>
    apply find_some in H; destruct H as [Hin Hname]; exists u end.
  apply String.eqb_eq in Hname. subst name'.
  eexists. exists p.
  split; [exact Hin|]. split; [reflexivity|]. split; [eassumption|].
  split; [reflexivity|]. split; [assumption|reflexivity].
Qed.

(** ** The session entry *)

Section SessionKept.

Lemma sk_ret {A} (a : A) : session_kept (ret a).
Proof. intros env. reflexivity. Qed.

Lemma sk_raise {A} (e : exn) : session_kept (@raise A e).
Proof. intros env. reflexivity. Qed.

Lemma sk_lift {A} (o : outcome A) : session_kept (lift o).
Proof. intros env. reflexivity. Qed.

Lemma sk_reads {A} (f : DB -> A) : session_kept (reads f).
Proof. intros env. reflexivity. Qed.

Lemma sk_writes (f : DB -> DB) : session_kept (writes f).
Proof. intros env. reflexivity. Qed.

Lemma sk_bind {A B} (m : M A) (k : A -> M B) :
  session_kept m -> (forall a, session_kept (k a)) -> session_kept (bind m k).
Proof.
  intros Hm Hk env. unfold bind. specialize (Hm env).
  destruct (m env) as [[a|e] env']; cbn in *; [now rewrite Hk|exact Hm].
Qed.

Lemma sk_or_404 {A} (params : list Z) (q : DB -> option A) :
  session_kept (or_404 params q).
Proof. intros env. unfold or_404. now destruct (q (pending env)). Qed.

Lemma sk_get_current_user : session_kept get_current_user.
Proof.
  intros env. unfold get_current_user. destruct (session env) eqn:Hs; exact Hs.
Qed.

Lemma sk_attr {A} (user : option User.t) (f : User.t -> A) : session_kept (attr user f).
Proof. intros env. now destruct user. Qed.

Lemma sk_bind_text (v : pyval) : session_kept (bind_text v).
Proof. intros env. now destruct v. Qed.

Lemma sk_bind_int (n : Z) : session_kept (bind_int n).
Proof. intros env. unfold bind_int. now destruct (sqlite_int n). Qed.

Lemma sk_db_commit : session_kept db_commit.
Proof.
  intros env. unfold db_commit. destruct (unflushable env); [reflexivity|].
  now destruct (constraints_ok (pending env)).
Qed.

Lemma sk_db_rollback : session_kept db_rollback.
Proof. intros env. reflexivity. Qed.

Lemma sk_api_error (e : exn) : session_kept (api_error e).
Proof. intros env. reflexivity. Qed.

Lemma sk_try_except (body : M response) (handler : exn -> M response) :
  session_kept body -> (forall e, session_kept (handler e)) ->
  session_kept (try_except body handler).
Proof.
  intros Hb Hh env. unfold try_except. specialize (Hb env).
  destruct (body env) as [[r|e] env']; cbn in *; [exact Hb|now rewrite Hh].
Qed.

Lemma sk_login_required (f : M response) : session_kept f -> session_kept (login_required f).
Proof.
  intros Hf env. unfold login_required. destruct (session env) eqn:Hs; [|exact Hs].
  now rewrite Hf.
Qed.

Lemma sk_paginate (rows : list Post.t) (page per_page : Z) :
  session_kept (paginate rows page per_page).
Proof.
  intros env. unfold paginate. destruct (page <? 1); [reflexivity|].
  destruct (firstn _ _); [destruct (page =? 1)|]; reflexivity.
Qed.

End SessionKept.

Ltac sk_step :=
  lazymatch goal with
  | |- session_kept (ret _) => apply sk_ret
  | |- session_kept (raise _) => apply sk_raise
  | |- session_kept (lift _) => apply sk_lift
  | |- session_kept (reads _) => apply sk_reads
  | |- session_kept (writes _) => apply sk_writes
  | |- session_kept (or_404 _ _) => apply sk_or_404
  | |- session_kept get_current_user => apply sk_get_current_user
  | |- session_kept (attr _ _) => apply sk_attr
  | |- session_kept (bind_text _) => apply sk_bind_text
  | |- session_kept (bind_int _) => apply sk_bind_int
  | |- session_kept db_commit => apply sk_db_commit
  | |- session_kept db_rollback => apply sk_db_rollback
  | |- session_kept (api_error _) => apply sk_api_error
  | |- session_kept (paginate _ _ _) => apply sk_paginate
  | |- session_kept (try_except _ _) => apply sk_try_except; [|intros ?]
  | |- session_kept (login_required _) => apply sk_login_required
  | |- session_kept (bind _ _) => apply sk_bind; [|intros ?]
  | |- session_kept (when ?b _) => unfold when; destruct b
  | |- session_kept (or_else _ _) => unfold or_else
  | |- session_kept (missing_field _ _) => unfold missing_field
  | |- session_kept (price_or_none _) => unfold price_or_none
  | |- session_kept (if ?b then _ else _) => destruct b
  | |- session_kept (match ?x with _ => _ end) => destruct x
  end.

Lemma view_session_kept gen chk txt (r : request) :
  match r with
  | ReqRegister _ _ | ReqLogin _ | ReqLogout => True
  | _ => session_kept (view gen chk txt r)
  end.
Proof.
  destruct r; try exact I; unfold_views; unfold_rows; repeat sk_step.
Qed.

Lemma session_kept_cookie (h : M response) (db : DB) (cookie : option Z) :
  session_kept h -> cookie_of (run h db cookie) = cookie.
Proof.
  intros Hh. unfold cookie_of, run. specialize (Hh (mkEnv db db None cookie)).
  destruct (h _) as [[x|e] env']; exact Hh.
Qed.

(** X2. Only [register], [login] and [logout] touch the session: after any
    other request the [user_id] entry is what the request came with, and
    after [logout] it is gone. *)
Theorem session_changes_only_at_auth gen chk txt (r : request) (db : DB)
    (cookie : option Z) :
  match r with
  | ReqRegister _ _ | ReqLogin _ => True
  | ReqLogout => cookie_of (run (view gen chk txt r) db cookie) = None
  | _ => cookie_of (run (view gen chk txt r) db cookie) = cookie
  end.
Proof.
  pose proof (view_session_kept gen chk txt r) as Hkept.
  destruct r; try exact I; try (now apply session_kept_cookie).
  reflexivity.
Qed.

(** ** Demo data *)

(** [sample_posts] appends five rows, the demo posts up to their ids. *)
Lemma wp_sample_posts (Q : outcome unit -> Env -> Prop) (env : Env) (uid now : Z) :
  (forall rows,
      Forall2 same_content rows (seed_rows uid now) ->
      Q (Done tt) (mkEnv (committed env)
                     (with_posts (pending env) (posts (pending env) ++ rows))
                     (unflushable env) (session env))) ->
  wp (sample_posts uid now) Q env.
Proof.
  intros H. unfold wp, sample_posts, db_add_post, bind, reads, writes, ret.
  cbn [fst snd committed pending unflushable session posts with_posts users commissions
       reviews favorites orders].
  rewrite <- !app_assoc. cbn [app].
  apply H. unfold seed_rows, same_content.
  repeat (constructor; [cbn; repeat split|]). constructor.
Qed.

(** ** Requests that fail *)

Lemma constraints_ok_posts (db : DB) (l : list Post.t) :
  constraints_ok (with_posts db l) = constraints_ok db.
Proof. reflexivity. Qed.

Lemma seed_data_commits_or_nothing gen txt (salt : string) (now : Z) (db : DB)
    (cookie : option Z) :
  let x := run (seed_data gen txt salt now) db cookie in
  store_of x = db \/ status (response_of x) = 200.
Proof.
  cbv zeta. apply run_wp.
  unfold seed_data, user_by_username, db_add_user.
  repeat first [ apply wp_sample_posts; intros ? ? | wp_step ]; wp_simpl.
  all: try (left; reflexivity).
  all: try (right; reflexivity).
  all: rewrite constraints_ok_posts in *; congruence.
Qed.

(** X3. A request that is not answered with 200 or 201 leaves the store
    exactly as it was: every route commits at most once, as its last step
    before the success answer ([seed_data] twice, and its second commit
    cannot fail once the first went through). *)
Theorem failed_requests_change_nothing gen chk txt (r : request) (db : DB)
    (cookie : option Z) :
  let x := run (view gen chk txt r) db cookie in
  store_of x = db \/ status (response_of x) = 200 \/ status (response_of x) = 201.
Proof.
  cbv zeta.
  destruct r as [args|data|salt data|data| |now data|pid|pid data|now pid|pid
                |now pid data|now pid|now data|cid|salt now]; cbn [view].
  15: { destruct (seed_data_commits_or_nothing gen txt salt now db cookie) as [H|H];
        [now left|right; now left]. }
  8: { destruct (update_post_commits_or_nothing db cookie pid data) as [H|H];
       [now left|right; left; now rewrite H]. }
  all: apply run_wp; unfold_views; unfold_rows; wp_run.
  all: try (left; reflexivity).
  all: try (right; left; reflexivity).
  all: try (right; right; reflexivity).
Qed.

(** ** Requests without a session *)

Lemma reading_keeps_store (h : M response) (db : DB) (cookie : option Z) :
  keeps (fun env => committed env = db) h -> store_of (run h db cookie) = db.
Proof.
  intros Hh.
  destruct (keeps_run _ h db cookie Hh eq_refl) as (env & Henv & ->). exact Henv.
Qed.

(** X1. Without a session every route behind [login_required] answers 401
    "Login required" and touches nothing; of all the routes only [register]
    and [seed_data] can change the store for a visitor who is not logged
    in. *)
Theorem anonymous_requests gen chk txt (r : request) (db : DB) :
  (protected r = true ->
   run (view gen chk txt r) db None = (jsonify_error "Login required" 401, db, None))
  /\ match r with
     | ReqRegister _ _ | ReqSeedData _ _ => True
     | _ => store_of (run (view gen chk txt r) db None) = db
     end.
Proof.
  split.
  - destruct r; intros Hp; try discriminate Hp; reflexivity.
  - destruct r; try exact I; try reflexivity.
    + apply reading_keeps_store. unfold view, search. keeps_auto same_env.
    + apply reading_keeps_store. unfold view, login, user_by_username.
      keeps_auto same_env.
Qed.

Lemma anonymous_requests_witness :
  run (delete_post 1) sample_db None = (jsonify_error "Login required" 401, sample_db, None)
  /\ store_of (run (login plain_check no_real_text
                      (PDict [("username", PStr "alice"); ("password", PStr "secret1")]))
                 sample_db None) = sample_db.
Proof.
  split.
  - exact (proj1 (anonymous_requests plain_hash plain_check no_real_text
                    (ReqDeletePost 1) sample_db) eq_refl).
  - exact (proj2 (anonymous_requests plain_hash plain_check no_real_text
                    (ReqLogin (PDict [("username", PStr "alice");
                                      ("password", PStr "secret1")])) sample_db)).
Defined.

(** ** Editing the profile *)

Lemma get_user_id (uid : Z) (db : DB) (u : User.t) :
  get_user uid db = Some u -> User.id u = uid.
Proof.
  intros H. apply find_some in H. destruct H as [_ H]. now apply Z.eqb_eq in H.
Qed.

Lemma constraints_ok_users (db : DB) (l : list User.t) :
  map User.username l = map User.username (users db) ->
  map User.email l = map User.email (users db) ->
  constraints_ok (with_users db l) = constraints_ok db.
Proof.
  intros Hn He. unfold constraints_ok. cbn [users orders with_users].
  now rewrite Hn, He.
Qed.

Lemma apply_edit_identity (e : ProfileEdit) (row : User.t) :
  User.id (apply_edit e row) = User.id row
  /\ User.username (apply_edit e row) = User.username row
  /\ User.email (apply_edit e row) = User.email row
  /\ User.password (apply_edit e row) = User.password row.
Proof.
  unfold apply_edit.
  destruct (edit_bio e), (edit_avatar_url e), (edit_is_artist e); repeat split.
Qed.

(** X6. For a logged-in user and a body whose [bio] and [avatar_url], when
    present, are strings, [edit_profile] answers 200 and rewrites exactly
    the caller's row: [bio] and [avatar_url] cut to 500 characters,
    [is_artist] set to the truth value of the field; a field that is absent
    keeps its value.  The other rows, the caller's id, username, email and
    password, and the other tables stay as they are. *)
Theorem edit_profile_effect (db : DB) (uid : Z) (u : User.t) (e : ProfileEdit) :
  constraints_ok db = true ->
  get_user uid db = Some u ->
  let x := run (edit_profile (profile_data e)) db (Some uid) in
  x = (jsonify [("success", PBool true); ("message", PStr "Profile updated")] 200,
       with_users db
         (map (fun row => if User.id row =? uid then apply_edit e row else row) (users db)),
       Some uid)
  /\ (forall row, In row (users db) -> User.id row <> uid -> In row (users (store_of x)))
  /\ map User.id (users (store_of x)) = map User.id (users db)
  /\ map User.username (users (store_of x)) = map User.username (users db)
  /\ map User.email (users (store_of x)) = map User.email (users db)
  /\ map User.password (users (store_of x)) = map User.password (users db).
Proof.
  intros Hc Hu x. pose proof (get_user_id uid db u Hu) as Hid.
  set (g := fun row => if User.id row =? uid then apply_edit e row else row).
  assert (Hg : forall row,
             User.id (g row) = User.id row /\ User.username (g row) = User.username row
             /\ User.email (g row) = User.email row
             /\ User.password (g row) = User.password row).
  { intros row. unfold g. destruct (User.id row =? uid); [|repeat split].
    apply apply_edit_identity. }
  assert (Hc' : constraints_ok (with_users db (map g (users db))) = true).
  { rewrite constraints_ok_users; [exact Hc| |]; rewrite map_map; apply map_ext;
      intros row; apply Hg. }
  assert (Hx : x = (jsonify [("success", PBool true); ("message", PStr "Profile updated")] 200,
                    with_users db (map g (users db)), Some uid)).
  { subst x. unfold edit_profile, update_user_row, when, bind_text, lift. run_view.
    rewrite Hu. subst uid.
    destruct e as [[b|] [a|] [v|]]; cbn -[constraints_ok str_take];
      match goal with
      | |- context [constraints_ok ?d] =>
          assert (Hd : d = with_users db (map g (users db)));
          [|assert (Hcd : constraints_ok d = true) by (rewrite Hd; exact Hc');
            rewrite Hcd; cbn [committed session];
            exact (f_equal (fun z => (_, z, _)) Hd)]
      end;
      unfold with_users; cbn -[str_take]; destruct db as [us ps cs rs fs os];
      cbn -[str_take] in *; f_equal; rewrite ?map_map;
      first [apply map_ext | etransitivity; [symmetry; apply map_id|apply map_ext]];
      intros row; unfold g, apply_edit; cbn -[str_take];
      destruct (User.id row =? User.id u) eqn:Hrow; cbn -[str_take];
      rewrite ?Hrow; cbn -[str_take]; rewrite ?Hrow; reflexivity. }
  split; [exact Hx|]. rewrite Hx. cbn [store_of fst snd users with_users].
  split; [|rewrite !map_map; repeat split; apply map_ext; intros row; apply Hg].
  intros row Hin Hne. apply in_map_iff. exists row. split; [|exact Hin].
  unfold g. apply Z.eqb_neq in Hne. now rewrite Hne.
Qed.

Lemma edit_profile_effect_witness :
  run (edit_profile (profile_data (mkProfileEdit (Some "Painter") None (Some (PStr "no")))))
    sample_db (Some 2)
  = (jsonify [("success", PBool true); ("message", PStr "Profile updated")] 200,
     with_users sample_db
       [alice; User.mk 2 "bob" "bob@x.com" "plain$hunter22" (Some "Painter") None true],
     Some 2).
Proof.
  exact (proj1 (edit_profile_effect sample_db 2 bob
                  (mkProfileEdit (Some "Painter") None (Some (PStr "no")))
                  eq_refl eq_refl)).
Defined.

(** ** Posts: creating and deleting *)

Lemma next_id_above (ids : list Z) (x : Z) : In x ids -> x < next_id ids.
Proof.
  unfold next_id. induction ids as [|a ids IH]; intros Hin; [destruct Hin|].
  cbn [fold_right]. destruct Hin as [->|Hin]; [lia|]. specialize (IH Hin). lia.
Qed.

Lemma next_id_positive (ids : list Z) : 1 <= next_id ids.
Proof.
  unfold next_id. induction ids as [|a ids IH]; cbn [fold_right]; lia.
Qed.

Lemma filter_fresh_last {A} (key : A -> Z) (l : list A) (a : A) :
  (forall x, In x l -> key x <> key a) ->
  filter (fun x => negb (key x =? key a)) (l ++ [a]) = l.
Proof.
  intros Hfresh. rewrite filter_app. cbn [filter]. rewrite Z.eqb_refl. cbn [negb].
  rewrite app_nil_r. induction l as [|b l IH]; [reflexivity|].
  cbn [filter]. pose proof (Hfresh b (or_introl eq_refl)) as Hb.
  apply Z.eqb_neq in Hb. rewrite Hb. cbn [negb]. f_equal. apply IH.
  intros x Hx. apply Hfresh. now right.
Qed.

(** What [create_post] answers to a body it accepts. *)
Lemma create_post_accepted (db : DB) (uid : Z) (u : User.t) (now : Z) (n : NewPost) :
  constraints_ok db = true ->
  get_user uid db = Some u ->
  1 <= str_len (new_title n) <= 200 ->
  1 <= str_len (new_image_url n) ->
  price_accepted (new_price n) ->
  run (create_post now (new_post_data n)) db (Some uid)
  = (jsonify [("success", PBool true);
              ("post_id", PInt (Post.id (new_post_row db n (User.id u) now)))] 201,
     with_posts db (posts db ++ [new_post_row db n (User.id u) now]),
     Some uid).
Proof.
  intros Hc Hu Ht Hi Hacc. destruct n as [t de i pr s]. cbn in Ht, Hi.
  unfold price_accepted in Hacc. cbn in Hacc.
  assert (Ht0 : String.eqb t "" = false) by (apply str_len_nonempty; lia).
  assert (Hi0 : String.eqb i "" = false) by (apply str_len_nonempty; lia).
  assert (Hlen : (200 <? str_len t) = false) by (apply Z.ltb_ge; lia).
  assert (Hc' : forall l, constraints_ok (with_posts db l) = true) by (intros l; exact Hc).
  assert (Hprice : match pr with
                   | Some v => truthy v = false
                               \/ (truthy v = true /\ validate_price v = true
                                   /\ exists f, py_float v = Done f)
                   | None => True
                   end).
  { destruct pr as [v|]; [|exact I]. destruct (truthy v) eqn:Hv; [right|now left].
    specialize (Hacc eq_refl). split; [reflexivity|]. split; [exact Hacc|].
    apply validate_price_float in Hacc. destruct Hacc as (f & Hf & _). now exists f. }
  unfold create_post, new_post_data, new_post_row, unpriced_post, stored_price,
    price_or_none, db_add_post, or_else, missing_field, bind_text, lift.
  run_view. rewrite Hu.
  destruct de as [de|], pr as [pr|], s as [s|];
    try destruct Hprice as [Hf|(Hv & Hval & f & Hf)];
    cbn -[Z.ltb str_len next_id constraints_ok str_take py_float validate_price];
    rewrite ?Ht0, ?Hi0;
    cbn -[Z.ltb str_len next_id constraints_ok str_take py_float validate_price];
    rewrite ?Hlen;
    cbn -[Z.ltb str_len next_id constraints_ok str_take py_float validate_price];
    rewrite ?Hf, ?Hv;
    cbn -[Z.ltb str_len next_id constraints_ok str_take py_float validate_price];
    rewrite ?Hval;
    cbn -[Z.ltb str_len next_id constraints_ok str_take py_float validate_price];
    rewrite ?Hi0;
    cbn -[Z.ltb str_len next_id constraints_ok str_take py_float validate_price];
    rewrite ?Hf, ?Hv;
    cbn -[Z.ltb str_len next_id constraints_ok str_take py_float validate_price];
    rewrite ?Hf;
    cbn -[Z.ltb str_len next_id constraints_ok str_take py_float validate_price];
    rewrite Hc'; reflexivity.
Qed.

Lemma get_post_fresh (db : DB) : get_post (next_id (map Post.id (posts db))) db = None.
Proof.
  unfold get_post. apply find_all_false. intros p Hp. apply Z.eqb_neq.
  pose proof (next_id_above (map Post.id (posts db)) (Post.id p) (in_map _ _ _ Hp)). lia.
Qed.

(** X7. A body with a title of 1 to 200 characters, an image and a price
    that [validate_price] accepts is stored by [create_post] with the
    price [float] makes of it, a float in (0, 999999]; the answer is 201
    with the new id, under which the post is then found, owned by the
    caller. *)
Theorem create_post_stores_price (db : DB) (uid : Z) (u : User.t) (now : Z) (n : NewPost)
    (v : pyval) :
  constraints_ok db = true ->
  get_user uid db = Some u ->
  1 <= str_len (new_title n) <= 200 ->
  1 <= str_len (new_image_url n) ->
  new_price n = Some v ->
  validate_price v = true ->
  exists f,
    let row := Post.with_price (unpriced_post db n (User.id u) now) (Some f) in
    let x := run (create_post now (new_post_data n)) db (Some uid) in
    py_float v = Done f
    /\ price_in_range f = true
    /\ x = (jsonify [("success", PBool true); ("post_id", PInt (Post.id row))] 201,
            with_posts db (posts db ++ [row]), Some uid)
    /\ get_post (Post.id row) (store_of x) = Some row
    /\ Post.user_id row = User.id u.
Proof.
  intros Hc Hu Ht Hi Hv Hval.
  pose proof Hval as Hf. apply validate_price_float in Hf. destruct Hf as (f & Hf & Hrange).
  exists f. cbv zeta. split; [exact Hf|]. split; [exact Hrange|].
  assert (Hrow : new_post_row db n (User.id u) now
                 = Post.with_price (unpriced_post db n (User.id u) now) (Some f)).
  { unfold new_post_row, stored_price. rewrite Hv, (validate_price_truthy v Hval), Hf.
    reflexivity. }
  assert (Hacc : price_accepted (new_price n)) by (rewrite Hv; intros _; exact Hval).
  rewrite (create_post_accepted db uid u now n Hc Hu Ht Hi Hacc), Hrow.
  split; [reflexivity|]. split; [|reflexivity].
  cbn [store_of fst snd]. unfold get_post. cbn [posts with_posts].
  apply find_app_last; [apply get_post_fresh|]. apply Z.eqb_refl.
Qed.

Lemma create_post_stores_price_witness :
  run (create_post 7 (new_post_data (mkNewPost "Dawn" None "http://x/3.png"
                                       (Some (PStr "12.5")) (Some (PBool true)))))
    sample_db (Some 1)
  = (jsonify [("success", PBool true); ("post_id", PInt 3)] 201,
     with_posts sample_db
       [sky; sketch;
        Post.mk 3 "Dawn" "" "http://x/3.png" (Some (float_of_decimal false 125 (-1))) true 1 7],
     Some 1).
Proof.
  destruct (create_post_stores_price sample_db 1 alice 7
              (mkNewPost "Dawn" None "http://x/3.png" (Some (PStr "12.5")) (Some (PBool true)))
              (PStr "12.5") eq_refl eq_refl)
    as (f & Hf & _ & Hx & _).
  - cbn. lia.
  - cbn. lia.
  - reflexivity.
  - reflexivity.
  - injection Hf as <-. exact Hx.
Defined.

Lemma get_post_after_delete (db : DB) (pid q : Z) :
  q <> pid ->
  get_post q (with_posts db (filter (fun p => negb (Post.id p =? pid)) (posts db)))
  = get_post q db.
Proof.
  intros Hq. unfold get_post. cbn [posts with_posts].
  induction (posts db) as [|a l IH]; [reflexivity|].
  cbn [filter find]. destruct (Post.id a =? pid) eqn:Ha; cbn [negb find].
  - apply Z.eqb_eq in Ha. rewrite IH.
    destruct (Z.eqb_spec (Post.id a) q); [lia|reflexivity].
  - destruct (Post.id a =? q); [reflexivity|exact IH].
Qed.

(** What [delete_post] answers to the owner. *)
Lemma delete_post_owner_run (db : DB) (uid : Z) (u : User.t) (pid : Z) (post : Post.t) :
  constraints_ok db = true ->
  get_user uid db = Some u ->
  get_post pid db = Some post ->
  Post.user_id post = User.id u ->
  run (delete_post pid) db (Some uid)
  = (jsonify [("success", PBool true); ("message", PStr "Post deleted")] 200,
     with_posts db (filter (fun p => negb (Post.id p =? pid)) (posts db)),
     Some uid).
Proof.
  intros Hc Hu Hp Ho. pose proof (get_post_id pid db post Hp) as Hid.
  apply Z.eqb_eq in Ho. unfold delete_post, db_delete_post. run_view.
  rewrite Hu, Hp. cbn [fst snd]. rewrite Ho, Hid.
  cbn [negb committed pending unflushable session fst snd].
  rewrite constraints_ok_posts, Hc. reflexivity.
Qed.

(** X8. When the owner deletes a post the answer is 200 and exactly the
    rows with that id leave the post table: the post is no longer found,
    every other post is found as before, and nothing cascades, the
    favorites, reviews and orders that name the post stay in the store.
    Deleting it a second time answers 500, since the [NotFound] of
    [get_or_404] is caught by the handler's own [except] (for an id too
    large for SQLite it is the [OverflowError] of sqlite3 that is
    caught). *)
Theorem delete_post_by_owner (db : DB) (uid : Z) (u : User.t) (pid : Z) (post : Post.t) :
  constraints_ok db = true ->
  get_user uid db = Some u ->
  get_post pid db = Some post ->
  Post.user_id post = User.id u ->
  let x := run (delete_post pid) db (Some uid) in
  x = (jsonify [("success", PBool true); ("message", PStr "Post deleted")] 200,
       with_posts db (filter (fun p => negb (Post.id p =? pid)) (posts db)),
       Some uid)
  /\ get_post pid (store_of x) = None
  /\ (forall q, q <> pid -> get_post q (store_of x) = get_post q db)
  /\ favorites (store_of x) = favorites db
  /\ reviews (store_of x) = reviews db
  /\ orders (store_of x) = orders db
  /\ run (delete_post pid) (store_of x) (Some uid)
     = (mkResponse (JsonException (missing_row [pid])) 500, store_of x, Some uid).
Proof.
  intros Hc Hu Hp Ho x.
  pose proof (get_post_id pid db post Hp) as Hid.
  assert (Hx : x = (jsonify [("success", PBool true); ("message", PStr "Post deleted")] 200,
                    with_posts db (filter (fun p => negb (Post.id p =? pid)) (posts db)),
                    Some uid))
    by exact (delete_post_owner_run db uid u pid post Hc Hu Hp Ho).
  assert (Hgone : get_post pid (store_of x) = None).
  { rewrite Hx. cbn [store_of fst snd]. unfold get_post. cbn [posts with_posts].
    apply find_all_false. intros p Hin. apply filter_In in Hin.
    destruct Hin as [_ Hin]. now apply negb_true_iff in Hin. }
  split; [exact Hx|]. split; [exact Hgone|].
  split; [|split; [|split; [|split]]]; try (rewrite Hx; reflexivity).
  - intros q Hq. rewrite Hx. cbn [store_of fst snd]. now apply get_post_after_delete.
  - unfold delete_post. run_view.
    destruct (get_user uid (store_of x)); rewrite Hgone; reflexivity.
Qed.

Lemma delete_post_by_owner_witness :
  run (delete_post 1) sample_db (Some 1)
  = (jsonify [("success", PBool true); ("message", PStr "Post deleted")] 200,
     with_posts sample_db [sketch], Some 1).
Proof.
  exact (proj1 (delete_post_by_owner sample_db 1 alice 1 sky
                  eq_refl eq_refl eq_refl eq_refl)).
Defined.

(** X9. Creating a post and then deleting it under the id the answer
    gave restores the store: the two requests together leave every table
    as it was. *)
Theorem create_then_delete_post (db : DB) (uid : Z) (u : User.t) (now : Z) (n : NewPost) :
  constraints_ok db = true ->
  get_user uid db = Some u ->
  1 <= str_len (new_title n) <= 200 ->
  1 <= str_len (new_image_url n) ->
  price_accepted (new_price n) ->
  let x1 := run (create_post now (new_post_data n)) db (Some uid) in
  exists pid,
    response_of x1 = jsonify [("success", PBool true); ("post_id", PInt pid)] 201
    /\ store_of x1 <> db
    /\ run (delete_post pid) (store_of x1) (cookie_of x1)
       = (jsonify [("success", PBool true); ("message", PStr "Post deleted")] 200,
          db, Some uid).
Proof.
  intros Hc Hu Ht Hi Hacc x1.
  set (row := new_post_row db n (User.id u) now).
  assert (Hx1 : x1 = (jsonify [("success", PBool true); ("post_id", PInt (Post.id row))] 201,
                      with_posts db (posts db ++ [row]), Some uid))
    by exact (create_post_accepted db uid u now n Hc Hu Ht Hi Hacc).
  exists (Post.id row). rewrite Hx1. cbn [response_of store_of cookie_of fst snd].
  split; [reflexivity|]. split.
  - intros Heq. apply (f_equal (fun d => List.length (posts d))) in Heq.
    cbn [posts with_posts] in Heq. rewrite length_app in Heq. cbn in Heq. lia.
  - assert (Hfresh : forall p, In p (posts db) -> Post.id p <> Post.id row).
    { intros p Hp. change (Post.id row) with (next_id (map Post.id (posts db))).
      pose proof (next_id_above (map Post.id (posts db)) (Post.id p) (in_map _ _ _ Hp)).
      lia. }
    unfold delete_post, db_delete_post. run_view.
    change (get_user uid (with_posts db (posts db ++ [row]))) with (get_user uid db).
    rewrite Hu. unfold get_post at 1. cbn [posts with_posts].
    rewrite (find_app_last (fun p => Post.id p =? Post.id row) (posts db) row
               (get_post_fresh db) (Z.eqb_refl _)).
    cbn [fst snd]. change (Post.user_id row) with (User.id u).
    rewrite Z.eqb_refl. cbn [negb committed pending unflushable session fst snd posts with_posts].
    rewrite (filter_fresh_last Post.id (posts db) row Hfresh).
    rewrite !constraints_ok_posts, Hc. cbn [committed session].
    destruct db; reflexivity.
Qed.

Lemma create_then_delete_post_witness :
  exists pid,
    response_of (run (create_post 7 (new_post_data
                                       (mkNewPost "Dawn" None "http://x/3.png" None None)))
                   sample_db (Some 1))
    = jsonify [("success", PBool true); ("post_id", PInt pid)] 201
    /\ run (delete_post pid)
         (store_of (run (create_post 7 (new_post_data
                                          (mkNewPost "Dawn" None "http://x/3.png" None None)))
                      sample_db (Some 1)))
         (Some 1)
       = (jsonify [("success", PBool true); ("message", PStr "Post deleted")] 200,
          sample_db, Some 1).
Proof.
  destruct (create_then_delete_post sample_db 1 alice 7
              (mkNewPost "Dawn" None "http://x/3.png" None None) eq_refl eq_refl)
    as (pid & Hr & _ & Hd).
  - cbn. lia.
  - cbn. lia.
  - exact I.
  - exists pid. split; [exact Hr|exact Hd].
Defined.

(** ** Reviews *)

(** X10. [create_review] checks the rating and nothing else.  With a
    rating that [validate_rating] accepts and a post id that fits
    SQLite's 64-bit integer it stores one review with the integer [int]
    makes of the rating, from 1 to 5, and the comment cut to 500
    characters, and answers 201, whether or not a post has the id of the
    URL.  With a post id that does not fit, the insert fails in sqlite3:
    the answer is 500 and nothing is stored.  With any other rating it
    answers 400 and stores nothing. *)
Theorem create_review_effect (db : DB) (uid : Z) (u : User.t) (now pid : Z) (n : NewReview) :
  constraints_ok db = true ->
  get_user uid db = Some u ->
  let x := run (create_review now pid (review_data n)) db (Some uid) in
  (validate_rating (review_rating n) = false ->
   x = (jsonify_error "Rating must be 1-5" 400, db, Some uid))
  /\ (validate_rating (review_rating n) = true -> sqlite_int pid = true ->
      exists r,
        py_int (review_rating n) = Done r
        /\ 1 <= r <= 5
        /\ x = (jsonify [("success", PBool true)] 201,
                with_reviews db
                  (reviews db
                   ++ [Review.mk (next_id (map Review.id (reviews db))) r
                         (str_take 500 (match review_comment n with
                                        | Some s => s
                                        | None => ""
                                        end))
                         (User.id u) pid now]),
                Some uid))
  /\ (validate_rating (review_rating n) = true -> sqlite_int pid = false ->
      x = (mkResponse (JsonException OverflowError) 500, db, Some uid)).
Proof.
  intros Hc Hu x. subst x.
  assert (Hc' : forall l, constraints_ok (with_reviews db l) = true) by (intros l; exact Hc).
  destruct n as [rating comment]. cbn [review_rating review_comment].
  unfold create_review, review_data, db_add_review, bind_text, bind_int, lift. run_view.
  rewrite Hu. split; [|split].
  - intros Hbad. destruct comment; cbn -[validate_rating]; rewrite Hbad; reflexivity.
  - intros Hok Hfit. pose proof Hok as Hr. unfold validate_rating in Hr.
    destruct (py_int rating) as [r|] eqn:Hint; [|discriminate].
    exists r. split; [reflexivity|]. split; [lia|].
    destruct comment;
      cbn -[validate_rating py_int next_id constraints_ok str_take sqlite_int];
      rewrite Hok; cbn -[validate_rating py_int next_id constraints_ok str_take sqlite_int];
      rewrite Hint; cbn -[validate_rating py_int next_id constraints_ok str_take sqlite_int];
      rewrite Hfit; cbn -[validate_rating py_int next_id constraints_ok str_take sqlite_int];
      rewrite Hc'; reflexivity.
  - intros Hok Hbig. pose proof Hok as Hr. unfold validate_rating in Hr.
    destruct (py_int rating) as [r|] eqn:Hint; [|discriminate].
    destruct comment;
      cbn -[validate_rating py_int next_id constraints_ok str_take sqlite_int];
      rewrite Hok; cbn -[validate_rating py_int next_id constraints_ok str_take sqlite_int];
      rewrite Hint; cbn -[validate_rating py_int next_id constraints_ok str_take sqlite_int];
      rewrite Hbig; reflexivity.
Qed.

Lemma create_review_effect_witness :
  get_post 9 sample_db = None
  /\ run (create_review 7 9 (review_data (mkNewReview (PFloat three_and_a_half) None)))
       sample_db (Some 2)
     = (jsonify [("success", PBool true)] 201,
        with_reviews sample_db [Review.mk 1 3 "" 2 9 7], Some 2)
  /\ run (create_review 7 1 (review_data (mkNewReview (PInt 6) (Some "Nice"))))
       sample_db (Some 2)
     = (jsonify_error "Rating must be 1-5" 400, sample_db, Some 2)
  /\ run (create_review 7 (2 ^ 63) (review_data (mkNewReview (PInt 5) (Some "Nice"))))
       sample_db (Some 2)
     = (mkResponse (JsonException OverflowError) 500, sample_db, Some 2).
Proof.
  split; [reflexivity|]. split; [|split].
  - destruct (create_review_effect sample_db 2 bob 7 9
                (mkNewReview (PFloat three_and_a_half) None) eq_refl eq_refl)
      as (_ & H & _).
    destruct (H eq_refl eq_refl) as (r & Hr & _ & Hx). injection Hr as <-. exact Hx.
  - destruct (create_review_effect sample_db 2 bob 7 1
                (mkNewReview (PInt 6) (Some "Nice")) eq_refl eq_refl)
      as (H & _).
    exact (H eq_refl).
  - destruct (create_review_effect sample_db 2 bob 7 (2 ^ 63)
                (mkNewReview (PInt 5) (Some "Nice")) eq_refl eq_refl)
      as (_ & _ & H).
    exact (H eq_refl eq_refl).
Defined.

(** ** Commissions *)

(** X11. Only an artist can open a commission: for a user whose
    [is_artist] is false [create_commission] answers 403 whatever the body
    and stores nothing.  For an artist, a body with a title and a price
    that [validate_price] accepts is stored with the title cut to 200
    characters, the description to 1000 and the price [float] makes of it,
    a float in (0, 999999], and answered with 201 and the new id; a price
    that fails the check gives 400 and nothing stored. *)
Theorem create_commission_effect (db : DB) (uid : Z) (u : User.t) (now : Z) :
  constraints_ok db = true ->
  get_user uid db = Some u ->
  (User.is_artist u = false ->
   forall data,
     run (create_commission now data) db (Some uid)
     = (jsonify_error "Only artists can create commissions" 403, db, Some uid))
  /\ (User.is_artist u = true ->
      forall n,
        1 <= str_len (commission_title n) ->
        let x := run (create_commission now (commission_data n)) db (Some uid) in
        (validate_price (commission_price n) = false ->
         x = (jsonify_error "Title and valid price required" 400, db, Some uid))
        /\ (validate_price (commission_price n) = true ->
            exists f,
              let row := Commission.mk (next_id (map Commission.id (commissions db)))
                           (str_take 200 (commission_title n))
                           (str_take 1000 (match commission_description n with
                                           | Some s => s
                                           | None => ""
                                           end))
                           f (User.id u) now in
              py_float (commission_price n) = Done f
              /\ price_in_range f = true
              /\ x = (jsonify [("success", PBool true);
                               ("commission_id", PInt (Commission.id row))] 201,
                      with_commissions db (commissions db ++ [row]),
                      Some uid))).
Proof.
  intros Hc Hu. split.
  - intros Hart data. unfold create_commission. run_view. rewrite Hu. cbn [fst snd].
    rewrite Hart. reflexivity.
  - intros Hart [t d p] Ht. cbn [commission_title commission_description commission_price].
    cbn in Ht.
    assert (Ht0 : String.eqb t "" = false) by (apply str_len_nonempty; lia).
    assert (Hc' : forall l, constraints_ok (with_commissions db l) = true)
      by (intros l; exact Hc).
    unfold create_commission, commission_data, db_add_commission, or_else, missing_field,
      bind_text, lift.
    run_view. rewrite Hu. cbn [fst snd]. rewrite Hart. cbn [negb]. split.
    + intros Hbad.
      destruct d; cbn -[validate_price]; rewrite Ht0; cbn -[validate_price];
        rewrite Hbad; reflexivity.
    + intros Hok. pose proof Hok as Hf. apply validate_price_float in Hf.
      destruct Hf as (f & Hf & Hrange). exists f. cbv zeta.
      split; [exact Hf|]. split; [exact Hrange|].
      destruct d;
        cbn -[validate_price py_float next_id constraints_ok str_take];
        rewrite Ht0; cbn -[validate_price py_float next_id constraints_ok str_take];
        rewrite Hok; cbn -[validate_price py_float next_id constraints_ok str_take];
        rewrite Hf; cbn -[validate_price py_float next_id constraints_ok str_take];
        rewrite Hc'; reflexivity.
Qed.

Lemma create_commission_effect_witness :
  run (create_commission 7 (PDict [("title", PStr "Logo"); ("price", PInt 40)]))
    sample_db (Some 2)
  = (jsonify_error "Only artists can create commissions" 403, sample_db, Some 2)
  /\ run (create_commission 7 (commission_data (mkNewCommission "Logo" None (PInt 40))))
       sample_db (Some 1)
     = (jsonify [("success", PBool true); ("commission_id", PInt 2)] 201,
        with_commissions sample_db
          [portrait; Commission.mk 2 "Logo" "" (float_literal 40) 1 7],
        Some 1).
Proof.
  split.
  - destruct (create_commission_effect sample_db 2 bob 7 eq_refl eq_refl) as [H _].
    exact (H eq_refl _).
  - destruct (create_commission_effect sample_db 1 alice 7 eq_refl eq_refl) as [_ H].
    destruct (H eq_refl (mkNewCommission "Logo" None (PInt 40))) as [_ Hok].
    + cbn. lia.
    + destruct (Hok eq_refl) as (f & Hf & _ & Hx). injection Hf as <-. exact Hx.
Defined.

Lemma find_filter_other {A} (key : A -> Z) (l : list A) (k q : Z) :
  q <> k ->
  find (fun x => key x =? q) (filter (fun x => negb (key x =? k)) l)
  = find (fun x => key x =? q) l.
Proof.
  intros Hq. induction l as [|a l IH]; [reflexivity|].
  cbn [filter find]. destruct (key a =? k) eqn:Ha; cbn [negb find].
  - apply Z.eqb_eq in Ha. rewrite IH.
    destruct (Z.eqb_spec (key a) q); [lia|reflexivity].
  - destruct (key a =? q); [reflexivity|exact IH].
Qed.

Lemma get_commission_id (cid : Z) (db : DB) (c : Commission.t) :
  get_commission cid db = Some c -> Commission.id c = cid.
Proof.
  intros H. apply find_some in H. destruct H as [_ H]. now apply Z.eqb_eq in H.
Qed.

(** X12. When the artist who owns it deletes a commission the answer is
    200, the commission is no longer found and every other commission is
    found as before; the same request again answers 500. *)
Theorem delete_commission_by_owner (db : DB) (uid : Z) (u : User.t) (cid : Z)
    (c : Commission.t) :
  constraints_ok db = true ->
  get_user uid db = Some u ->
  get_commission cid db = Some c ->
  Commission.artist_id c = User.id u ->
  let x := run (delete_commission cid) db (Some uid) in
  x = (jsonify [("success", PBool true)] 200,
       with_commissions db
         (filter (fun k => negb (Commission.id k =? cid)) (commissions db)),
       Some uid)
  /\ get_commission cid (store_of x) = None
  /\ (forall q, q <> cid -> get_commission q (store_of x) = get_commission q db)
  /\ run (delete_commission cid) (store_of x) (Some uid)
     = (mkResponse (JsonException (missing_row [cid])) 500, store_of x, Some uid).
Proof.
  intros Hc Hu Hk Ho x.
  pose proof (get_commission_id cid db c Hk) as Hid.
  assert (Hx : x = (jsonify [("success", PBool true)] 200,
                    with_commissions db
                      (filter (fun k => negb (Commission.id k =? cid)) (commissions db)),
                    Some uid)).
  { subst x. apply Z.eqb_eq in Ho. unfold delete_commission, db_delete_commission.
    run_view. rewrite Hu, Hk. cbn [fst snd]. rewrite Ho, Hid.
    cbn [negb committed pending unflushable session fst snd].
    change (constraints_ok (with_commissions db ?l)) with (constraints_ok db).
    rewrite Hc. reflexivity. }
  assert (Hgone : get_commission cid (store_of x) = None).
  { rewrite Hx. cbn [store_of fst snd]. unfold get_commission.
    cbn [commissions with_commissions].
    apply find_all_false. intros k Hin. apply filter_In in Hin.
    destruct Hin as [_ Hin]. now apply negb_true_iff in Hin. }
  split; [exact Hx|]. split; [exact Hgone|]. split.
  - intros q Hq. rewrite Hx. cbn [store_of fst snd]. unfold get_commission.
    cbn [commissions with_commissions]. now apply find_filter_other.
  - unfold delete_commission. run_view.
    destruct (get_user uid (store_of x)); rewrite Hgone; reflexivity.
Qed.

Lemma delete_commission_by_owner_witness :
  run (delete_commission 1) sample_db (Some 1)
  = (jsonify [("success", PBool true)] 200, with_commissions sample_db [], Some 1).
Proof.
  exact (proj1 (delete_commission_by_owner sample_db 1 alice 1 portrait
                  eq_refl eq_refl eq_refl eq_refl)).
Defined.

(** ** What requests keep *)

Lemma records_kept_refl (db : DB) : records_kept db db.
Proof.
  split; [exists []; now rewrite app_nil_r|].
  split; [exists []; now rewrite app_nil_r|].
  intros u Hu. exists u. repeat split. exact Hu.
Qed.

Lemma records_kept_frame (db0 : DB) (f : DB -> DB) :
  (forall db, orders (f db) = orders db) ->
  (forall db, reviews (f db) = reviews db) ->
  (forall db, users (f db) = users db) ->
  write_keeps (both (records_kept db0)) f.
Proof.
  intros Ho Hr Hu env [Hc Hp]. split; [exact Hc|]. cbn [pending].
  unfold records_kept in *. now rewrite Ho, Hr, Hu.
Qed.

Lemma records_kept_add_user (db0 : DB) (row : User.t) :
  write_keeps (both (records_kept db0)) (fun db => with_users db (users db ++ [row])).
Proof.
  intros env [Hc (Ho & Hr & Hu)]. split; [exact Hc|]. cbn [pending].
  split; [exact Ho|]. split; [exact Hr|].
  intros u Hin. destruct (Hu u Hin) as (u' & Hin' & Hsame).
  exists u'. split; [|exact Hsame]. cbn [users with_users]. apply in_or_app. now left.
Qed.

Lemma records_kept_update_user (db0 : DB) (uid : Z) (g : User.t -> User.t) :
  (forall u, same_account u (g u)) ->
  write_keeps (both (records_kept db0))
    (fun db => with_users db (map (fun u => if User.id u =? uid then g u else u) (users db))).
Proof.
  intros Hg env [Hc (Ho & Hr & Hu)]. split; [exact Hc|]. cbn [pending].
  split; [exact Ho|]. split; [exact Hr|].
  intros u Hin. destruct (Hu u Hin) as (u' & Hin' & Hsame).
  exists (if User.id u' =? uid then g u' else u'). split.
  - cbn [users with_users]. apply in_map_iff. now exists u'.
  - destruct (User.id u' =? uid); [|exact Hsame].
    destruct Hsame as (H1 & H2 & H3 & H4), (Hg u') as (G1 & G2 & G3 & G4).
    repeat split; congruence.
Qed.

Lemma records_kept_add_order (db0 : DB) (row : Order.t) :
  write_keeps (both (records_kept db0)) (fun db => with_orders db (orders db ++ [row])).
Proof.
  intros env [Hc (Ho & Hr & Hu)]. split; [exact Hc|]. cbn [pending].
  split; [|split; [exact Hr|exact Hu]].
  destruct Ho as [l Ho]. exists (l ++ [row]). cbn [orders with_orders].
  now rewrite Ho, app_assoc.
Qed.

Lemma records_kept_add_review (db0 : DB) (row : Review.t) :
  write_keeps (both (records_kept db0)) (fun db => with_reviews db (reviews db ++ [row])).
Proof.
  intros env [Hc (Ho & Hr & Hu)]. split; [exact Hc|]. cbn [pending].
  split; [exact Ho|]. split; [|exact Hu].
  destruct Hr as [l Hr]. exists (l ++ [row]). cbn [reviews with_reviews].
  now rewrite Hr, app_assoc.
Qed.

Ltac records_write :=
  first [ apply records_kept_add_user
        | apply records_kept_add_order
        | apply records_kept_add_review
        | apply records_kept_update_user; intros ?; repeat split
        | apply records_kept_frame; intros ?; reflexivity ].

Lemma view_keeps_records gen chk txt (db0 : DB) (r : request) :
  keeps (both (records_kept db0)) (view gen chk txt r).
Proof.
  destruct r; unfold_views; unfold_rows; keeps_auto records_write.
Qed.

(** X13. No request deletes or rewrites an order or a review, and no
    request removes an account or changes its id, username, email or
    password: after any request the order table and the review table are
    the old ones with rows appended at most, and every account is still
    there. *)
Theorem records_are_kept gen chk txt (r : request) (db : DB) (cookie : option Z) :
  let db' := store_of (run (view gen chk txt r) db cookie) in
  (exists l, orders db' = orders db ++ l)
  /\ (exists l, reviews db' = reviews db ++ l)
  /\ (forall u, In u (users db) ->
        exists u', In u' (users db')
                   /\ User.id u' = User.id u
                   /\ User.username u' = User.username u
                   /\ User.email u' = User.email u
                   /\ User.password u' = User.password u).
Proof.
  cbv zeta.
  destruct (keeps_run _ _ db cookie (view_keeps_records gen chk txt db r)
              (conj (records_kept_refl db) (records_kept_refl db)))
    as (env & [(Ho & Hr & Hu) _] & ->).
  split; [exact Ho|]. split; [exact Hr|].
  intros u Hin. destruct (Hu u Hin) as (u' & Hin' & H1 & H2 & H3 & H4).
  exists u'. repeat split; auto.
Qed.

(** ** Stored prices *)

Lemma keeps_wp (I : Env -> Prop) {A} (m : M A) :
  (forall env, I env -> wp m (fun _ env' => I env') env) -> keeps I m.
Proof. intros H env HI. exact (H env HI). Qed.

Lemma py_get_getitem (data : pyval) (k : string) (a b : pyval) :
  py_get data k = Done a -> py_getitem data k = Done b -> a = b.
Proof.
  destruct data; try discriminate. cbn. destruct (assoc k d); [congruence|discriminate].
Qed.

Lemma prices_valid_posts (db : DB) (l : list Post.t) :
  prices_valid db ->
  (forall p, In p l -> price_ok (Post.price p)) ->
  prices_valid (with_posts db l).
Proof. intros (_ & Hc & Ho) Hl. split; [exact Hl|]. split; [exact Hc|exact Ho]. Qed.

Lemma prices_add_post (row : Post.t) :
  price_ok (Post.price row) ->
  write_keeps (both prices_valid) (fun db => with_posts db (posts db ++ [row])).
Proof.
  intros Hrow env [Hc Hp]. split; [exact Hc|]. cbn [pending].
  apply prices_valid_posts; [exact Hp|].
  intros p Hin. apply in_app_or in Hin. destruct Hin as [Hin|[<-|[]]]; [|exact Hrow].
  now apply (proj1 Hp).
Qed.

Lemma prices_update_post (pid : Z) (g : Post.t -> Post.t) :
  (forall p, price_ok (Post.price p) -> price_ok (Post.price (g p))) ->
  write_keeps (both prices_valid)
    (fun db => with_posts db (map (fun p => if Post.id p =? pid then g p else p) (posts db))).
Proof.
  intros Hg env [Hc Hp]. split; [exact Hc|]. cbn [pending].
  apply prices_valid_posts; [exact Hp|].
  intros p Hin. apply in_map_iff in Hin. destruct Hin as (q & <- & Hq).
  pose proof (proj1 Hp q Hq) as Hok. destruct (Post.id q =? pid); [now apply Hg|exact Hok].
Qed.

Lemma prices_delete_post (keep : Post.t -> bool) :
  write_keeps (both prices_valid) (fun db => with_posts db (filter keep (posts db))).
Proof.
  intros env [Hc Hp]. split; [exact Hc|]. cbn [pending].
  apply prices_valid_posts; [exact Hp|].
  intros p Hin. apply filter_In in Hin. now apply (proj1 Hp).
Qed.

Lemma prices_add_commission (row : Commission.t) :
  price_in_range (Commission.price row) = true ->
  write_keeps (both prices_valid)
    (fun db => with_commissions db (commissions db ++ [row])).
Proof.
  intros Hrow env [Hc (Hp & Hk & Ho)]. split; [exact Hc|]. cbn [pending].
  split; [exact Hp|]. split; [|exact Ho].
  intros c Hin. cbn [commissions with_commissions] in Hin.
  apply in_app_or in Hin. destruct Hin as [Hin|[<-|[]]]; [now apply Hk|exact Hrow].
Qed.

Lemma prices_delete_commission (keep : Commission.t -> bool) :
  write_keeps (both prices_valid)
    (fun db => with_commissions db (filter keep (commissions db))).
Proof.
  intros env [Hc (Hp & Hk & Ho)]. split; [exact Hc|]. cbn [pending].
  split; [exact Hp|]. split; [|exact Ho].
  intros c Hin. cbn [commissions with_commissions] in Hin.
  apply filter_In in Hin. now apply Hk.
Qed.

Lemma prices_frame (f : DB -> DB) :
  (forall db, posts (f db) = posts db) ->
  (forall db, commissions (f db) = commissions db) ->
  (forall db, orders (f db) = orders db) ->
  write_keeps (both prices_valid) f.
Proof.
  intros Hp Hk Ho env [Hc Hpend]. split; [exact Hc|]. cbn [pending].
  unfold prices_valid in *. now rewrite Hp, Hk, Ho.
Qed.

(** The order [create_order] adds carries the price of a stored post. *)
Lemma create_order_keeps_prices (now post_id : Z) :
  keeps (both prices_valid) (create_order now post_id).
Proof.
  apply keeps_wp. intros env [Hc Hp]. unfold create_order, db_add_order.
  wp_run.
  all: try (split; assumption).
  all: try (split; [exact Hc|exact Hc]).
  assert (Hrow : prices_valid
                   (with_orders (pending env)
                      (orders (pending env)
                       ++ [Order.mk (next_id (map Order.id (orders (pending env))))
                             (User.id t0) post_id (Post.price t) "pending" now]))).
  { destruct Hp as (Hposts & Hk & Ho). split; [exact Hposts|]. split; [exact Hk|].
    intros o Hin. cbn [orders with_orders] in Hin. apply in_app_or in Hin.
    destruct Hin as [Hin|[<-|[]]]; [now apply Ho|]. cbn [Order.price].
    apply Hposts. apply find_some in Heqo1. exact (proj1 Heqo1). }
  split; exact Hrow.
Qed.

Lemma price_ok_float (v : pyval) (f : spec_float) :
  validate_price v = true -> py_float v = Done f -> price_ok (Some f).
Proof. unfold validate_price. intros H Hf. rewrite Hf in H. exact H. Qed.

Ltac prices_write :=
  first [ apply prices_delete_post
        | apply prices_delete_commission
        | apply prices_frame; intros ?; reflexivity
        | apply prices_add_post; first [exact I | reflexivity | idtac]
        | apply prices_add_commission
        | apply prices_update_post; intros ? ?; first [assumption | idtac] ].

Lemma view_keeps_prices gen chk txt (r : request) :
  keeps (both prices_valid) (view gen chk txt r).
Proof.
  destruct r; try apply create_order_keeps_prices; unfold_views; unfold_rows;
    keeps_auto prices_write.
  all: try congruence.
  all: same_price_facts.
  all: cbn [Post.price Post.with_price Commission.price price_ok]; try exact I.
  all: repeat match goal with
              | H : obind (py_getitem ?d ?k) _ = Done _ |- _ =>
                  destruct (py_getitem d k) eqn:?; cbn [obind] in H; [|discriminate H]
              | H1 : py_get ?d ?k = Done ?a, H2 : py_getitem ?d ?k = Done ?b |- _ =>
                  pose proof (py_get_getitem d k a b H1 H2); subst a; clear H1
              end.
  all: change (price_ok (Some ?f)) with (price_in_range f = true) in *.
  all: eapply price_ok_float; eassumption.
Qed.

(** X14. Every price the application stores is a float in (0, 999999]:
    in every store the routes can reach a post has such a price or none, a
    commission has one, and an order has one; none is zero, negative,
    infinite or a NaN. *)
Theorem stored_prices_are_valid gen chk txt (db : DB) :
  reachable gen chk txt db ->
  (forall p f, In p (posts db) -> Post.price p = Some f ->
     exists q, float_value f = Some q /\ (0 < q)%Q /\ (q <= 999999)%Q)
  /\ (forall c, In c (commissions db) ->
       exists q, float_value (Commission.price c) = Some q /\ (0 < q)%Q /\ (q <= 999999)%Q)
  /\ (forall o, In o (orders db) ->
       exists f q, Order.price o = Some f
                   /\ float_value f = Some q /\ (0 < q)%Q /\ (q <= 999999)%Q).
Proof.
  intros Hreach.
  assert (Hvalid : prices_valid db).
  { induction Hreach as [|db cookie r _ IH].
    - repeat split; intros ? [].
    - destruct (keeps_run _ _ db cookie (view_keeps_prices gen chk txt r) (conj IH IH))
        as (env & [Henv _] & ->).
      exact Henv. }
  pose proof (reachable_constraints_ok _ _ _ _ Hreach) as Hc.
  destruct Hvalid as (Hp & Hk & Ho). split; [|split].
  - intros p f Hin Hf. apply price_in_range_value.
    specialize (Hp p Hin). now rewrite Hf in Hp.
  - intros c Hin. apply price_in_range_value. now apply Hk.
  - intros o Hin. unfold constraints_ok in Hc. apply andb_prop in Hc.
    destruct Hc as [_ Hc]. pose proof (proj1 (forallb_forall _ _) Hc o Hin) as Hsome.
    cbn beta in Hsome.
    specialize (Ho o Hin). destruct (Order.price o) as [f|]; [|discriminate Hsome].
    apply price_in_range_value in Ho. destruct Ho as (q & Hq). now exists f, q.
Qed.

Lemma stored_prices_are_valid_witness :
  exists q, float_value (float_literal 50) = Some q /\ (0 < q)%Q /\ (q <= 999999)%Q.
Proof.
  destruct (stored_prices_are_valid plain_hash plain_check no_real_text sample_db
              sample_db_reachable) as [H _].
  apply (H sky (float_literal 50)); [now left|reflexivity].
Defined.

(** ** Stored ratings *)

Lemma str_take_len (n : nat) (s : string) : str_len (str_take n s) <= Z.of_nat n.
Proof.
  unfold str_len. revert s. induction n as [|n IH]; intros s; [cbn; lia|].
  destruct s as [|c s]; [cbn; lia|]. cbn [str_take String.length].
  specialize (IH s). lia.
Qed.

Lemma ratings_frame (f : DB -> DB) :
  (forall db, reviews (f db) = reviews db) -> write_keeps (both ratings_valid) f.
Proof.
  intros Hr env [Hc Hp]. split; [exact Hc|]. cbn [pending].
  unfold ratings_valid in *. now rewrite Hr.
Qed.

Lemma create_review_keeps_ratings (now post_id : Z) (data : pyval) :
  keeps (both ratings_valid) (create_review now post_id data).
Proof.
  apply keeps_wp. intros env [Hc Hp]. unfold create_review, db_add_review.
  wp_run.
  all: try (split; assumption).
  all: try (split; [exact Hc|exact Hc]).
  all: try match goal with
           | H : match unflushable ?e with _ => _ end = None |- _ =>
               destruct (unflushable e); discriminate H
           end.
  match goal with
  | |- both _ (mkEnv ?d _ _ _) => assert (Hrow : ratings_valid d); [|split; exact Hrow]
  end.
  intros r Hin. cbn [reviews with_reviews] in Hin. apply in_app_or in Hin.
  destruct Hin as [Hin|[<-|[]]]; [now apply Hp|]. cbn [Review.rating Review.comment].
  wp_facts. split.
  - destruct (py_getitem data "rating") as [b|] eqn:Hb; [|discriminate].
    cbn [obind] in *.
    match goal with
    | H : py_get data "rating" = Done ?a |- _ =>
        pose proof (py_get_getitem data "rating" a b H Hb); subst a
    end.
    match goal with
    | H : validate_rating b = true, Hi : py_int b = Done _ |- _ =>
        unfold validate_rating in H; rewrite Hi in H; lia
    end.
  - match goal with
    | H : obind ?o _ = Done (PStr _) |- _ =>
        destruct o as [c|]; [|discriminate H]; cbn [obind] in H;
        destruct c; try discriminate H; injection H as <-
    end.
    apply (str_take_len 500).
Qed.

Lemma view_keeps_ratings gen chk txt (r : request) :
  keeps (both ratings_valid) (view gen chk txt r).
Proof.
  destruct r; try apply create_review_keeps_ratings; unfold_views; unfold_rows;
    keeps_auto ltac:(apply ratings_frame; intros ?; reflexivity).
Qed.

(** X15. Every review the application stores has a rating from 1 to 5 and
    a comment of at most 500 characters, in every store the routes can
    reach. *)
Theorem stored_ratings_are_valid gen chk txt (db : DB) :
  reachable gen chk txt db ->
  forall r, In r (reviews db) ->
    1 <= Review.rating r <= 5 /\ str_len (Review.comment r) <= 500.
Proof.
  induction 1 as [|db cookie r _ IH]; [intros ? []|].
  destruct (keeps_run _ _ db cookie (view_keeps_ratings gen chk txt r) (conj IH IH))
    as (env & [Henv _] & ->).
  exact Henv.
Qed.

Lemma reviewed_db_reachable : reachable plain_hash plain_check no_real_text reviewed_db.
Proof. apply reachable_replay, reachable_empty. Qed.

Lemma stored_ratings_are_valid_witness :
  1 <= Review.rating (Review.mk 1 4 "Lovely" 2 1 5) <= 5
  /\ str_len (Review.comment (Review.mk 1 4 "Lovely" 2 1 5)) <= 500.
Proof.
  apply (stored_ratings_are_valid plain_hash plain_check no_real_text reviewed_db
           reviewed_db_reachable).
  vm_compute. left. reflexivity.
Defined.

(** ** Stored accounts *)

Lemma accounts_frame (f : DB -> DB) :
  (forall db, users (f db) = users db) -> write_keeps (both accounts_valid) f.
Proof.
  intros Hu env [Hc Hp]. split; [exact Hc|]. cbn [pending].
  unfold accounts_valid in *. now rewrite Hu.
Qed.

Lemma accounts_add_user (row : User.t) :
  3 <= str_len (User.username row) <= 80 ->
  validate_email (PStr (User.email row)) = Done true ->
  write_keeps (both accounts_valid) (fun db => with_users db (users db ++ [row])).
Proof.
  intros Hn He env [Hc Hp]. split; [exact Hc|]. cbn [pending].
  intros u Hin. cbn [users with_users] in Hin. apply in_app_or in Hin.
  destruct Hin as [Hin|[<-|[]]]; [now apply Hp|now split].
Qed.

Lemma accounts_update_user (uid : Z) (g : User.t -> User.t) :
  (forall u, User.username (g u) = User.username u) ->
  (forall u, User.email (g u) = User.email u) ->
  write_keeps (both accounts_valid)
    (fun db => with_users db (map (fun u => if User.id u =? uid then g u else u) (users db))).
Proof.
  intros Hn He env [Hc Hp]. split; [exact Hc|]. cbn [pending].
  intros u Hin. cbn [users with_users] in Hin. apply in_map_iff in Hin.
  destruct Hin as (v & <- & Hv). specialize (Hp v Hv).
  destruct (User.id v =? uid); [|exact Hp]. now rewrite Hn, He.
Qed.

Lemma register_keeps_accounts gen txt (salt : string) (data : pyval) :
  keeps (both accounts_valid) (register gen txt salt data).
Proof.
  apply keeps_wp. intros env [Hc Hp].
  unfold register, user_by_username, user_by_email, db_add_user.
  wp_run.
  all: try (split; assumption).
  all: try (split; [exact Hc|exact Hc]).
  all: match goal with
       | |- both _ (mkEnv ?d _ _ _) => assert (Hrow : accounts_valid d); [|split; exact Hrow]
       end.
  all: intros u Hin; cbn [users with_users] in Hin; apply in_app_or in Hin;
    destruct Hin as [Hin|[<-|[]]]; [now apply Hp|];
    cbn [User.username User.email].
  all: wp_facts.
  split; [|assumption].
  match goal with
  | H : py_len (PStr _) = Done _ |- _ => cbn [py_len] in H; injection H as <-
  end.
  match goal with
  | H : _ || _ = false |- _ =>
      apply orb_false_elim in H; destruct H as [Hlo Hhi]; apply Z.ltb_ge in Hlo, Hhi
  end.
  lia.
Qed.

Ltac accounts_write :=
  first [ apply accounts_frame; intros ?; reflexivity
        | apply accounts_update_user; intros ?; reflexivity
        | apply accounts_add_user; [cbn; lia | reflexivity] ].

Lemma view_keeps_accounts gen chk txt (r : request) :
  keeps (both accounts_valid) (view gen chk txt r).
Proof.
  destruct r; try apply register_keeps_accounts; unfold_views; unfold_rows;
    keeps_auto accounts_write.
Qed.

(** X16. Every account the application stores has a username of 3 to 80
    characters and an email that [validate_email] accepts, no two accounts
    share a username and no two share an email, in every store the routes
    can reach. *)
Theorem stored_accounts_are_valid gen chk txt (db : DB) :
  reachable gen chk txt db ->
  (forall u, In u (users db) ->
     3 <= str_len (User.username u) <= 80
     /\ validate_email (PStr (User.email u)) = Done true)
  /\ distinct (map User.username (users db)) = true
  /\ distinct (map User.email (users db)) = true.
Proof.
  intros Hreach. split.
  - induction Hreach as [|db cookie r _ IH]; [intros ? []|].
    destruct (keeps_run _ _ db cookie (view_keeps_accounts gen chk txt r) (conj IH IH))
      as (env & [Henv _] & ->).
    exact Henv.
  - pose proof (reachable_constraints_ok _ _ _ _ Hreach) as Hc.
    unfold constraints_ok in Hc. apply andb_prop in Hc. destruct Hc as [Hc _].
    apply andb_prop in Hc. exact Hc.
Qed.

Lemma stored_accounts_are_valid_witness :
  3 <= str_len (User.username bob) <= 80
  /\ validate_email (PStr (User.email bob)) = Done true.
Proof.
  apply (proj1 (stored_accounts_are_valid plain_hash plain_check no_real_text sample_db
                  sample_db_reachable)).
  right. left. reflexivity.
Defined.

(** ** The email pattern *)

Lemma matches_seq_iff (r1 r2 : regex) (s : list ascii) :
  matches (Seq r1 r2) s <-> exists s1 s2, s = s1 ++ s2 /\ matches r1 s1 /\ matches r2 s2.
Proof.
  split.
  - intros H. inversion H; subst. eauto.
  - intros (s1 & s2 & -> & H1 & H2). now constructor.
Qed.

Lemma matches_alt_iff (r1 r2 : regex) (s : list ascii) :
  matches (Alt r1 r2) s <-> matches r1 s \/ matches r2 s.
Proof.
  split.
  - intros H. inversion H; subst; auto.
  - intros [H|H]; [now apply matches_alt_l|now apply matches_alt_r].
Qed.

Lemma matches_chr_iff (p : ascii -> bool) (s : list ascii) :
  matches (Chr p) s <-> exists c, s = [c] /\ p c = true.
Proof.
  split.
  - intros H. inversion H; subst. eauto.
  - intros (c & -> & H). now constructor.
Qed.

Lemma matches_eps_iff (s : list ascii) : matches Eps s <-> s = [].
Proof.
  split; [intros H; now inversion H|intros ->; constructor].
Qed.

Lemma matches_fail (s : list ascii) : ~ matches Fail s.
Proof. intros H. inversion H. Qed.

Lemma nullable_matches (r : regex) : nullable r = true <-> matches r [].
Proof.
  induction r as [| |p|r1 IH1 r2 IH2|r1 IH1 r2 IH2|r IH]; cbn [nullable].
  - split; [discriminate|]. intros H. now apply matches_fail in H.
  - split; [constructor|reflexivity].
  - split; [discriminate|]. intros H. apply matches_chr_iff in H.
    destruct H as (c & H & _). discriminate H.
  - rewrite andb_true_iff, IH1, IH2, matches_seq_iff. split.
    + intros [H1 H2]. now exists [], [].
    + intros (s1 & s2 & E & H1 & H2). symmetry in E. apply app_eq_nil in E.
      destruct E as [-> ->]. now split.
  - now rewrite orb_true_iff, IH1, IH2, matches_alt_iff.
  - split; [constructor|reflexivity].
Qed.

Lemma matches_star_step (r : regex) (c : ascii) (s : list ascii) :
  matches (Star r) (c :: s) ->
  exists s1 s2, s = s1 ++ s2 /\ matches r (c :: s1) /\ matches (Star r) s2.
Proof.
  intros H. remember (Star r) as r' eqn:Hr. remember (c :: s) as cs eqn:Hcs.
  revert Hr Hcs.
  induction H as [| | | | | |r0 s1 s2 H1 _ H2 IH2]; intros Hr Hcs; try discriminate.
  injection Hr as ->. destruct s1 as [|d s1].
  - cbn in Hcs. now apply IH2.
  - cbn in Hcs. injection Hcs as -> <-. now exists s1, s2.
Qed.

Lemma deriv_matches (r : regex) (c : ascii) (s : list ascii) :
  matches (deriv c r) s <-> matches r (c :: s).
Proof.
  revert s. induction r as [| |p|r1 IH1 r2 IH2|r1 IH1 r2 IH2|r IH]; intros s; cbn [deriv].
  - split; intros H; now apply matches_fail in H.
  - split; intros H; [now apply matches_fail in H|].
    apply matches_eps_iff in H. discriminate H.
  - rewrite matches_chr_iff. destruct (p c) eqn:Hp.
    + rewrite matches_eps_iff. split.
      * intros ->. now exists c.
      * intros (d & [= <- ->] & _). reflexivity.
    + split; [intros H; now apply matches_fail in H|].
      intros (d & [= <- ->] & Hd). congruence.
  - assert (Hseq : matches (Seq (deriv c r1) r2) s <->
                   exists s1 s2, s = s1 ++ s2 /\ matches r1 (c :: s1) /\ matches r2 s2).
    { rewrite matches_seq_iff. split.
      - intros (s1 & s2 & -> & H1 & H2). exists s1, s2.
        split; [reflexivity|]. split; [now apply IH1|exact H2].
      - intros (s1 & s2 & -> & H1 & H2). exists s1, s2.
        split; [reflexivity|]. split; [now apply IH1|exact H2]. }
    assert (Hcons : matches (Seq r1 r2) (c :: s) <->
                    (exists s1 s2, s = s1 ++ s2 /\ matches r1 (c :: s1) /\ matches r2 s2)
                    \/ (matches r1 [] /\ matches r2 (c :: s))).
    { rewrite matches_seq_iff. split.
      - intros ([|d s1] & s2 & E & H1 & H2).
        + cbn in E. subst s2. right. now split.
        + cbn in E. injection E as <- ->. left. now exists s1, s2.
      - intros [(s1 & s2 & -> & H1 & H2)|[H1 H2]].
        + now exists (c :: s1), s2.
        + now exists [], (c :: s). }
    rewrite Hcons. destruct (nullable r1) eqn:Hn.
    + rewrite matches_alt_iff, Hseq, IH2. apply nullable_matches in Hn. tauto.
    + rewrite Hseq. split; [now left|].
      intros [H|[H _]]; [exact H|]. apply nullable_matches in H. congruence.
  - now rewrite !matches_alt_iff, IH1, IH2.
  - rewrite matches_seq_iff. split.
    + intros (s1 & s2 & -> & H1 & H2). apply IH in H1.
      exact (matches_star_cons r (c :: s1) s2 H1 H2).
    + intros H. apply matches_star_step in H. destruct H as (s1 & s2 & -> & H1 & H2).
      exists s1, s2. split; [reflexivity|]. split; [now apply IH|exact H2].
Qed.

(** Matching by derivatives decides the language of the expression. *)
Lemma re_match_matches (r : regex) (s : list ascii) :
  re_match r s = true <-> matches r s.
Proof.
  unfold re_match. revert r. induction s as [|c s IH]; intros r; cbn [fold_left].
  - apply nullable_matches.
  - rewrite IH. apply deriv_matches.
Qed.

Lemma matches_star_chr (p : ascii -> bool) (s : list ascii) :
  matches (Star (Chr p)) s <-> forallb p s = true.
Proof.
  split.
  - intros H. remember (Star (Chr p)) as r eqn:Hr. revert Hr.
    induction H as [| | | | | |r0 s1 s2 H1 _ H2 IH2]; intros Hr; try discriminate.
    + reflexivity.
    + injection Hr as ->. inversion H1; subst. cbn. rewrite IH2 by reflexivity.
      now rewrite andb_true_r.
  - induction s as [|c s IH]; intros H; [constructor|].
    cbn in H. apply andb_prop in H. destruct H as [Hc Hs].
    exact (matches_star_cons (Chr p) [c] s (matches_chr p c Hc) (IH Hs)).
Qed.

Lemma matches_plus_chr (p : ascii -> bool) (s : list ascii) :
  matches (Plus (Chr p)) s <-> s <> [] /\ forallb p s = true.
Proof.
  unfold Plus. rewrite matches_seq_iff. split.
  - intros (s1 & s2 & -> & H1 & H2). apply matches_chr_iff in H1.
    destruct H1 as (c & -> & Hc). apply matches_star_chr in H2.
    split; [discriminate|]. cbn. now rewrite Hc, H2.
  - intros [Hne H]. destruct s as [|c s]; [contradiction|].
    cbn in H. apply andb_prop in H. destruct H as [Hc Hs].
    exists [c], s. split; [reflexivity|]. split; [now constructor|].
    now apply matches_star_chr.
Qed.

Lemma matches_end_anchor (s : list ascii) :
  matches end_anchor s <-> s = [] \/ s = ["010"%char].
Proof.
  unfold end_anchor. rewrite matches_alt_iff, matches_eps_iff, matches_chr_iff. split.
  - intros [H|(c & -> & Hc)]; [now left|]. apply Ascii.eqb_eq in Hc. subst c. now right.
  - intros [H|H]; [now left|]. right. now exists "010"%char.
Qed.

Lemma matches_email_pattern (s : list ascii) :
  matches email_pattern s <-> email_shape s.
Proof.
  unfold email_pattern, email_shape.
  rewrite matches_seq_iff. split.
  - intros (local & s1 & -> & Hl & H). apply matches_plus_chr in Hl.
    apply matches_seq_iff in H. destruct H as (at_ & s2 & -> & Hat & H).
    apply matches_chr_iff in Hat. destruct Hat as (c & -> & Hc).
    apply Ascii.eqb_eq in Hc. subst c.
    apply matches_seq_iff in H. destruct H as (domain & s3 & -> & Hd & H).
    apply matches_plus_chr in Hd.
    apply matches_seq_iff in H. destruct H as (dot & s4 & -> & Hdot & H).
    apply matches_chr_iff in Hdot. destruct Hdot as (c & -> & Hc).
    apply Ascii.eqb_eq in Hc. subst c.
    apply matches_seq_iff in H. destruct H as (a1 & s5 & -> & Ha1 & H).
    apply matches_chr_iff in Ha1. destruct Ha1 as (c1 & -> & Hc1).
    apply matches_seq_iff in H. destruct H as (a2 & s6 & -> & Ha2 & H).
    apply matches_chr_iff in Ha2. destruct Ha2 as (c2 & -> & Hc2).
    apply matches_seq_iff in H. destruct H as (rest & tail & -> & Hrest & Htail).
    apply matches_star_chr in Hrest. apply matches_end_anchor in Htail.
    exists local, domain, (c1 :: c2 :: rest), tail. cbn [app].
    split; [reflexivity|]. split; [apply Hl|]. split; [apply Hl|].
    split; [apply Hd|]. split; [apply Hd|]. split; [cbn; lia|].
    split; [cbn; now rewrite Hc1, Hc2, Hrest|exact Htail].
  - intros (local & domain & tld & tail & -> & Hl0 & Hl & Hd0 & Hd & Hlen & Htld & Htail).
    destruct tld as [|c1 [|c2 rest]]; [cbn in Hlen; lia|cbn in Hlen; lia|].
    cbn in Htld. apply andb_prop in Htld. destruct Htld as [Hc1 Htld].
    apply andb_prop in Htld. destruct Htld as [Hc2 Hrest].
    exists local, ("@"%char :: domain ++ "."%char :: (c1 :: c2 :: rest) ++ tail).
    split; [reflexivity|]. split; [now apply matches_plus_chr|].
    apply (matches_seq _ _ ["@"%char]); [now constructor|].
    apply matches_seq; [now apply matches_plus_chr|].
    apply (matches_seq _ _ ["."%char]); [now constructor|].
    apply (matches_seq _ _ [c1]); [now constructor|].
    apply (matches_seq _ _ [c2]); [now constructor|].
    apply matches_seq; [now apply matches_star_chr|now apply matches_end_anchor].
Qed.

(** X17. [validate_email] accepts exactly the strings made of a non-empty
    local part of letters, digits and [._%+-], an [@], a non-empty domain
    of letters, digits, dots and hyphens, a dot and at least two letters,
    optionally followed by one newline, which [$] lets through; it raises
    [TypeError] when the value is not a string. *)
Theorem validate_email_exact :
  (forall s, validate_email (PStr s) = Done true <-> email_shape (chars s))
  /\ (forall v b, validate_email v = Done b -> exists s, v = PStr s)
  /\ validate_email (PStr (String "a" (String "@" (String "b" (String "." (String "c"
                       (String "o" (String "010" EmptyString)))))))) = Done true.
Proof.
  split; [|split].
  - intros s. unfold validate_email. rewrite <- matches_email_pattern, <- re_match_matches.
    split; [intros [= H]; exact H|intros H; now rewrite H].
  - intros v b H. destruct v; try discriminate H. now eexists.
  - reflexivity.
Qed.

(** ** Seeding twice *)

Ltac wp_seed := repeat first [ apply wp_sample_posts; intros ? ? | wp_step ]; wp_simpl.

Lemma demo_fits_row (db : DB) (row : User.t) :
  User.username row = "demo_artist" -> User.email row = "demo@example.com" ->
  constraints_ok (with_users db (users db ++ [row])) = demo_fits db.
Proof.
  intros Hn He. unfold demo_fits, constraints_ok. cbn [users orders with_users].
  rewrite !map_app. cbn [map]. now rewrite Hn, He.
Qed.

Lemma seed_rows_nonempty (rows : list Post.t) (uid now : Z) :
  Forall2 same_content rows (seed_rows uid now) -> rows <> [].
Proof. intros H ->. inversion H. Qed.

Lemma length_zero_nil {A} (l : list A) : (List.length l =? 0)%nat = true <-> l = [].
Proof. destruct l; cbn; split; intros H; congruence. Qed.

(** What [seed_data] does, by the state of the store. *)
Lemma seed_data_cases gen txt (salt : string) (now : Z) (db : DB) (cookie : option Z) :
  let x := run (seed_data gen txt salt now) db cookie in
  (demo_user db <> None /\ posts db <> [] /\ x = (seed_ok, db, cookie))
  \/ (demo_user db <> None /\ posts db = [] /\ constraints_ok db = true
      /\ exists rows, rows <> [] /\ x = (seed_ok, with_posts db rows, cookie))
  \/ (demo_user db <> None /\ posts db = [] /\ constraints_ok db = false
      /\ store_of x = db /\ status (response_of x) = 500)
  \/ (demo_user db = None /\ demo_fits db = true /\ posts db <> []
      /\ exists row, User.username row = "demo_artist"
                     /\ x = (seed_ok, with_users db (users db ++ [row]), cookie))
  \/ (demo_user db = None /\ demo_fits db = true /\ posts db = []
      /\ exists row rows, User.username row = "demo_artist" /\ rows <> []
                          /\ x = (seed_ok,
                                  with_posts (with_users db (users db ++ [row])) rows,
                                  cookie))
  \/ (demo_user db = None /\ demo_fits db = false
      /\ store_of x = db /\ status (response_of x) = 500).
Proof.
  cbv zeta. apply run_wp.
  unfold seed_data, user_by_username, db_add_user, demo_user. wp_seed.
  all: wp_facts; cbn [sql_text_param] in *; wp_facts.
  all: unfold finish; cbn [committed session store_of response_of fst snd].
  all: repeat match goal with
              | H : (List.length _ =? 0)%nat = true |- _ => apply length_zero_nil in H
              | H : (List.length ?l =? 0)%nat = false |- _ =>
                  assert (l <> []) by (intros E; apply length_zero_nil in E; congruence);
                  clear H
              | H : constraints_ok (with_posts _ _) = _ |- _ =>
                  rewrite constraints_ok_posts in H
              | H : constraints_ok (with_users ?d (users ?d ++ [_])) = _ |- _ =>
                  rewrite (demo_fits_row d) in H by reflexivity
              | H : Forall2 same_content _ _ |- _ => apply seed_rows_nonempty in H
              end.
  all: try match goal with H : posts _ = [] |- _ => rewrite ?H; cbn [app] end.
  all: first
    [ solve [left; split; [congruence|split; [assumption|reflexivity]]]
    | solve [right; left; split; [congruence|]; split; [reflexivity|];
             split; [assumption|]; eexists; split; [eassumption|reflexivity]]
    | solve [right; right; left; split; [congruence|]; split; [reflexivity|];
             split; [assumption|]; split; reflexivity]
    | solve [right; right; right; left; split; [assumption|]; split; [assumption|];
             split; [assumption|]; eexists; split; [|reflexivity]; reflexivity]
    | solve [right; right; right; right; left; split; [assumption|];
             split; [assumption|]; split; [reflexivity|]; eexists; eexists;
             split; [|split; [eassumption|reflexivity]]; reflexivity]
    | solve [right; right; right; right; right; split; [assumption|];
             split; [assumption|]; split; reflexivity]
    | idtac ].
  all: congruence.
Qed.

Lemma demo_user_added (db : DB) (row : User.t) :
  demo_user db = None -> User.username row = "demo_artist" ->
  demo_user (with_users db (users db ++ [row])) = Some row.
Proof.
  intros Hnone Hrow. unfold demo_user in *. cbn [users with_users].
  apply find_app_last; [exact Hnone|]. rewrite Hrow. reflexivity.
Qed.

(** A store with the demo account and a post is left alone. *)
Lemma seed_data_settled gen txt (salt : string) (now : Z) (db : DB) (cookie : option Z) :
  demo_user db <> None -> posts db <> [] ->
  run (seed_data gen txt salt now) db cookie = (seed_ok, db, cookie).
Proof.
  intros Hd Hp.
  destruct (seed_data_cases gen txt salt now db cookie)
    as [(_ & _ & H)|[(_ & H & _)|[(_ & H & _)|[(H & _)|[(H & _)|(H & _)]]]]];
    first [exact H | contradiction].
Qed.

(** X18. [seed_data] is idempotent: run again on the store it left, with
    whatever salt and clock, it changes nothing.  When it answers 200 the
    store holds the demo account and at least one post, and the second
    run answers 200 as well; a store that already has a post gets no post
    from it. *)
Theorem seed_data_is_idempotent gen txt (salt1 salt2 : string) (now1 now2 : Z) (db : DB)
    (cookie : option Z) :
  let x1 := run (seed_data gen txt salt1 now1) db cookie in
  let x2 := run (seed_data gen txt salt2 now2) (store_of x1) (cookie_of x1) in
  store_of x2 = store_of x1
  /\ (status (response_of x1) = 200 ->
      demo_user (store_of x1) <> None /\ posts (store_of x1) <> []
      /\ response_of x2 = seed_ok)
  /\ (posts db <> [] -> posts (store_of x1) = posts db).
Proof.
  cbv zeta.
  destruct (seed_data_cases gen txt salt1 now1 db cookie)
    as [(Hd & Hp & H)
       |[(Hd & Hp & Hc & rows & Hrows & H)
        |[(Hd & Hp & Hc & Hs & Hr)
         |[(Hd & Hf & Hp & row & Hrow & H)
          |[(Hd & Hf & Hp & row & rows & Hrow & Hrows & H)
           |(Hd & Hf & Hs & Hr)]]]]].
  - rewrite H. cbn [store_of cookie_of response_of fst snd].
    rewrite (seed_data_settled gen txt salt2 now2 db cookie Hd Hp).
    repeat split; auto.
  - rewrite H. cbn [store_of cookie_of response_of fst snd].
    rewrite (seed_data_settled gen txt salt2 now2 (with_posts db rows) cookie Hd Hrows).
    split; [reflexivity|]. split; [auto|]. intros Hne. contradiction.
  - split; [|split].
    + rewrite Hs.
      destruct (seed_data_cases gen txt salt2 now2 db
                  (cookie_of (run (seed_data gen txt salt1 now1) db cookie)))
        as [(_ & Hp' & _)
           |[(_ & _ & Hc' & _)
            |[(_ & _ & _ & Hs' & _)
             |[(Hd' & _)|[(Hd' & _)|(Hd' & _)]]]]];
        first [exact Hs' | congruence].
    + intros H200. congruence.
    + intros _. now rewrite Hs.
  - rewrite H. cbn [store_of cookie_of response_of fst snd].
    pose proof (demo_user_added db row Hd Hrow) as Hd1.
    rewrite (seed_data_settled gen txt salt2 now2 _ cookie);
      [|rewrite Hd1; discriminate|exact Hp].
    split; [reflexivity|]. split; [|reflexivity].
    intros _. split; [rewrite Hd1; discriminate|]. split; [exact Hp|reflexivity].
  - rewrite H. cbn [store_of cookie_of response_of fst snd].
    pose proof (demo_user_added db row Hd Hrow) as Hd1.
    assert (Hd2 : demo_user (with_posts (with_users db (users db ++ [row])) rows) <> None)
      by (change (demo_user (with_users db (users db ++ [row])) <> None);
          rewrite Hd1; discriminate).
    rewrite (seed_data_settled gen txt salt2 now2 _ cookie); [|exact Hd2|exact Hrows].
    split; [reflexivity|]. split; [|intros Hne; contradiction].
    intros _. split; [exact Hd2|]. split; [exact Hrows|reflexivity].
  - split; [|split].
    + rewrite Hs.
      destruct (seed_data_cases gen txt salt2 now2 db
                  (cookie_of (run (seed_data gen txt salt1 now1) db cookie)))
        as [(Hd' & _)
           |[(Hd' & _)
            |[(Hd' & _)
             |[(_ & Hf' & _)|[(_ & Hf' & _)|(_ & _ & Hs' & _)]]]]];
        first [exact Hs' | congruence].
    + intros H200. congruence.
    + intros _. now rewrite Hs.
Qed.

Lemma seed_data_is_idempotent_witness :
  posts (store_of (run (seed_data plain_hash no_real_text "s" 9) sample_db None))
  = posts sample_db.
Proof.
  apply (proj2 (proj2 (seed_data_is_idempotent plain_hash no_real_text "s" "s" 9 9
                         sample_db None))).
  discriminate.
Defined.

(** ** Pagination *)

Lemma paginate_result (rows : list Post.t) (pg per_page : Z) (env : Env) :
  paginate rows pg per_page env
  = (if (pg <? 1) || (match page_rows rows pg per_page with [] => negb (pg =? 1) | _ => false end)
     then Raised (if pg <? 1 then NotFound else missing_row [(pg - 1) * per_page])
     else Done (mkPagination (page_rows rows pg per_page) pg per_page
                  (Z.of_nat (List.length rows))),
     env).
Proof.
  unfold paginate, page_rows. destruct (pg <? 1); [reflexivity|]. cbn [orb].
  destruct (firstn _ _); [destruct (pg =? 1)|]; reflexivity.
Qed.

Lemma page_rows_length (rows : list Post.t) (pg per_page : Z) :
  (List.length (page_rows rows pg per_page) <= Z.to_nat per_page)%nat.
Proof. unfold page_rows. apply firstn_le_length. Qed.

Lemma page_rows_in (rows : list Post.t) (pg per_page : Z) (p : Post.t) :
  In p (page_rows rows pg per_page) -> In p rows.
Proof. unfold page_rows. intros H. now apply in_firstn, in_skipn in H. Qed.

(** ** The home page *)

Lemma sort_rows_permutation (le : Post.t -> Post.t -> bool) (l : list Post.t) :
  Permutation (sort_rows le l) l.
Proof.
  assert (Hins : forall x m, Permutation (insert_row le x m) (x :: m)).
  { intros x m. induction m as [|y m IH]; [reflexivity|]. cbn [insert_row].
    destruct (le x y); [reflexivity|]. rewrite IH. apply perm_swap. }
  induction l as [|x l IH]; [reflexivity|]. cbn [sort_rows fold_right].
  rewrite Hins. now constructor.
Qed.

(** X19. The home page never writes.  With a database ordering that
    returns the rows it is given, a page it renders holds at most twelve
    posts of the store and says how it was sorted; sorted by price
    ([price_low], [price_high]) it counts and shows only the posts that
    have a price, with any other value of [sort] it counts them all.  A
    page number below 1, or above 1 with no row left for it, gives the
    error page with status 500, since the 404 of [paginate] is caught by
    the route's own [except]. *)
Theorem homepage_listing
    (order_by : (Post.t -> Post.t -> bool) -> list Post.t -> list Post.t)
    (args : list (string * string)) (db : DB) (cookie : option Z) :
  (forall le l, Permutation (order_by le l) l) ->
  let x := run_page (homepage order_by args) db cookie in
  let pg := args_get_int args "page" 1 in
  let sort := args_get_or args "sort" "recent" in
  let by_price := String.eqb sort "price_low" || String.eqb sort "price_high" in
  let listed := if by_price then filter has_price (posts db) else posts db in
  snd (fst x) = db
  /\ snd x = cookie
  /\ (pg < 1 \/ (1 < pg /\ Z.of_nat (List.length listed) <= (pg - 1) * 12) ->
      fst (fst x) = mkPage "error.html" (PageError "Error loading posts") 500)
  /\ (forall pgn s,
        fst (fst x) = mkPage "homepage.html" (HomepageContext pgn s) 200 ->
        s = sort
        /\ page pgn = pg
        /\ total pgn = Z.of_nat (List.length listed)
        /\ (List.length (items pgn) <= 12)%nat
        /\ (forall p, In p (items pgn) -> In p listed)
        /\ (by_price = true -> forall p, In p (items pgn) -> Post.price p <> None))
  /\ (pg = 1 -> exists pgn,
        fst (fst x) = mkPage "homepage.html" (HomepageContext pgn sort) 200).
Proof.
  intros Hperm x pg sort by_price listed.
  set (rows := if String.eqb sort "price_low"
               then order_by price_asc (filter has_price (posts db))
               else if String.eqb sort "price_high"
               then order_by price_desc (filter has_price (posts db))
               else order_by created_at_desc (posts db)).
  assert (Hrows : Permutation rows listed).
  { unfold rows, listed, by_price.
    destruct (String.eqb sort "price_low"), (String.eqb sort "price_high"); apply Hperm. }
  assert (Hx : x = (if (pg <? 1)
                       || (match page_rows rows pg 12 with
                           | [] => negb (pg =? 1)
                           | _ => false
                           end)
                    then mkPage "error.html" (PageError "Error loading posts") 500
                    else mkPage "homepage.html"
                           (HomepageContext
                              (mkPagination (page_rows rows pg 12) pg 12
                                 (Z.of_nat (List.length rows))) sort) 200,
                    db, cookie)).
  { subst x. unfold run_page, homepage, try_page, bind, reads, ret.
    cbn [pending]. fold pg sort. fold rows. rewrite paginate_result.
    destruct ((pg <? 1) || _); reflexivity. }
  rewrite Hx. cbn [fst snd]. split; [reflexivity|]. split; [reflexivity|].
  split; [|split].
  - intros Hbad.
    replace ((pg <? 1) || _) with true; [reflexivity|]. symmetry.
    destruct Hbad as [Hlow|[Hhigh Hlen]].
    + apply Z.ltb_lt in Hlow. now rewrite Hlow.
    + rewrite <- (Permutation_length Hrows) in Hlen.
      unfold page_rows. rewrite skipn_all2 by lia. rewrite firstn_nil.
      replace (pg =? 1) with false by (symmetry; apply Z.eqb_neq; lia).
      apply orb_true_r.
  - intros pgn s Hpage. destruct ((pg <? 1) || _); [discriminate Hpage|].
    injection Hpage as <- <-. cbn [page total items].
    split; [reflexivity|]. split; [reflexivity|].
    split; [now rewrite (Permutation_length Hrows)|].
    split; [exact (page_rows_length rows pg 12)|].
    assert (Hin : forall p, In p (page_rows rows pg 12) -> In p listed).
    { intros p Hp. apply page_rows_in in Hp. now apply (Permutation_in _ Hrows). }
    split; [exact Hin|].
    intros Hby p Hp. specialize (Hin p Hp). unfold listed in Hin. rewrite Hby in Hin.
    apply filter_In in Hin. destruct Hin as [_ Hin]. unfold has_price in Hin.
    destruct (Post.price p); [discriminate|discriminate Hin].
  - intros Hone.
    exists (mkPagination (page_rows rows pg 12) pg 12 (Z.of_nat (List.length rows))).
    replace (pg <? 1) with false by (symmetry; apply Z.ltb_ge; lia).
    replace (pg =? 1) with true by (symmetry; apply Z.eqb_eq; lia).
    cbn [orb negb]. destruct (page_rows rows pg 12); reflexivity.
Qed.

Lemma homepage_listing_witness :
  fst (fst (run_page (homepage sort_rows [("sort", "price_low")]) sample_db None))
  = mkPage "homepage.html" (HomepageContext (mkPagination [sky] 1 12 1) "price_low") 200
  /\ In sky (filter has_price (posts sample_db)).
Proof.
  destruct (homepage_listing sort_rows [("sort", "price_low")] sample_db None
              sort_rows_permutation)
    as (_ & _ & _ & H & _).
  destruct (H (mkPagination [sky] 1 12 1) "price_low" eq_refl) as (_ & _ & _ & _ & Hin & _).
  split; [reflexivity|]. exact (Hin sky (or_introl eq_refl)).
Defined.

(** ** The profile page *)

(** X20. The profile page never writes.  For a username no account has
    it answers 404 "User not found", and it gives the same answer for an
    account when the page number is below 1, or above 1 with no post left
    for it.  Otherwise it shows the account with that page of ten of the
    posts the account owns, and the commissions of the account when it is
    an artist's, none when it is not. *)
Theorem profile_page (username : string) (args : list (string * string)) (db : DB)
    (cookie : option Z) :
  let x := run_page (profile username args) db cookie in
  let pg := args_get_int args "page" 1 in
  let not_found := mkPage "error.html" (PageError "User not found") 404 in
  snd (fst x) = db
  /\ snd x = cookie
  /\ ((forall u, In u (users db) -> User.username u <> username) ->
      fst (fst x) = not_found)
  /\ (forall u,
        find (fun v => String.eqb (User.username v) username) (users db) = Some u ->
        let owned := filter (fun p => Post.user_id p =? User.id u) (posts db) in
        let own_commissions :=
          filter (fun c => Commission.artist_id c =? User.id u) (commissions db) in
        (pg < 1 \/ (1 < pg /\ Z.of_nat (List.length owned) <= (pg - 1) * 10) ->
         fst (fst x) = not_found)
        /\ (pg = 1 \/ (1 < pg /\ (pg - 1) * 10 < Z.of_nat (List.length owned)) ->
            fst (fst x)
            = mkPage "profile.html"
                (ProfileContext u
                   (mkPagination (page_rows owned pg 10) pg 10
                      (Z.of_nat (List.length owned)))
                   (if User.is_artist u then own_commissions else []))
                200
            /\ (List.length (page_rows owned pg 10) <= 10)%nat
            /\ forall p, In p (page_rows owned pg 10) ->
                 In p (posts db) /\ Post.user_id p = User.id u)).
Proof.
  intros x pg not_found.
  assert (Hx : snd (fst x) = db /\ snd x = cookie).
  { subst x. unfold run_page, profile, try_page, bind, or_404, reads, ret.
    cbn [pending]. destruct (find _ (users db)) as [u|]; [|split; reflexivity].
    rewrite paginate_result. destruct ((_ <? 1) || _); [split; reflexivity|].
    destruct (User.is_artist u); split; reflexivity. }
  destruct Hx as [Hstore Hcookie]. split; [exact Hstore|]. split; [exact Hcookie|].
  split.
  - intros Hnone.
    assert (Hfind : find (fun v => String.eqb (User.username v) username) (users db) = None).
    { apply find_all_false. intros u Hu. apply String.eqb_neq. now apply Hnone. }
    subst x. unfold run_page, profile, try_page, bind, or_404.
    cbn [pending]. rewrite Hfind. reflexivity.
  - intros u Hu owned own_commissions.
    assert (Hrun : fst (fst x)
                   = if (pg <? 1)
                        || (match page_rows owned pg 10 with
                            | [] => negb (pg =? 1)
                            | _ => false
                            end)
                     then not_found
                     else mkPage "profile.html"
                            (ProfileContext u
                               (mkPagination (page_rows owned pg 10) pg 10
                                  (Z.of_nat (List.length owned)))
                               (if User.is_artist u then own_commissions else []))
                            200).
    { subst x. unfold run_page, profile, try_page, bind, or_404, reads, ret.
      cbn [pending]. rewrite Hu. fold pg. fold owned. rewrite paginate_result.
      destruct ((pg <? 1) || _); [reflexivity|].
      destruct (User.is_artist u); reflexivity. }
    rewrite Hrun. split.
    + intros Hbad.
      replace ((pg <? 1) || _) with true; [reflexivity|]. symmetry.
      destruct Hbad as [Hlow|[Hhigh Hlen]].
      * apply Z.ltb_lt in Hlow. now rewrite Hlow.
      * unfold page_rows. rewrite skipn_all2 by lia. rewrite firstn_nil.
        replace (pg =? 1) with false by (symmetry; apply Z.eqb_neq; lia).
        apply orb_true_r.
    + intros Hgood.
      replace ((pg <? 1) || _) with false.
      * split; [reflexivity|]. split; [exact (page_rows_length owned pg 10)|].
        intros p Hp. apply page_rows_in in Hp. apply filter_In in Hp.
        destruct Hp as [Hin Hown]. split; [exact Hin|]. now apply Z.eqb_eq in Hown.
      * symmetry. apply orb_false_intro; [apply Z.ltb_ge; lia|].
        destruct Hgood as [Hone|[Hhigh Hlen]].
        -- replace (pg =? 1) with true by (symmetry; apply Z.eqb_eq; lia).
           now destruct (page_rows owned pg 10).
        -- unfold page_rows.
           destruct (skipn (Z.to_nat ((pg - 1) * 10)) owned) as [|a l] eqn:Hskip.
           ++ apply (f_equal (@List.length _)) in Hskip.
              rewrite length_skipn in Hskip. cbn in Hskip. lia.
           ++ reflexivity.
Qed.

Lemma profile_page_witness :
  fst (fst (run_page (profile "carol" []) sample_db None))
  = mkPage "error.html" (PageError "User not found") 404
  /\ fst (fst (run_page (profile "alice" []) sample_db None))
     = mkPage "profile.html"
         (ProfileContext alice (mkPagination [sky; sketch] 1 10 2) [portrait]) 200
  /\ fst (fst (run_page (profile "alice" [("page", "2")]) sample_db None))
     = mkPage "error.html" (PageError "User not found") 404.
Proof.
  split; [|split].
  - destruct (profile_page "carol" [] sample_db None) as (_ & _ & H & _).
    apply H. intros u [<-|[<-|[]]]; discriminate.
  - destruct (profile_page "alice" [] sample_db None) as (_ & _ & _ & H).
    destruct (H alice eq_refl) as [_ Hgood].
    exact (proj1 (Hgood (or_introl eq_refl))).
  - destruct (profile_page "alice" [("page", "2")] sample_db None) as (_ & _ & _ & H).
    destruct (H alice eq_refl) as [Hbad _].
    apply Hbad. right. cbn. lia.
Defined.

(** ** The users a search finds *)

(** X21. Beside the posts, a search with a query of two characters or
    more lists the first ten accounts, in row order, whose username matches
    the pattern; when the query holds no wildcard and no NUL these are
    accounts whose username, read up to its first NUL, contains it, case
    aside, and all of them when there are at most ten.  When the page of
    posts asked for does not exist the answer is the error page with
    status 500 and no account is listed, since the 404 of [paginate] is
    caught by the route's own [except]. *)
Theorem search_users (args : list (string * string)) (db : DB) (cookie : option Z) :
  let q := search_query args in
  let pg := args_get_int args "page" 1 in
  let matching := filter (post_matches q) (posts db) in
  let named := filter (fun u => ilike (User.username u) (contains_pattern q)) (users db) in
  (2 <= List.length q)%nat ->
  (pg = 1 \/ (1 < pg /\ (pg - 1) * 12 < Z.of_nat (List.length matching)) ->
   run (search args) db cookie
   = (render_template "search.html"
        (SearchContext
           (Some (mkPagination (page_rows matching pg 12) pg 12
                    (Z.of_nat (List.length matching))))
           (Some (firstn 10 named)) (string_of_list_ascii q)) 200,
      db, cookie))
  /\ (pg < 1 \/ (1 < pg /\ Z.of_nat (List.length matching) <= (pg - 1) * 12) ->
      run (search args) db cookie
      = (render_template "error.html" (ErrorContext "Search error") 500, db, cookie))
  /\ (List.length (firstn 10 named) <= 10)%nat
  /\ (wildcard_free q = true -> nul_free q = true ->
      (forall u, In u (firstn 10 named) ->
         In u (users db) /\ contains_ci q (until_nul (chars (User.username u))))
      /\ ((List.length named <= 10)%nat ->
          forall u, In u (users db) ->
            contains_ci q (until_nul (chars (User.username u))) ->
            In u (firstn 10 named))).
Proof.
  intros q pg matching named Hlong.
  assert (Hrun : run (search args) db cookie
                 = if (pg <? 1)
                      || (match page_rows matching pg 12 with
                          | [] => negb (pg =? 1)
                          | _ => false
                          end)
                   then (render_template "error.html" (ErrorContext "Search error") 500,
                         db, cookie)
                   else (render_template "search.html"
                           (SearchContext
                              (Some (mkPagination (page_rows matching pg 12) pg 12
                                       (Z.of_nat (List.length matching))))
                              (Some (firstn 10 named)) (string_of_list_ascii q)) 200,
                         db, cookie)).
  { unfold search, run, try_except, bind, reads, ret. fold q pg.
    destruct q as [|a [|b l]] eqn:Hq; [cbn in Hlong; lia|cbn in Hlong; lia|].
    cbn [pending]. fold matching. rewrite paginate_result.
    destruct ((pg <? 1) || _); reflexivity. }
  rewrite Hrun. split; [|split; [|split]].
  - intros Hgood. replace ((pg <? 1) || _) with false; [reflexivity|].
    symmetry. apply orb_false_intro; [apply Z.ltb_ge; lia|].
    destruct Hgood as [Hone|[Hhigh Hlen]].
    + replace (pg =? 1) with true by (symmetry; apply Z.eqb_eq; lia).
      now destruct (page_rows matching pg 12).
    + unfold page_rows.
      destruct (skipn (Z.to_nat ((pg - 1) * 12)) matching) as [|x l] eqn:Hskip.
      * apply (f_equal (@List.length _)) in Hskip.
        rewrite length_skipn in Hskip. cbn in Hskip. lia.
      * reflexivity.
  - intros Hbad. replace ((pg <? 1) || _) with true; [reflexivity|]. symmetry.
    destruct Hbad as [Hlow|[Hhigh Hlen]].
    + apply Z.ltb_lt in Hlow. now rewrite Hlow.
    + unfold page_rows. rewrite skipn_all2 by lia. rewrite firstn_nil.
      replace (pg =? 1) with false by (symmetry; apply Z.eqb_neq; lia).
      apply orb_true_r.
  - apply firstn_le_length.
  - intros Hw Hn. split.
    + intros u Hu. apply in_firstn in Hu. apply filter_In in Hu.
      destruct Hu as [Hin Hlike]. split; [exact Hin|]. now apply ilike_contains.
    + intros Hfew u Hin Hcont. rewrite firstn_all2 by exact Hfew.
      apply filter_In. split; [exact Hin|]. now apply ilike_contains.
Qed.

Lemma search_users_witness :
  run (search [("q", "BO")]) sample_db None
  = (render_template "search.html"
       (SearchContext (Some (mkPagination [] 1 12 0)) (Some [bob]) "BO") 200,
     sample_db, None)
  /\ run (search [("q", "sky"); ("page", "2")]) sample_db None
     = (render_template "error.html" (ErrorContext "Search error") 500, sample_db, None).
Proof.
  split.
  - destruct (search_users [("q", "BO")] sample_db None) as (H & _).
    + cbn. lia.
    + exact (H (or_introl eq_refl)).
  - destruct (search_users [("q", "sky"); ("page", "2")] sample_db None) as (_ & H & _).
    + cbn. lia.
    + apply H. right. cbn. lia.
Defined.

(** ** Ids of deleted posts *)

(** X22. A post id comes back after a delete.  When a user creates a
    post, another user marks it as a favorite, and the owner deletes it
    and creates a new post, the new post gets the id of the deleted one;
    the favorite, which [delete_post] left in the store, is now a favorite
    of the new post. *)
Theorem deleted_post_id_is_reused (db : DB) (uid uid2 : Z) (u u2 : User.t)
    (now1 now2 now3 : Z) (n1 n2 : NewPost) :
  constraints_ok db = true ->
  get_user uid db = Some u ->
  get_user uid2 db = Some u2 ->
  1 <= str_len (new_title n1) <= 200 ->
  1 <= str_len (new_image_url n1) ->
  price_accepted (new_price n1) ->
  1 <= str_len (new_title n2) <= 200 ->
  1 <= str_len (new_image_url n2) ->
  price_accepted (new_price n2) ->
  let pid := next_id (map Post.id (posts db)) in
  let x1 := run (create_post now1 (new_post_data n1)) db (Some uid) in
  let x2 := run (add_favorite now2 pid) (store_of x1) (Some uid2) in
  let x3 := run (delete_post pid) (store_of x2) (Some uid) in
  let x4 := run (create_post now3 (new_post_data n2)) (store_of x3) (Some uid) in
  response_of x1 = jsonify [("success", PBool true); ("post_id", PInt pid)] 201
  /\ get_post pid (store_of x1) = Some (new_post_row db n1 (User.id u) now1)
  /\ status (response_of x3) = 200
  /\ response_of x4 = jsonify [("success", PBool true); ("post_id", PInt pid)] 201
  /\ get_post pid (store_of x4) = Some (new_post_row db n2 (User.id u) now3)
  /\ exists f,
       get_favorite (User.id u2) pid (store_of x2) = Some f
       /\ get_favorite (User.id u2) pid (store_of x4) = Some f.
Proof.
  intros Hc Hu Hu2 Ht1 Hi1 Hp1 Ht2 Hi2 Hp2 pid x1 x2 x3 x4.
  set (row1 := new_post_row db n1 (User.id u) now1).
  set (row2 := new_post_row db n2 (User.id u) now3).
  set (s1 := with_posts db (posts db ++ [row1])).
  assert (Hx1 : x1 = (jsonify [("success", PBool true); ("post_id", PInt pid)] 201,
                      s1, Some uid))
    by exact (create_post_accepted db uid u now1 n1 Hc Hu Ht1 Hi1 Hp1).
  assert (Hrow1 : get_post pid s1 = Some row1).
  { unfold get_post, s1. cbn [posts with_posts].
    apply find_app_last; [apply get_post_fresh|apply Z.eqb_refl]. }
  assert (Hx2 : exists fl f,
             store_of x2 = with_favorites s1 fl
             /\ get_favorite (User.id u2) pid (with_favorites s1 fl) = Some f).
  { subst x2. rewrite Hx1. cbn [store_of fst snd].
    destruct (get_favorite (User.id u2) pid s1) as [f|] eqn:Hf.
    - rewrite (add_favorite_conflict s1 uid2 u2 pid row1 f now2 Hu2 Hrow1 Hf).
      exists (favorites s1), f. split; [|exact Hf]. cbn [fst snd]. now destruct db.
    - rewrite (add_favorite_creates s1 uid2 u2 pid row1 now2 Hc Hu2 Hrow1 Hf).
      cbn [fst snd]. eexists. eexists. split; [reflexivity|].
      unfold get_favorite in *. cbn [favorites with_favorites].
      apply find_app_last; [exact Hf|]. cbn. now rewrite !Z.eqb_refl. }
  destruct Hx2 as (fl & f & Hs2 & Hf2).
  set (s2 := with_favorites s1 fl) in *.
  assert (Hfresh : forall p, In p (posts db) -> Post.id p <> Post.id row1).
  { intros p Hp. change (Post.id row1) with (next_id (map Post.id (posts db))).
    pose proof (next_id_above (map Post.id (posts db)) (Post.id p) (in_map _ _ _ Hp)).
    lia. }
  assert (Hx3 : x3 = (jsonify [("success", PBool true); ("message", PStr "Post deleted")] 200,
                      with_posts s2 (posts db), Some uid)).
  { subst x3. rewrite Hs2.
    rewrite (delete_post_owner_run s2 uid u pid row1 Hc Hu Hrow1 eq_refl).
    change (posts s2) with (posts db ++ [row1]).
    change (fun p : Post.t => negb (Post.id p =? pid))
      with (fun p : Post.t => negb (Post.id p =? Post.id row1)).
    now rewrite (filter_fresh_last Post.id (posts db) row1 Hfresh). }
  set (s3 := with_posts s2 (posts db)) in *.
  assert (Hx4 : x4 = (jsonify [("success", PBool true); ("post_id", PInt pid)] 201,
                      with_posts s3 (posts db ++ [row2]), Some uid)).
  { subst x4. rewrite Hx3. cbn [store_of fst snd].
    exact (create_post_accepted s3 uid u now3 n2 Hc Hu Ht2 Hi2 Hp2). }
  rewrite Hx1, Hx3, Hx4, Hs2. cbn [response_of store_of fst snd status jsonify].
  split; [reflexivity|]. split; [exact Hrow1|]. split; [reflexivity|].
  split; [reflexivity|]. split.
  - unfold get_post. cbn [posts with_posts].
    apply find_app_last; [apply get_post_fresh|apply Z.eqb_refl].
  - exists f. split; exact Hf2.
Qed.

Lemma deleted_post_id_is_reused_witness :
  let dawn := mkNewPost "Dawn" None "http://x/3.png" None None in
  let dusk := mkNewPost "Dusk" None "http://x/4.png" None None in
  let x1 := run (create_post 7 (new_post_data dawn)) sample_db (Some 1) in
  let x2 := run (add_favorite 8 3) (store_of x1) (Some 2) in
  let x3 := run (delete_post 3) (store_of x2) (Some 1) in
  let x4 := run (create_post 9 (new_post_data dusk)) (store_of x3) (Some 1) in
  response_of x4 = jsonify [("success", PBool true); ("post_id", PInt 3)] 201
  /\ option_map Post.title (get_post 3 (store_of x4)) = Some "Dusk"
  /\ get_favorite 2 3 (store_of x4) = Some (Favorite.mk 1 2 3 8).
Proof.
  cbv zeta.
  destruct (deleted_post_id_is_reused sample_db 1 2 alice bob 7 8 9
              (mkNewPost "Dawn" None "http://x/3.png" None None)
              (mkNewPost "Dusk" None "http://x/4.png" None None)
              eq_refl eq_refl eq_refl)
    as (_ & _ & _ & H4 & Hpost & f & _ & Hf).
  - cbn. lia.
  - cbn. lia.
  - exact I.
  - cbn. lia.
  - cbn. lia.
  - exact I.
  - split; [exact H4|].
    split; [exact (f_equal (option_map Post.title) Hpost)|]. reflexivity.
Defined.

(** ** Rows and the accounts they name *)

Lemma get_user_exists (uid : Z) (db : DB) (u : User.t) :
  get_user uid db = Some u -> account_exists db (User.id u).
Proof. intros H. apply find_some in H. exists u. now split. Qed.

Lemma owners_frame (f : DB -> DB) :
  (forall db, users (f db) = users db) ->
  (forall db, incl (posts (f db)) (posts db)) ->
  (forall db, incl (commissions (f db)) (commissions db)) ->
  (forall db, reviews (f db) = reviews db) ->
  (forall db, incl (favorites (f db)) (favorites db)) ->
  (forall db, orders (f db) = orders db) ->
  write_keeps (both owners_exist) f.
Proof.
  intros Hu Hp Hk Hr Hf Ho env [Hc (P1 & P2 & P3 & P4 & P5)]. split; [exact Hc|].
  cbn [pending]. unfold owners_exist, account_exists in *. rewrite Hu, Hr, Ho.
  repeat split; auto.
  - intros p Hin. now apply P1, Hp.
  - intros c Hin. now apply P2, Hk.
  - intros x Hin. now apply P4, Hf.
Qed.

Lemma owners_users (db : DB) (l : list User.t) :
  owners_exist db ->
  (forall uid, account_exists db uid -> exists u, In u l /\ User.id u = uid) ->
  owners_exist (with_users db l).
Proof.
  intros (P1 & P2 & P3 & P4 & P5) Hl. unfold owners_exist, account_exists in *.
  cbn [users posts commissions reviews favorites orders with_users].
  repeat split; intros x Hin; apply Hl; auto.
Qed.

Lemma owners_new_user (db : DB) (row : User.t) :
  owners_exist db -> owners_exist (with_users db (users db ++ [row])).
Proof.
  intros Hdb. apply owners_users; [exact Hdb|]. intros uid (u & Hin & Hid).
  exists u. split; [apply in_or_app; now left|exact Hid].
Qed.

Lemma owners_add_user (row : User.t) :
  write_keeps (both owners_exist) (fun db => with_users db (users db ++ [row])).
Proof.
  intros env [Hc Hp]. split; [exact Hc|]. cbn [pending].
  apply owners_users; [exact Hp|]. intros uid (u & Hin & Hid).
  exists u. split; [apply in_or_app; now left|exact Hid].
Qed.

Lemma owners_update_user (uid : Z) (g : User.t -> User.t) :
  (forall u, User.id (g u) = User.id u) ->
  write_keeps (both owners_exist)
    (fun db => with_users db (map (fun u => if User.id u =? uid then g u else u) (users db))).
Proof.
  intros Hg env [Hc Hp]. split; [exact Hc|]. cbn [pending].
  apply owners_users; [exact Hp|]. intros k (u & Hin & Hid).
  exists (if User.id u =? uid then g u else u). split.
  - apply in_map_iff. now exists u.
  - destruct (User.id u =? uid); [now rewrite Hg|exact Hid].
Qed.

Lemma owners_update_post (pid : Z) (g : Post.t -> Post.t) :
  (forall p, Post.user_id (g p) = Post.user_id p) ->
  write_keeps (both owners_exist)
    (fun db => with_posts db (map (fun p => if Post.id p =? pid then g p else p) (posts db))).
Proof.
  intros Hg env [Hc (P1 & P2 & P3 & P4 & P5)]. split; [exact Hc|]. cbn [pending].
  split; [|repeat split; assumption].
  intros p Hin. cbn [posts with_posts] in Hin. apply in_map_iff in Hin.
  destruct Hin as (q & <- & Hq). specialize (P1 q Hq).
  destruct (Post.id q =? pid); [now rewrite Hg|exact P1].
Qed.

(** Adding rows that name an account of the store. *)
Lemma owners_add_posts (db : DB) (rows : list Post.t) :
  owners_exist db ->
  (forall p, In p rows -> account_exists db (Post.user_id p)) ->
  owners_exist (with_posts db (posts db ++ rows)).
Proof.
  intros (P1 & P2 & P3 & P4 & P5) H. split; [|repeat split; assumption].
  intros p Hin. cbn [posts with_posts] in Hin. apply in_app_or in Hin.
  destruct Hin as [Hin|Hin]; [now apply P1|now apply H].
Qed.

Lemma owners_add_post (db : DB) (row : Post.t) :
  owners_exist db -> account_exists db (Post.user_id row) ->
  owners_exist (with_posts db (posts db ++ [row])).
Proof.
  intros Hdb Hrow. apply owners_add_posts; [exact Hdb|].
  intros p [<-|[]]. exact Hrow.
Qed.

Lemma owners_add_commission (db : DB) (row : Commission.t) :
  owners_exist db -> account_exists db (Commission.artist_id row) ->
  owners_exist (with_commissions db (commissions db ++ [row])).
Proof.
  intros (P1 & P2 & P3 & P4 & P5) H.
  split; [assumption|]. split; [|repeat split; assumption].
  intros c Hin. cbn [commissions with_commissions] in Hin. apply in_app_or in Hin.
  destruct Hin as [Hin|[<-|[]]]; [now apply P2|exact H].
Qed.

Lemma owners_add_review (db : DB) (row : Review.t) :
  owners_exist db -> account_exists db (Review.user_id row) ->
  owners_exist (with_reviews db (reviews db ++ [row])).
Proof.
  intros (P1 & P2 & P3 & P4 & P5) H.
  split; [assumption|]. split; [assumption|]. split; [|split; assumption].
  intros r Hin. cbn [reviews with_reviews] in Hin. apply in_app_or in Hin.
  destruct Hin as [Hin|[<-|[]]]; [now apply P3|exact H].
Qed.

Lemma owners_add_favorite (db : DB) (row : Favorite.t) :
  owners_exist db -> account_exists db (Favorite.user_id row) ->
  owners_exist (with_favorites db (favorites db ++ [row])).
Proof.
  intros (P1 & P2 & P3 & P4 & P5) H.
  split; [assumption|]. split; [assumption|]. split; [assumption|]. split; [|assumption].
  intros f Hin. cbn [favorites with_favorites] in Hin. apply in_app_or in Hin.
  destruct Hin as [Hin|[<-|[]]]; [now apply P4|exact H].
Qed.

Lemma owners_add_order (db : DB) (row : Order.t) :
  owners_exist db -> account_exists db (Order.buyer_id row) ->
  owners_exist (with_orders db (orders db ++ [row])).
Proof.
  intros (P1 & P2 & P3 & P4 & P5) H.
  split; [assumption|]. split; [assumption|]. split; [assumption|]. split; [assumption|].
  intros o Hin. cbn [orders with_orders] in Hin. apply in_app_or in Hin.
  destruct Hin as [Hin|[<-|[]]]; [now apply P5|exact H].
Qed.

Lemma seed_rows_owner (rows : list Post.t) (uid now : Z) :
  Forall2 same_content rows (seed_rows uid now) ->
  forall p, In p rows -> Post.user_id p = uid.
Proof.
  unfold seed_rows. cbn. intros H p Hin.
  repeat match goal with
         | H : Forall2 _ _ (_ :: _) |- _ => inversion H; subst; clear H
         | H : Forall2 _ _ [] |- _ => inversion H; subst; clear H
         end.
  cbn in Hin.
  repeat match goal with
         | H : _ \/ _ |- _ => destruct H
         | H : False |- _ => destruct H
         end; subst;
    match goal with H : same_content p _ |- _ => apply H end.
Qed.

Ltac owners_write :=
  first [ apply owners_add_user
        | apply owners_update_user; intros ?; reflexivity
        | apply owners_update_post; intros ?; reflexivity
        | apply owners_frame; intros ?;
          first [reflexivity | apply incl_refl | apply incl_filter] ].

(** The handlers that add a row take the user from the session. *)
Ltac owners_leaf Hc Hp :=
  first
    [ split; assumption
    | split; [exact Hc|exact Hc]
    | match goal with
      | |- both _ (mkEnv ?d _ _ _) =>
          let Hrow := fresh "Hrow" in
          assert (Hrow : owners_exist d); [|split; exact Hrow]
      end ].

Ltac owners_row Hp :=
  first [ apply owners_add_post | apply owners_add_commission | apply owners_add_review
        | apply owners_add_favorite | apply owners_add_order ];
  [exact Hp|];
  cbn [Post.user_id Commission.artist_id Review.user_id Favorite.user_id Order.buyer_id];
  eapply get_user_exists; eassumption.

Ltac owners_wp Hc Hp := wp_run; owners_leaf Hc Hp; owners_row Hp.

Lemma adding_keeps_owners gen chk txt (r : request) :
  match r with
  | ReqCreatePost _ _ | ReqAddFavorite _ _ | ReqCreateReview _ _ _
  | ReqCreateOrder _ _ | ReqCreateCommission _ _ =>
      keeps (both owners_exist) (view gen chk txt r)
  | _ => True
  end.
Proof.
  destruct r; try exact I; apply keeps_wp; intros env [Hc Hp];
    unfold_views; unfold_rows; owners_wp Hc Hp.
Qed.

Lemma seed_data_keeps_owners gen txt (salt : string) (now : Z) :
  keeps (both owners_exist) (seed_data gen txt salt now).
Proof.
  apply keeps_wp. intros env [Hc Hp].
  unfold seed_data, user_by_username, db_add_user. wp_seed.
  all: owners_leaf Hc Hp.
  all: try (apply owners_new_user; exact Hp).
  - apply owners_add_posts; [exact Hp|].
    intros p Hin. rewrite (seed_rows_owner rows _ now H p Hin).
    match goal with
    | Hf : match ?a with _ => _ end = Some ?t |- _ =>
        destruct a; [|discriminate Hf]; apply find_some in Hf; exists t; now split
    end.
  - match goal with
    | |- owners_exist (with_posts ?d _) => apply (owners_add_posts d rows)
    end; [apply owners_new_user; exact Hp|].
    intros p Hin. rewrite (seed_rows_owner rows _ now H p Hin).
    eexists. split; [cbn [users with_users]; apply in_or_app; right; left; reflexivity|].
    reflexivity.
Qed.

Lemma view_keeps_owners gen chk txt (r : request) :
  keeps (both owners_exist) (view gen chk txt r).
Proof.
  pose proof (adding_keeps_owners gen chk txt r) as Hadd.
  destruct r; try exact Hadd; try apply seed_data_keeps_owners;
    unfold_views; unfold_rows; keeps_auto owners_write.
Qed.

(** X23. Every row names an account of the store: in every store the
    routes can reach, the owner of each post, the artist of each
    commission, the author of each review, the user of each favorite and
    the buyer of each order is a stored account. *)
Theorem owners_are_accounts gen chk txt (db : DB) :
  reachable gen chk txt db ->
  (forall p, In p (posts db) -> exists u, get_user (Post.user_id p) db = Some u)
  /\ (forall c, In c (commissions db) ->
       exists u, get_user (Commission.artist_id c) db = Some u)
  /\ (forall r, In r (reviews db) -> exists u, get_user (Review.user_id r) db = Some u)
  /\ (forall f, In f (favorites db) -> exists u, get_user (Favorite.user_id f) db = Some u)
  /\ (forall o, In o (orders db) -> exists u, get_user (Order.buyer_id o) db = Some u).
Proof.
  intros Hreach.
  assert (Hown : owners_exist db).
  { induction Hreach as [|db cookie r _ IH].
    - repeat split; intros ? [].
    - destruct (keeps_run _ _ db cookie (view_keeps_owners gen chk txt r) (conj IH IH))
        as (env & [Henv _] & ->).
      exact Henv. }
  assert (Hget : forall uid, account_exists db uid -> exists u, get_user uid db = Some u).
  { intros uid (u & Hin & Hid). unfold get_user.
    destruct (find (fun v => User.id v =? uid) (users db)) as [v|] eqn:Hfind;
      [now exists v|].
    apply (find_none _ _ Hfind) in Hin. cbn in Hin. apply Z.eqb_neq in Hin. contradiction. }
  destruct Hown as (P1 & P2 & P3 & P4 & P5).
  repeat split; intros x Hin; apply Hget; auto.
Qed.

Lemma owners_are_accounts_witness :
  exists u, get_user (Post.user_id sky) sample_db = Some u.
Proof.
  apply (proj1 (owners_are_accounts plain_hash plain_check no_real_text sample_db
                  sample_db_reachable)).
  left. reflexivity.
Defined.

(** ** Stored text *)

(** The string a text column receives is the value itself, or empty when
    the value is no string. *)
Lemma keeps_bind_text_value (I : Env -> Prop) `{HI : Invariant I} {B} (v : pyval)
    (k : string -> M B) :
  (forall s, v = PStr s -> keeps I (k s)) ->
  ((forall s, v <> PStr s) -> keeps I (k "")) ->
  keeps I (bind (bind_text v) k).
Proof.
  intros Hs Hn env H. unfold bind, bind_text.
  destruct v; try (apply Hn; [intros ?; discriminate|now apply inv_flags]).
  now apply (Hs s).
Qed.

Ltac keeps_text_step w :=
  lazymatch goal with
  | |- keeps _ (bind (bind_text _) _) =>
      apply keeps_bind_text_value; [exact _|intros ? ?|intros ?]
  | _ => keeps_step w
  end.

Ltac keeps_text w := repeat keeps_text_step w; try exact _.

Lemma slice_len (n : nat) (o : outcome pyval) (s : string) :
  (x <~ o ;; py_slice_to n x) = Done (PStr s) -> str_len s <= Z.of_nat n.
Proof.
  destruct o as [x|]; [|discriminate]. cbn [obind].
  destruct x; try discriminate. cbn. intros [= <-]. apply str_take_len.
Qed.

Lemma text_frame (f : DB -> DB) :
  (forall db, users (f db) = users db) ->
  (forall db, incl (posts (f db)) (posts db)) ->
  (forall db, incl (commissions (f db)) (commissions db)) ->
  write_keeps (both text_bounded) f.
Proof.
  intros Hu Hp Hk env [Hc (P1 & P2 & P3)]. split; [exact Hc|]. cbn [pending].
  unfold text_bounded. rewrite Hu. split; [|split; [|exact P3]].
  - intros p Hin. now apply P1, Hp.
  - intros c Hin. now apply P2, Hk.
Qed.

Lemma text_add_user (row : User.t) :
  short 500 (User.bio row) -> short 500 (User.avatar_url row) ->
  write_keeps (both text_bounded) (fun db => with_users db (users db ++ [row])).
Proof.
  intros Hb Ha env [Hc (P1 & P2 & P3)]. split; [exact Hc|]. cbn [pending].
  split; [exact P1|]. split; [exact P2|].
  intros u Hin. cbn [users with_users] in Hin. apply in_app_or in Hin.
  destruct Hin as [Hin|[<-|[]]]; [now apply P3|now split].
Qed.

Lemma text_update_user (uid : Z) (g : User.t -> User.t) :
  (forall u, short 500 (User.bio u) -> short 500 (User.bio (g u))) ->
  (forall u, short 500 (User.avatar_url u) -> short 500 (User.avatar_url (g u))) ->
  write_keeps (both text_bounded)
    (fun db => with_users db (map (fun u => if User.id u =? uid then g u else u) (users db))).
Proof.
  intros Hb Ha env [Hc (P1 & P2 & P3)]. split; [exact Hc|]. cbn [pending].
  split; [exact P1|]. split; [exact P2|].
  intros u Hin. cbn [users with_users] in Hin. apply in_map_iff in Hin.
  destruct Hin as (v & <- & Hv). destruct (P3 v Hv) as [Q1 Q2].
  destruct (User.id v =? uid); [split; auto|now split].
Qed.

Lemma text_add_post (row : Post.t) :
  str_len (Post.title row) <= 200 ->
  str_len (Post.description row) <= 1000 ->
  str_len (Post.image_url row) <= 500 ->
  write_keeps (both text_bounded) (fun db => with_posts db (posts db ++ [row])).
Proof.
  intros Ht Hd Hi env [Hc (P1 & P2 & P3)]. split; [exact Hc|]. cbn [pending].
  split; [|split; assumption].
  intros p Hin. cbn [posts with_posts] in Hin. apply in_app_or in Hin.
  destruct Hin as [Hin|[<-|[]]]; [now apply P1|now repeat split].
Qed.

Lemma text_update_post (pid : Z) (g : Post.t -> Post.t) :
  (forall p, str_len (Post.title p) <= 200 -> str_len (Post.title (g p)) <= 200) ->
  (forall p, str_len (Post.description p) <= 1000 ->
             str_len (Post.description (g p)) <= 1000) ->
  (forall p, Post.image_url (g p) = Post.image_url p) ->
  write_keeps (both text_bounded)
    (fun db => with_posts db (map (fun p => if Post.id p =? pid then g p else p) (posts db))).
Proof.
  intros Ht Hd Hi env [Hc (P1 & P2 & P3)]. split; [exact Hc|]. cbn [pending].
  split; [|split; assumption].
  intros p Hin. cbn [posts with_posts] in Hin. apply in_map_iff in Hin.
  destruct Hin as (q & <- & Hq). destruct (P1 q Hq) as (Q1 & Q2 & Q3).
  destruct (Post.id q =? pid); [|now repeat split].
  rewrite Hi. repeat split; auto.
Qed.

Lemma text_add_commission (row : Commission.t) :
  str_len (Commission.title row) <= 200 ->
  str_len (Commission.description row) <= 1000 ->
  write_keeps (both text_bounded)
    (fun db => with_commissions db (commissions db ++ [row])).
Proof.
  intros Ht Hd env [Hc (P1 & P2 & P3)]. split; [exact Hc|]. cbn [pending].
  split; [exact P1|]. split; [|exact P3].
  intros c Hin. cbn [commissions with_commissions] in Hin. apply in_app_or in Hin.
  destruct Hin as [Hin|[<-|[]]]; [now apply P2|now split].
Qed.

Ltac text_write :=
  first [ apply text_frame; intros ?;
          first [reflexivity | apply incl_refl | apply incl_filter]
        | apply text_add_user
        | apply text_update_user; intros ? ?
        | apply text_add_post
        | apply text_update_post; [intros ? ?|intros ? ?|intros ?]
        | apply text_add_commission ].

Lemma view_keeps_text gen chk txt (r : request) :
  keeps (both text_bounded) (view gen chk txt r).
Proof.
  destruct r; unfold_views; unfold_rows; keeps_text text_write.
  all: cbn [short User.bio User.avatar_url User.with_bio User.with_avatar_url
            User.with_is_artist Post.title Post.description Post.image_url
            Post.with_title Post.with_description Post.with_price Post.with_is_for_sale
            Commission.title Commission.description] in *.
  all: try assumption; try reflexivity; try exact I.
  all: try (cbn; lia).
  all: subst.
  all: try match goal with
           | H : obind ?o (fun x => py_slice_to ?n x) = Done (PStr ?s) |- str_len ?s <= _ =>
               exact (slice_len n o s H)
           end.
  all: match goal with
       | H : obind (py_getitem ?d ?k) (fun t => py_len t) = Done ?n,
         Hv : py_getitem ?d ?k = Done (PStr ?s),
         Hn : (200 <? ?n) = false |- str_len ?s <= 200 =>
           rewrite Hv in H; cbn [obind py_len] in H; injection H as <-;
           now apply Z.ltb_ge in Hn
       end.
Qed.

(** X24. The text the application stores stays within the lengths the
    handlers cut or check it to: in every store the routes can reach a
    post has a title of at most 200 characters, a description of at most
    1000 and an image URL of at most 500, a commission a title of at most
    200 and a description of at most 1000, and an account a bio and an
    avatar URL of at most 500 each. *)
Theorem stored_text_is_bounded gen chk txt (db : DB) :
  reachable gen chk txt db ->
  (forall p, In p (posts db) ->
     str_len (Post.title p) <= 200
     /\ str_len (Post.description p) <= 1000
     /\ str_len (Post.image_url p) <= 500)
  /\ (forall c, In c (commissions db) ->
       str_len (Commission.title c) <= 200 /\ str_len (Commission.description c) <= 1000)
  /\ (forall u s, In u (users db) ->
       User.bio u = Some s \/ User.avatar_url u = Some s -> str_len s <= 500).
Proof.
  intros Hreach.
  assert (Hb : text_bounded db).
  { induction Hreach as [|db cookie r _ IH].
    - split; [|split]; intros ? [].
    - destruct (keeps_run _ _ db cookie (view_keeps_text gen chk txt r) (conj IH IH))
        as (env & [Henv _] & ->).
      exact Henv. }
  destruct Hb as (P1 & P2 & P3). split; [exact P1|]. split; [exact P2|].
  intros u s Hin Hs. destruct (P3 u Hin) as [Q1 Q2].
  destruct Hs as [Hs|Hs]; rewrite Hs in *; assumption.
Qed.

Lemma stored_text_is_bounded_witness :
  str_len (Post.title sky) <= 200
  /\ str_len (Post.description sky) <= 1000
  /\ str_len (Post.image_url sky) <= 500.
Proof.
  apply (proj1 (stored_text_is_bounded plain_hash plain_check no_real_text sample_db
                  sample_db_reachable)).
  left. reflexivity.
Defined.

(** ** Patches without a price *)

(** X25. For the owner and a patch that holds no price, with a title and
    a description that are strings when present, [update_post] answers 200
    and rewrites exactly that post: the title cut to 200 characters, the
    description to 1000, [is_for_sale] set to the truth value of the
    field, absent fields kept.  Its id, owner, image, price and creation
    time stay, and every other post is found as before. *)
Theorem update_post_applies_patch (db : DB) (uid : Z) (u : User.t) (pid : Z)
    (post : Post.t) (patch : Patch) :
  constraints_ok db = true ->
  get_user uid db = Some u ->
  get_post pid db = Some post ->
  Post.user_id post = User.id u ->
  patch_price patch = None ->
  let x := run (update_post pid (patch_data patch)) db (Some uid) in
  let post' := apply_patch patch None post in
  x = (jsonify [("success", PBool true)] 200,
       with_posts db
         (map (fun p => if Post.id p =? pid then apply_patch patch None p else p) (posts db)),
       Some uid)
  /\ get_post pid (store_of x) = Some post'
  /\ (forall q, q <> pid -> get_post q (store_of x) = get_post q db)
  /\ Post.id post' = Post.id post
  /\ Post.user_id post' = Post.user_id post
  /\ Post.image_url post' = Post.image_url post
  /\ Post.price post' = Post.price post
  /\ Post.created_at post' = Post.created_at post.
Proof.
  intros Hc Hu Hp Ho Hv x post'.
  pose proof (get_post_id pid db post Hp) as Hid.
  assert (Hc' : forall l, constraints_ok (with_posts db l) = true) by (intros l; exact Hc).
  assert (Hkeep : forall p,
             Post.id (apply_patch patch None p) = Post.id p
             /\ Post.user_id (apply_patch patch None p) = Post.user_id p
             /\ Post.image_url (apply_patch patch None p) = Post.image_url p
             /\ Post.price (apply_patch patch None p) = Post.price p
             /\ Post.created_at (apply_patch patch None p) = Post.created_at p).
  { intros p. unfold apply_patch. rewrite Hv.
    destruct (patch_title patch), (patch_description patch), (patch_is_for_sale patch);
      repeat split. }
  assert (Hx : x = (jsonify [("success", PBool true)] 200,
                    with_posts db
                      (map (fun p => if Post.id p =? pid
                                     then apply_patch patch None p else p)
                         (posts db)),
                    Some uid)).
  { subst x. apply Z.eqb_eq in Ho.
    destruct patch as [t d pr s]. cbn in Hv. subst pr.
    unfold update_post, update_post_row, price_or_none, when, bind_text, lift.
    run_view. rewrite Hu, Hp. cbn [fst snd]. rewrite Ho, Hid. cbn [negb].
    set (g := fun p : Post.t =>
                if Post.id p =? pid
                then apply_patch (mkPatch t d None s) None p else p).
    destruct t as [t|], d as [d|], s as [s|];
      cbn -[constraints_ok str_take];
      match goal with
      | |- context [constraints_ok ?e] =>
          assert (Hd : e = with_posts db (map g (posts db)));
          [|assert (Hcd : constraints_ok e = true) by (rewrite Hd; apply Hc');
            rewrite Hcd; cbn [committed session];
            exact (f_equal (fun z => (_, z, _)) Hd)]
      end;
      clear Hu Hp Hc Hc' Hkeep; unfold with_posts; cbn -[str_take];
      destruct db as [us ps cs rs fs os];
      cbn -[str_take] in *; f_equal; rewrite ?map_map;
      first [apply map_ext | etransitivity; [symmetry; apply map_id|apply map_ext]];
      intros p; unfold g, apply_patch; cbn -[str_take];
      destruct (Post.id p =? pid) eqn:Hp'; cbn -[str_take];
      rewrite ?Hp'; cbn -[str_take]; rewrite ?Hp'; cbn -[str_take];
      rewrite ?Hp'; reflexivity. }
  split; [exact Hx|]. rewrite Hx. cbn [store_of fst snd].
  split; [|split; [|apply Hkeep]].
  - rewrite get_post_update by (intros p; apply Hkeep). rewrite Hp. cbn [option_map].
    now rewrite Hid, Z.eqb_refl.
  - intros q Hq. rewrite get_post_update by (intros p; apply Hkeep).
    destruct (get_post q db) as [p|] eqn:Hgq; [|reflexivity]. cbn [option_map].
    pose proof (get_post_id q db p Hgq) as Hpq.
    replace (Post.id p =? pid) with false by (symmetry; apply Z.eqb_neq; lia).
    reflexivity.
Qed.

Lemma update_post_applies_patch_witness :
  run (update_post 1 (patch_data (mkPatch (Some "Storm") None None (Some (PInt 0)))))
    sample_db (Some 1)
  = (jsonify [("success", PBool true)] 200,
     with_posts sample_db
       [Post.mk 1 "Storm" "Clouds at dusk" "http://x/1.png" (Some (float_literal 50))
          false 1 0;
        sketch],
     Some 1).
Proof.
  exact (proj1 (update_post_applies_patch sample_db 1 alice 1 sky
                  (mkPatch (Some "Storm") None None (Some (PInt 0)))
                  eq_refl eq_refl eq_refl eq_refl eq_refl)).
Defined.

(** ** Sessions in circulation *)

(** The session a request leaves is the one it came with, none, or the id
    of an account of the store it leaves. *)
Lemma new_session_is_account gen chk txt (r : request) (db : DB) (cookie : option Z) :
  let x := run (view gen chk txt r) db cookie in
  cookie_of x = cookie \/ cookie_of x = None
  \/ exists u, In u (users (store_of x)) /\ cookie_of x = Some (User.id u).
Proof.
  cbv zeta. pose proof (view_session_kept gen chk txt r) as Hkept.
  destruct r; try (left; now apply session_kept_cookie).
  - cbn [view]. apply run_wp.
    unfold register, user_by_username, user_by_email, db_add_user. wp_run.
    all: try (left; reflexivity).
    all: right; right; eexists;
      (split; [cbn [finish store_of fst snd committed users with_users];
               apply in_or_app; right; left; reflexivity
              |reflexivity]).
  - cbn [view]. apply run_wp. unfold login, user_by_username. wp_run.
    all: try (left; reflexivity).
    all: right; right;
      match goal with
      | H : match ?a with _ => _ end = Some ?t |- _ =>
          destruct a; [|discriminate H]; apply find_some in H; exists t
      end;
      (split; [tauto|reflexivity]).
  - right. left. reflexivity.
Qed.

(** X26. A session in circulation always names an account: after any run
    of requests, each carrying a cookie the application gave out before,
    every cookie given out holds no user id or the id of an account of the
    store.  So [get_current_user] finds a row for whoever passes
    [login_required]. *)
Theorem sessions_name_accounts gen chk txt (db : DB) (cookies : list (option Z)) :
  issued gen chk txt db cookies ->
  forall uid, In (Some uid) cookies ->
    exists u, get_user uid db = Some u
              /\ fst (get_current_user (mkEnv db db None (Some uid))) = Done (Some u).
Proof.
  intros Hissued.
  assert (Hacc : forall uid, In (Some uid) cookies -> account_exists db uid).
  { induction Hissued as [|db cookies cookie r _ IH Hin].
    - intros uid [H|[]]. discriminate H.
    - assert (Hold : forall uid, account_exists db uid ->
                 account_exists (store_of (run (view gen chk txt r) db cookie)) uid).
      { intros uid (u & Hu & Hid).
        destruct (keeps_run _ _ db cookie (view_keeps_records gen chk txt db r)
                    (conj (records_kept_refl db) (records_kept_refl db)))
          as (env & [(_ & _ & Hkept) _] & ->).
        destruct (Hkept u Hu) as (u' & Hu' & Hsame & _).
        exists u'. split; [exact Hu'|congruence]. }
      intros uid [Hnew|Hin'].
      + destruct (new_session_is_account gen chk txt r db cookie)
          as [Hsame|[Hnone|(u & Hu & Hid)]].
        * apply Hold, IH. rewrite <- Hnew, Hsame. exact Hin.
        * congruence.
        * exists u. split; [exact Hu|congruence].
      + now apply Hold, IH. }
  intros uid Hin. destruct (Hacc uid Hin) as (u & Hu & Hid).
  unfold get_current_user. cbn [session pending fst]. unfold get_user.
  destruct (find (fun v => User.id v =? uid) (users db)) as [v|] eqn:Hfind;
    [now exists v|].
  apply (find_none _ _ Hfind) in Hu. cbn in Hu. apply Z.eqb_neq in Hu. contradiction.
Qed.

Lemma sessions_name_accounts_witness :
  let x := run (view plain_hash plain_check no_real_text
                  (ReqRegister "s1" (credentials "alice" "alice@x.com" "secret1")))
             empty_db None in
  exists u, get_user 1 (store_of x) = Some u
            /\ fst (get_current_user (mkEnv (store_of x) (store_of x) None (Some 1)))
               = Done (Some u).
Proof.
  cbv zeta.
  apply (sessions_name_accounts plain_hash plain_check no_real_text _ _
           (issued_step plain_hash plain_check no_real_text empty_db [None] None
              (ReqRegister "s1" (credentials "alice" "alice@x.com" "secret1"))
              (issued_start plain_hash plain_check no_real_text)
              (or_introl eq_refl)) 1).
  left. reflexivity.
Defined.
